(** * tibeb: the validator code generator (package generator)

    A shallow embedding of [internal/generator], in the variant that
    records each validator as a [ValidatorCall] with its arguments: the
    scan of a parsed Go file for validation schemas
    ([findValidationSchemas]), the extraction of one schema from a
    builder chain ([extractValidationSchema], [extractFieldValidation],
    [extractValidators]) and the emission of the generated validator
    ([generateValidator], [Generate]).

    Go strings are byte strings ([string]); slices are lists; a nil
    pointer result is [None]; an [error] result is the left summand of a
    sum. The file system the generator writes to, the parser it calls
    and what it prints are an explicit state ([World]), threaded by the
    monad [IO].

    The definitions come first: the packages of the standard library the
    generator calls ([strings], [filepath], [ast], [os], [parser]), the
    generator itself, and the shapes of source text the properties speak
    of. The properties follow, C1 to C10, and at the end their instances
    at sample inputs. *)

From Stdlib Require Import String Ascii List Bool Arith Lia.
From stdpp Require Import base option list strings gmap.
Import ListNotations.
Local Open Scope list_scope.
Local Open Scope string_scope.

(** ** Package strings *)

Module strings.

(** The slow paths of package strings that consult the Unicode tables
    (package unicode) are taken as an interface: the generator only
    reaches them on text that holds a byte >= 0x80. *)
Class Unicode := {
  (** [strings.Map(unicode.ToLower, s)] *)
  Map_ToLower : string -> string;
  (** [strings.TrimFunc(s, unicode.IsSpace)] *)
  TrimFunc_IsSpace : string -> string;
  (** [strings.TrimRightFunc(s, unicode.IsSpace)] *)
  TrimRightFunc_IsSpace : string -> string
}.

Definition byte (c : ascii) : nat := nat_of_ascii c.

(** [c >= utf8.RuneSelf] *)
Definition nonASCII (c : ascii) : bool := (128 <=? byte c)%nat.

Fixpoint isASCII (s : string) : bool :=
  match s with
  | EmptyString => true
  | String c s' => negb (nonASCII c) && isASCII s'
  end.

Definition HasPrefix (s prefix : string) : bool := String.prefix prefix s.

Definition HasSuffix (s suffix : string) : bool :=
  (String.length suffix <=? String.length s)%nat &&
  String.eqb
    (substring (String.length s - String.length suffix) (String.length suffix) s)
    suffix.

Definition TrimSuffix (s suffix : string) : string :=
  if HasSuffix s suffix
  then substring 0 (String.length s - String.length suffix) s
  else s.

(** [strings.Index]: the byte offset of the first occurrence. *)
Fixpoint Index (s substr : string) : option nat :=
  if String.prefix substr s then Some 0
  else match s with
       | EmptyString => None
       | String _ s' => S <$> Index s' substr
       end.

Definition Contains (s substr : string) : bool :=
  match Index s substr with Some _ => true | None => false end.

(** [strings.Split] for a separator that is not empty: the pieces
    between the successive, non-overlapping occurrences of [sep] read
    from the left. [skip] counts the bytes of a separator still to be
    passed over, [piece] is the piece read so far. *)
Fixpoint Split_from (sep s : string) (skip : nat) (piece : string) : list string :=
  match s with
  | EmptyString => [piece]
  | String c s' =>
      match skip with
      | S k => Split_from sep s' k piece
      | O =>
          if String.prefix sep s
          then piece :: Split_from sep s' (String.length sep - 1) EmptyString
          else Split_from sep s' 0 (piece ++ String c EmptyString)
      end
  end.

Definition Split (s sep : string) : list string := Split_from sep s 0 EmptyString.

(** The table [asciiSpace] of package strings. *)
Definition asciiSpace (c : ascii) : bool :=
  let n := byte c in
  ((n =? 9) || (n =? 10) || (n =? 11) || (n =? 12) || (n =? 13) || (n =? 32))%nat.

(** The first loop of [strings.TrimSpace]: [inl] is the text from the
    first byte that is no ASCII space on, [inr] the text from a byte
    >= 0x80 on, where the fast path is left. *)
Fixpoint trimLeftASCII (s : string) : string + string :=
  match s with
  | EmptyString => inl EmptyString
  | String c s' =>
      if nonASCII c then inr s
      else if asciiSpace c then trimLeftASCII s'
      else inl s
  end.

(** The second loop, run on the reversed text: the bytes from the end. *)
Fixpoint trimRightASCII (r : string) : string + string :=
  match r with
  | EmptyString => inl EmptyString
  | String c r' =>
      if nonASCII c then inr r
      else if asciiSpace c then trimRightASCII r'
      else inl r
  end.

Fixpoint rev (s : string) : string :=
  match s with
  | EmptyString => EmptyString
  | String c s' => rev s' ++ String c EmptyString
  end.

Definition TrimSpace `{Unicode} (s : string) : string :=
  match trimLeftASCII s with
  | inr rest => TrimFunc_IsSpace rest
  | inl rest =>
      match trimRightASCII (rev rest) with
      | inr r => TrimRightFunc_IsSpace (rev r)
      | inl r => rev r
      end
  end.

Definition lowerByte (c : ascii) : ascii :=
  let n := byte c in
  if ((65 <=? n) && (n <=? 90))%nat then ascii_of_nat (n + 32) else c.

Definition upperByte (c : ascii) : ascii :=
  let n := byte c in
  if ((97 <=? n) && (n <=? 122))%nat then ascii_of_nat (n - 32) else c.

Fixpoint mapBytes (f : ascii -> ascii) (s : string) : string :=
  match s with
  | EmptyString => EmptyString
  | String c s' => String (f c) (mapBytes f s')
  end.

Definition ToLower `{Unicode} (s : string) : string :=
  if isASCII s then mapBytes lowerByte s else Map_ToLower s.

(** U+FFFD in UTF-8, what [strings.Map] writes for a byte that is no
    valid encoding. *)
Definition RuneError : string :=
  String (ascii_of_nat 239) (String (ascii_of_nat 191) (String (ascii_of_nat 189) EmptyString)).

(** [strings.ToUpper] on a text of one byte. *)
Definition ToUpper1 (c : ascii) : string :=
  if nonASCII c then RuneError else String (upperByte c) EmptyString.

Fixpoint Join (elems : list string) (sep : string) : string :=
  match elems with
  | [] => EmptyString
  | [e] => e
  | e :: rest => e ++ sep ++ Join rest sep
  end.

End strings.

(** ** Package path/filepath, with the separator of Unix *)

Module filepath.

(** One step of [Clean] on the path element [e]: [out] holds the
    elements written so far, the last one first. An element [..] on
    top of [out] is one that could not be resolved. *)
Definition cleanStep (rooted : bool) (out : list string) (e : string) : list string :=
  if String.eqb e EmptyString || String.eqb e "." then out
  else if String.eqb e ".." then
    match out with
    | top :: below => if String.eqb top ".." then e :: out else below
    | [] => if rooted then [] else [e]
    end
  else e :: out.

Definition Clean (path : string) : string :=
  if String.eqb path EmptyString then "."
  else
    let rooted := String.prefix "/" path in
    let out := List.fold_left (cleanStep rooted) (strings.Split path "/") [] in
    let body := strings.Join (List.rev out) "/" in
    if rooted then "/" ++ body
    else if String.eqb body EmptyString then "." else body.

(** [filepath.Join] of two elements. *)
Definition Join (a b : string) : string :=
  if negb (String.eqb a EmptyString) then Clean (a ++ "/" ++ b)
  else if negb (String.eqb b EmptyString) then Clean b
  else EmptyString.

(** A path element with no separator in it. *)
Fixpoint noSlash (e : string) : bool :=
  match e with
  | EmptyString => true
  | String c e' => negb (Ascii.eqb c "/") && noSlash e'
  end.

(** A path element that [Clean] leaves as it is: not empty, not [.],
    not [..], and with no separator in it. *)
Definition plainElem (e : string) : bool :=
  negb (String.eqb e EmptyString) && negb (String.eqb e ".") &&
  negb (String.eqb e "..") && noSlash e.

(** The path of the elements [elems], from the root or not. *)
Definition ofElems (rooted : bool) (elems : list string) : string :=
  (if rooted then "/" else EmptyString) ++ strings.Join elems "/".

End filepath.

(** ** Package go/ast: the syntax tree the generator inspects

    The node types the generator tells apart are constructors of their
    own; every other expression, statement and spec of go/ast is an
    [Other...] node that keeps its children in the order [ast.Walk]
    visits them. An identifier is kept by its [Name], a comment group by
    the [Text] of its comments, a field list and a block statement by
    the list they hold, a function type by its parameters and results. *)

Module ast.

Inductive Token := IMPORT | CONST | TYPE | VAR.

Scheme All for list.
Scheme All for option.

Inductive Expr : Type :=
| Ident (Name : string)
| BasicLit (Value : string)
| SelectorExpr (X : Expr) (Sel : string)
| CallExpr (Fun : Expr) (Args : list Expr)
| IndexExpr (X : Expr) (Index : Expr)
| StarExpr (X : Expr)
| FuncLit (Params : list Field) (Results : option (list Field)) (Body : list Stmt)
| OtherExpr (children : list Node)
with Field : Type :=
| MkField (Names : list string) (Typ : Expr)
with Stmt : Type :=
| ReturnStmt (Results : list Expr)
| DeclStmt (D : Decl)
| OtherStmt (children : list Node)
with Decl : Type :=
| GenDecl (Doc : option (list string)) (Tok : Token) (Specs : list Spec)
| FuncDecl (Doc : option (list string)) (Recv : option (list Field)) (Name : string)
           (Params : list Field) (Results : option (list Field))
           (Body : option (list Stmt))
with Spec : Type :=
| ImportSpec (Path : string)
| ValueSpec (Names : list string) (Typ : option Expr) (Values : list Expr)
| OtherSpec (children : list Node)
with Node : Type :=
| NExpr (e : Expr)
| NField (f : Field)
| NStmt (s : Stmt)
| NDecl (d : Decl)
| NSpec (s : Spec).

Scheme Expr_mut := Induction for Expr Sort Prop
  with Field_mut := Induction for Field Sort Prop
  with Stmt_mut := Induction for Stmt Sort Prop
  with Decl_mut := Induction for Decl Sort Prop
  with Spec_mut := Induction for Spec Sort Prop
  with Node_mut := Induction for Node Sort Prop.

Combined Scheme ast_mutind from
  Expr_mut, Field_mut, Stmt_mut, Decl_mut, Spec_mut, Node_mut.

Record File := {
  FileDoc : option (list string);
  FileName : string;
  Decls : list Decl
}.

Definition Token_eqb (a b : Token) : bool :=
  match a, b with
  | IMPORT, IMPORT | CONST, CONST | TYPE, TYPE | VAR, VAR => true
  | _, _ => false
  end.

(** *** [ast.Inspect]

    [Inspect(node, f)] calls [f] on the node and, where [f] returns
    true, on the children of the node in the order of the fields,
    depth first. The state [S] stands for the variables the closure [f]
    has captured. After the children of a node [f] is called once more,
    with nil; the closure of this package tests for a [GenDecl] first
    and does nothing then, so that call is left out. *)
Section Inspect.
Context {S : Type} (f : Node -> S -> bool * S).

Definition walkList {A : Type} (walk : A -> S -> S) (l : list A) (st : S) : S :=
  List.fold_left (fun st a => walk a st) l st.

Definition walkOpt {A : Type} (walk : A -> S -> S) (o : option A) (st : S) : S :=
  match o with Some a => walk a st | None => st end.

Fixpoint WalkExpr (e : Expr) (st : S) {struct e} : S :=
  let '(descend, st) := f (NExpr e) st in
  if descend then
    match e with
    | Ident _ | BasicLit _ => st
    | SelectorExpr X _ => WalkExpr X st
    | CallExpr Fun Args => walkList WalkExpr Args (WalkExpr Fun st)
    | IndexExpr X Index => WalkExpr Index (WalkExpr X st)
    | StarExpr X => WalkExpr X st
    | FuncLit Params Results Body =>
        walkList WalkStmt Body
          (walkOpt (walkList WalkField) Results (walkList WalkField Params st))
    | OtherExpr children => walkList WalkNode children st
    end
  else st
with WalkField (fd : Field) (st : S) {struct fd} : S :=
  let '(descend, st) := f (NField fd) st in
  if descend then
    match fd with MkField _ Typ => WalkExpr Typ st end
  else st
with WalkStmt (s : Stmt) (st : S) {struct s} : S :=
  let '(descend, st) := f (NStmt s) st in
  if descend then
    match s with
    | ReturnStmt Results => walkList WalkExpr Results st
    | DeclStmt D => WalkDecl D st
    | OtherStmt children => walkList WalkNode children st
    end
  else st
with WalkDecl (d : Decl) (st : S) {struct d} : S :=
  let '(descend, st) := f (NDecl d) st in
  if descend then
    match d with
    | GenDecl _ _ Specs => walkList WalkSpec Specs st
    | FuncDecl _ Recv _ Params Results Body =>
        walkOpt (walkList WalkStmt) Body
          (walkOpt (walkList WalkField) Results
             (walkList WalkField Params
                (walkOpt (walkList WalkField) Recv st)))
    end
  else st
with WalkSpec (s : Spec) (st : S) {struct s} : S :=
  let '(descend, st) := f (NSpec s) st in
  if descend then
    match s with
    | ImportSpec _ => st
    | ValueSpec _ Typ Values => walkList WalkExpr Values (walkOpt WalkExpr Typ st)
    | OtherSpec children => walkList WalkNode children st
    end
  else st
with WalkNode (n : Node) (st : S) {struct n} : S :=
  match n with
  | NExpr e => WalkExpr e st
  | NField fd => WalkField fd st
  | NStmt s => WalkStmt s st
  | NDecl d => WalkDecl d st
  | NSpec s => WalkSpec s st
  end.

(** [ast.Inspect] on a file. The file node, its name, the identifiers
    and the comment groups are no [GenDecl]: a visit of one of them is
    a call of [f] that the closures of this package answer with true
    and no effect; the walk below starts at the declarations. *)
Definition InspectFile (file : File) (st : S) : S :=
  walkList WalkDecl (Decls file) st.
End Inspect.

End ast.

Import ast.

(** ** Package generator: the schema model *)

(** ValidatorCall represents a validator method call with its arguments *)
Record ValidatorCall := {
  Method : string;
  Args : list string
}.

(** ValidationField represents a field in a validation schema *)
Record ValidationField := {
  Name : string;
  Type_ : string;
  Validators : list ValidatorCall
}.

(** ValidationSchema represents a validation schema *)
Record ValidationSchema := {
  TypeName : string;
  Fields : list ValidationField
}.

(** Config holds the configuration for code generation *)
Record Config := {
  InputFile : string;
  OutputDir : string;
  Package : string;
  Verbose : bool
}.

(** ** Extraction *)

(** The loop over [call.Args] in [extractValidators]: a basic literal
    gives its [Value], an identifier its [Name], every other argument
    nothing. *)
Fixpoint extractArgs (args : list Expr) : list string :=
  match args with
  | [] => []
  | BasicLit Value :: rest => Value :: extractArgs rest
  | Ident Name :: rest => Name :: extractArgs rest
  | _ :: rest => extractArgs rest
  end.

(** The test that leaves out a type constructor: [String] or [Int],
    called with no argument on the identifier [validate]. *)
Definition isTypeConstructor (methodName : string) (args : list Expr) (X : Expr) : bool :=
  (String.eqb methodName "String" || String.eqb methodName "Int") &&
  (length args =? 0)%nat &&
  match X with
  | Ident name => String.eqb name "validate"
  | _ => false
  end.

(** The loop of [extractValidators]; [validators] is the slice built so
    far, each call put in front of it. *)
Fixpoint extractValidators_loop (current : Expr) (validators : list ValidatorCall)
  : list ValidatorCall :=
  match current with
  | CallExpr (SelectorExpr X methodName) args =>
      if isTypeConstructor methodName args X
      then extractValidators_loop X validators
      else
        let validatorCall := {| Method := methodName; Args := extractArgs args |} in
        extractValidators_loop X (validatorCall :: validators)
  | _ => validators
  end.

(** extractValidators extracts validators from a validator chain *)
Definition extractValidators (expr : Expr) : list ValidatorCall :=
  extractValidators_loop expr [].

(** inferFieldType infers the field type from the function results *)
Definition inferFieldType (results : option (list Field)) : string :=
  match results with
  | Some (MkField _ (Ident name) :: _) => name
  | _ => "interface{}"
  end.

(** The body of [extractFieldValidation], which reads [call.Args] only. *)
Definition fieldFromArgs (args : list Expr) : option ValidationField :=
  match args with
  | [arg0; arg1] =>
      match arg0 with
      | FuncLit _ results (ReturnStmt (SelectorExpr _ sel :: _) :: _) =>
          Some {| Name := sel;
                  Type_ := inferFieldType results;
                  Validators := extractValidators arg1 |}
      | _ => None
      end
  | _ => None
  end.

(** extractFieldValidation extracts field validation from a Field() call *)
Definition extractFieldValidation (call : Expr) : option ValidationField :=
  match call with
  | CallExpr _ args => fieldFromArgs args
  | _ => None
  end.

(** findRootCall finds the root validate.Struct call in a chain *)
Fixpoint findRootCall (call : Expr) : Expr :=
  match call with
  | CallExpr (SelectorExpr (CallExpr _ _ as callExpr) _) _ => findRootCall callExpr
  | _ => call
  end.

(** The type argument of the root call: [validate.Struct[T](...)]. *)
Definition rootTypeName (rootCall : Expr) : option string :=
  match rootCall with
  | CallExpr (IndexExpr (SelectorExpr (Ident pkg) sel) (Ident typeIdent)) _ =>
      if String.eqb pkg "validate" && String.eqb sel "Struct"
      then Some typeIdent else None
  | _ => None
  end.

(** The loop that collects the [Field] calls, from the outermost call
    inwards; a field is put in front of [fields]. *)
Fixpoint collectFields (current : Expr) (fields : list ValidationField)
  : list ValidationField :=
  match current with
  | CallExpr (SelectorExpr X sel) _ =>
      let fields :=
        if String.eqb sel "Field" then
          match extractFieldValidation current with
          | Some field => field :: fields
          | None => fields
          end
        else fields in
      match X with
      | CallExpr _ _ => collectFields X fields
      | _ => fields
      end
  | _ => fields
  end.

(** extractValidationSchema extracts validation schema from an AST expression *)
Definition extractValidationSchema (expr : Expr) : option ValidationSchema :=
  match expr with
  | CallExpr _ _ =>
      match rootTypeName (findRootCall expr) with
      | Some typeName => Some {| TypeName := typeName; Fields := collectFields expr [] |}
      | None => None
      end
  | _ => None
  end.

(** ** The scan of a file *)

Section Scan.
Context `{strings.Unicode}.

(** The words a doc comment names the type with. *)
Definition docMarker : string := "validation schema for".

(** The type name from the first comment of the doc comment group. *)
Definition typeNameFromDoc (Doc : option (list string)) (typeName : string) : string :=
  match Doc with
  | Some (text :: _) =>
      if strings.Contains text docMarker then
        match strings.Split text docMarker with
        | _ :: part1 :: _ => strings.TrimSpace part1
        | _ => typeName
        end
      else typeName
  | _ => typeName
  end.

(** The type name from the name of the variable. *)
Definition typeNameFromVar (varName : string) : string :=
  if strings.HasSuffix varName "Schema"
  then strings.TrimSuffix varName "Schema"
  else varName.

(** What the closure does with the schema extracted from
    [valueSpec.Values[i]] before it appends it. *)
Definition resolveTypeName (Doc : option (list string)) (Names : list string)
    (i : nat) (schema : ValidationSchema) : ValidationSchema :=
  if String.eqb (TypeName schema) EmptyString && (i <? length Names)%nat then
    let typeName := typeNameFromDoc Doc (TypeName schema) in
    let typeName :=
      if String.eqb typeName EmptyString
      then typeNameFromVar (nth i Names EmptyString)
      else typeName in
    {| TypeName := typeName; Fields := Fields schema |}
  else schema.

(** [for i, value := range valueSpec.Values], from index [i] on. *)
Fixpoint scanValues (Doc : option (list string)) (Names : list string)
    (i : nat) (values : list Expr) (schemas : list ValidationSchema)
  : list ValidationSchema :=
  match values with
  | [] => schemas
  | value :: rest =>
      let schemas :=
        match extractValidationSchema value with
        | Some schema => (schemas ++ [resolveTypeName Doc Names i schema])%list
        | None => schemas
        end in
      scanValues Doc Names (S i) rest schemas
  end.

(** [for _, spec := range genDecl.Specs] *)
Fixpoint scanSpecs (Doc : option (list string)) (specs : list Spec)
    (schemas : list ValidationSchema) : list ValidationSchema :=
  match specs with
  | [] => schemas
  | ValueSpec Names _ Values :: rest =>
      scanSpecs Doc rest (scanValues Doc Names 0 Values schemas)
  | _ :: rest => scanSpecs Doc rest schemas
  end.

(** The closure passed to [ast.Inspect]; it captures [schemas]. *)
Definition visit (n : Node) (schemas : list ValidationSchema)
  : bool * list ValidationSchema :=
  match n with
  | NDecl (GenDecl Doc VAR Specs) => (true, scanSpecs Doc Specs schemas)
  | _ => (true, schemas)
  end.

(** findValidationSchemas looks for validation schema definitions in the AST *)
Definition findValidationSchemas (f : File) : list ValidationSchema :=
  InspectFile visit f [].

End Scan.

(** ** Emission *)

Definition nl : string := String (ascii_of_nat 10) EmptyString.
Definition tab : string := String (ascii_of_nat 9) EmptyString.
Definition dquote : string := String (ascii_of_nat 34) EmptyString.

(** The template function [capitalizeFirst]. *)
Definition capitalizeFirst (s : string) : string :=
  match s with
  | EmptyString => s
  | String c rest => strings.ToUpper1 c ++ rest
  end.

(** [.{{ .Method }}({{ range $i, $arg := .Args }}{{ if $i }}, {{ end }}{{ $arg }}{{ end }})] *)
Definition renderValidator (v : ValidatorCall) : string :=
  "." ++ Method v ++ "(" ++ strings.Join (Args v) ", " ++ ")".

Definition concatMap {A : Type} (f : A -> string) (l : list A) : string :=
  List.fold_right (fun a acc => f a ++ acc) EmptyString l.

(** The body of [{{- range .Schema.Fields }}]. *)
Definition renderField (typeName : string) (fld : ValidationField) : string :=
  "." ++ nl ++ tab ++ "Field(func(v " ++ typeName ++ ") " ++ Type_ fld ++
  " { return v." ++ Name fld ++ " }, validate." ++ capitalizeFirst (Type_ fld) ++ "()" ++
  concatMap renderValidator (Validators fld) ++ ")".

(** The text the template of [generateValidator] renders. *)
Definition render (package : string) (schema : ValidationSchema) : string :=
  let T := TypeName schema in
  "// Code generated by tibeb. DO NOT EDIT." ++ nl ++
  "package " ++ package ++ nl ++
  nl ++
  "import (" ++ nl ++
  tab ++ dquote ++ "github.com/bm-197/tibeb/pkg/validate" ++ dquote ++ nl ++
  ")" ++ nl ++
  nl ++
  "// Validate" ++ T ++ " validates the " ++ T ++ " struct" ++ nl ++
  "func Validate" ++ T ++ "(v " ++ T ++ ") *validate.Errors {" ++ nl ++
  tab ++ "return " ++ T ++ "Schema.Validate(v)" ++ nl ++
  "}" ++ nl ++
  nl ++
  "// " ++ T ++ "Schema is the validation schema for " ++ T ++ nl ++
  "var " ++ T ++ "Schema = validate.Struct[" ++ T ++ "]()" ++
  concatMap (renderField T) (Fields schema) ++ nl.

(** ** Errors *)

(** A Go [error] that is not nil: [errorString] is an error with a text
    of its own, [wrapError] what [fmt.Errorf] builds for the verb [%w]. *)
Inductive error : Type :=
| errorString (msg : string)
| wrapError (msg : string) (err : error).

Definition Error (e : error) : string :=
  match e with
  | errorString msg => msg
  | wrapError msg _ => msg
  end.

(** [fmt.Errorf(prefix + "%w", err)] *)
Definition Errorf_w (prefix : string) (err : error) : error :=
  wrapError (prefix ++ Error err) err.

Fixpoint Unwrap_all (e : error) : error :=
  match e with
  | errorString _ => e
  | wrapError _ err => Unwrap_all err
  end.

(** ** The world outside the generator

    The file system is a state: the content of each file by its path and
    the directories made. Which calls of the operating system fail is the
    choice of the environment, so it is part of the world too: a path in
    [mkdirErr] or [createErr] is one the call fails at, with the text of
    the error; a path in [writeErr] is a file that takes only so many
    bytes before the write fails. [parsed] gives the syntax tree of each
    source file that can be read and parsed. What is printed is kept in
    [stdout]. *)

Inductive Output : Type :=
| Printed (text : string)
| AstDump (f : File).

Record World := {
  parsed : gmap string File;
  files : gmap string string;
  dirs : gset string;
  mkdirErr : gmap string string;
  createErr : gmap string string;
  writeErr : gmap string (nat * string);
  stdout : list Output
}.

Definition setFiles (w : World) (fs : gmap string string) : World :=
  {| parsed := parsed w; files := fs; dirs := dirs w; mkdirErr := mkdirErr w;
     createErr := createErr w; writeErr := writeErr w; stdout := stdout w |}.

Definition setDirs (w : World) (ds : gset string) : World :=
  {| parsed := parsed w; files := files w; dirs := ds; mkdirErr := mkdirErr w;
     createErr := createErr w; writeErr := writeErr w; stdout := stdout w |}.

Definition addStdout (w : World) (out : list Output) : World :=
  {| parsed := parsed w; files := files w; dirs := dirs w; mkdirErr := mkdirErr w;
     createErr := createErr w; writeErr := writeErr w; stdout := (stdout w ++ out)%list |}.

(** A call that works on the world and returns a value or an error. *)
Definition IO (A : Type) : Type := World -> (error + A) * World.

Definition ret {A : Type} (a : A) : IO A := fun w => (inr a, w).

Definition fail {A : Type} (e : error) : IO A := fun w => (inl e, w).

Definition bind {A B : Type} (m : IO A) (k : A -> IO B) : IO B :=
  fun w =>
    match m w with
    | (inl e, w') => (inl e, w')
    | (inr a, w') => k a w'
    end.

(** [if err := m; err != nil { return fmt.Errorf(prefix + "%w", err) }] *)
Definition wrap {A : Type} (prefix : string) (m : IO A) : IO A :=
  fun w =>
    match m w with
    | (inl e, w') => (inl (Errorf_w prefix e), w')
    | r => r
    end.

#[global] Instance IO_ret : MRet IO := @ret.
#[global] Instance IO_bind : MBind IO := fun A B k m => bind m k.

Module os.

(** [os.MkdirAll(path, 0755)]: no error where the directory is there
    already; the empty path is no directory. *)
Definition MkdirAll (path : string) : IO unit := fun w =>
  if String.eqb path EmptyString
  then (inl (errorString "mkdir : no such file or directory"), w)
  else
    match mkdirErr w !! path with
    | Some msg => (inl (errorString ("mkdir " ++ path ++ ": " ++ msg)), w)
    | None => (inr tt, setDirs w ({[ path ]} ∪ dirs w))
    end.

(** [os.Create(name)]: the file is made, or cut to no content where it
    is there. *)
Definition Create (name : string) : IO unit := fun w =>
  match createErr w !! name with
  | Some msg => (inl (errorString ("open " ++ name ++ ": " ++ msg)), w)
  | None => (inr tt, setFiles w (<[ name := EmptyString ]> (files w)))
  end.

(** Writing [text] to the file made by [Create]. *)
Definition WriteAll (name : string) (text : string) : IO unit := fun w =>
  match writeErr w !! name with
  | Some (n, msg) =>
      (inl (errorString ("write " ++ name ++ ": " ++ msg)),
       setFiles w (<[ name := substring 0 n text ]> (files w)))
  | None => (inr tt, setFiles w (<[ name := text ]> (files w)))
  end.

End os.

Module parser.

(** [parser.ParseFile(fset, filename, nil, parser.ParseComments)] *)
Definition ParseFile (filename : string) : IO File := fun w =>
  match parsed w !! filename with
  | Some f => (inr f, w)
  | None => (inl (errorString ("parse " ++ filename)), w)
  end.

End parser.

(** [fmt.Printf] and [ast.Print] *)
Definition printOut (out : list Output) : IO unit := fun w => (inr tt, addStdout w out).

(** [if config.Verbose { fmt.Printf("Parsed file: %s\n", ...); ast.Print(fset, f) }] *)
Definition announce (config : Config) (f : File) : IO unit :=
  if Verbose config
  then printOut [Printed ("Parsed file: " ++ InputFile config ++ nl); AstDump f]
  else ret tt.

Section Generate.
Context `{strings.Unicode}.

(** The path of the output file of a schema. *)
Definition outFile (config : Config) (schema : ValidationSchema) : string :=
  filepath.Join (OutputDir config)
    (strings.ToLower (TypeName schema) ++ "_validator.go").

(** generateValidator generates the validator code for a schema. The
    template is a constant of the source that parses, so
    [template.Parse] gives no error; [tmpl.Execute] fails where the
    write to the file fails. *)
Definition generateValidator (config : Config) (schema : ValidationSchema) : IO unit :=
  wrap "creating output directory: " (os.MkdirAll (OutputDir config)) ;;
  wrap "creating output file: " (os.Create (outFile config schema)) ;;
  wrap "executing template: "
    (os.WriteAll (outFile config schema) (render (Package config) schema)).

(** [for _, schema := range schemas] in [Generate]. *)
Fixpoint generateAll (config : Config) (schemas : list ValidationSchema) : IO unit :=
  match schemas with
  | [] => ret tt
  | schema :: rest =>
      wrap ("generating validator for " ++ TypeName schema ++ ": ")
        (generateValidator config schema) ;;
      generateAll config rest
  end.

(** Generate generates validation code from the input file *)
Definition Generate (config : Config) : IO unit :=
  f ← wrap "parsing input file: " (parser.ParseFile (InputFile config)) ;
  announce config f ;;
  let schemas := findValidationSchemas f in
  if (length schemas =? 0)%nat
  then fail (errorString ("no validation schemas found in " ++ InputFile config))
  else generateAll config schemas.

End Generate.

(** ** Source shapes

    The shapes of source text the properties speak of, as syntax trees. *)

(** A chain of method calls read from left to right:
    [base.m1(args1).m2(args2)...]; a link is a method name with the
    arguments of its call. *)
Definition Link : Type := string * list Expr.

Definition callOn (x : Expr) (l : Link) : Expr :=
  CallExpr (SelectorExpr x (fst l)) (snd l).

Definition chainOn (base : Expr) (links : list Link) : Expr :=
  List.fold_left callOn links base.

(** A node of the shape call(selector(...)). *)
Definition isCallOnSelector (e : Expr) : bool :=
  match e with
  | CallExpr (SelectorExpr _ _) _ => true
  | _ => false
  end.

(** The token an argument is recorded by: a basic literal by its text, an
    identifier by its name, no other expression at all. *)
Definition argToken (arg : Expr) : option string :=
  match arg with
  | BasicLit Value => Some Value
  | Ident Name => Some Name
  | _ => None
  end.

(** The entry a link of a validator chain is recorded as. *)
Definition toCall (l : Link) : ValidatorCall :=
  {| Method := fst l; Args := omap argToken (snd l) |}.

(** The links of a validator chain that are recorded: all but a leading
    type constructor. *)
Definition recorded (base : Expr) (links : list Link) : list Link :=
  match links with
  | l :: rest => if isTypeConstructor (fst l) (snd l) base then rest else links
  | [] => []
  end.

(** The root builder call [validate.Struct[T](args)]. *)
Definition structRoot (T : string) (args : list Expr) : Expr :=
  CallExpr (IndexExpr (SelectorExpr (Ident "validate") "Struct") (Ident T)) args.

Definition fieldLink (args : list Expr) : Link := ("Field", args).

(** The selector literal [func(param paramType) fieldType { return param.name }]. *)
Definition projection (param paramType : string) (fieldType : Expr) (name : string) : Expr :=
  FuncLit [MkField [param] (Ident paramType)] (Some [MkField [] fieldType])
    [ReturnStmt [SelectorExpr (Ident param) name]].

(** A field declaration as the chain grammar has it: the selector
    literal and the validator expression. *)
Record FieldDecl := {
  fdParam : string;
  fdParamType : string;
  fdType : string;
  fdName : string;
  fdValidator : Expr
}.

Definition fieldDeclArgs (d : FieldDecl) : list Expr :=
  [projection (fdParam d) (fdParamType d) (Ident (fdType d)) (fdName d); fdValidator d].

Definition fieldOfDecl (d : FieldDecl) : ValidationField :=
  {| Name := fdName d; Type_ := fdType d; Validators := extractValidators (fdValidator d) |}.

(** The first argument the field extractor takes: a function literal
    whose first statement is a return whose first result is a selector
    expression. *)
Definition startsWithReturnOfSelector (arg0 : Expr) : bool :=
  match arg0 with
  | FuncLit _ _ (ReturnStmt (SelectorExpr _ _ :: _) :: _) => true
  | _ => false
  end.

(** A function literal of one parameter whose body is exactly one return
    statement with the one result [param.Field]. *)
Definition isSingleReturnProjection (arg0 : Expr) : bool :=
  match arg0 with
  | FuncLit [MkField [param] _] _ [ReturnStmt [SelectorExpr (Ident x) _]] =>
      String.eqb param x
  | _ => false
  end.

(** What the field collection makes of one link of the chain. *)
Definition fieldOfLink (l : Link) : option ValidationField :=
  if String.eqb (fst l) "Field" then fieldFromArgs (snd l) else None.

(** The selector literal
    [func(u User) (string, error) { return u.Name, nil; return u.Email, nil }]:
    two results and two statements. *)
Definition notSingleReturn : Expr :=
  FuncLit [MkField ["u"] (Ident "User")]
    (Some [MkField [] (Ident "string"); MkField [] (Ident "error")])
    [ReturnStmt [SelectorExpr (Ident "u") "Name"; Ident "nil"];
     ReturnStmt [SelectorExpr (Ident "u") "Email"; Ident "nil"]].

(** ** The precedence of type names *)

(** A name that is there: Go has the empty string for one that is not. *)
Definition present (s : string) : option string :=
  if String.eqb s EmptyString then None else Some s.

Section Precedence.
Context `{strings.Unicode}.

(** The name a doc comment gives: the first comment of the group holds
    the words [validation schema for], and the text after them, up to
    their next occurrence, trimmed of space, is the name. *)
Definition docTypeName (Doc : option (list string)) : option string :=
  match Doc with
  | Some (text :: _) =>
      if strings.Contains text docMarker then
        match strings.Split text docMarker with
        | _ :: part1 :: _ => present (strings.TrimSpace part1)
        | _ => None
        end
      else None
  | _ => None
  end.

(** The order of precedence: the type parameter, the doc comment, the
    name of the variable without a trailing [Schema], the name of the
    variable. *)
Definition typeNameByPrecedence (typeParam docName : option string)
    (varName : string) : string :=
  match typeParam with
  | Some T => T
  | None =>
      match docName with
      | Some n => n
      | None =>
          if strings.HasSuffix varName "Schema"
          then strings.TrimSuffix varName "Schema"
          else varName
      end
  end.
End Precedence.

(** Tables for text of ASCII bytes, which never reaches the slow paths:
    other text is left as it is. *)
Definition asciiTables : strings.Unicode :=
  {| strings.Map_ToLower := fun s => s;
     strings.TrimFunc_IsSpace := fun s => s;
     strings.TrimRightFunc_IsSpace := fun s => s |}.

(** ** The variable declarations of a file

    The [var] declarations of a syntax tree, at any depth, in the order
    of the source text: a declaration comes before the declarations
    nested in its own initializers, and the children of a node come in
    the order of its fields. *)

Definition optList {A B : Type} (f : A -> list B) (o : option A) : list B :=
  match o with Some a => f a | None => [] end.

Fixpoint varDeclsExpr (e : Expr) : list Decl :=
  match e with
  | Ident _ | BasicLit _ => []
  | SelectorExpr X _ => varDeclsExpr X
  | CallExpr Fun Args => varDeclsExpr Fun ++ flat_map varDeclsExpr Args
  | IndexExpr X Index => varDeclsExpr X ++ varDeclsExpr Index
  | StarExpr X => varDeclsExpr X
  | FuncLit Params Results Body =>
      flat_map varDeclsField Params ++
      optList (flat_map varDeclsField) Results ++
      flat_map varDeclsStmt Body
  | OtherExpr children => flat_map varDeclsNode children
  end%list
with varDeclsField (fd : Field) : list Decl :=
  match fd with MkField _ Typ => varDeclsExpr Typ end
with varDeclsStmt (s : Stmt) : list Decl :=
  match s with
  | ReturnStmt Results => flat_map varDeclsExpr Results
  | DeclStmt D => varDeclsDecl D
  | OtherStmt children => flat_map varDeclsNode children
  end
with varDeclsDecl (d : Decl) : list Decl :=
  match d with
  | GenDecl _ Tok Specs =>
      (if Token_eqb Tok VAR then [d] else []) ++ flat_map varDeclsSpec Specs
  | FuncDecl _ Recv _ Params Results Body =>
      optList (flat_map varDeclsField) Recv ++
      flat_map varDeclsField Params ++
      optList (flat_map varDeclsField) Results ++
      optList (flat_map varDeclsStmt) Body
  end%list
with varDeclsSpec (s : Spec) : list Decl :=
  match s with
  | ImportSpec _ => []
  | ValueSpec _ Typ Values => optList varDeclsExpr Typ ++ flat_map varDeclsExpr Values
  | OtherSpec children => flat_map varDeclsNode children
  end%list
with varDeclsNode (n : Node) : list Decl :=
  match n with
  | NExpr e => varDeclsExpr e
  | NField fd => varDeclsField fd
  | NStmt s => varDeclsStmt s
  | NDecl d => varDeclsDecl d
  | NSpec s => varDeclsSpec s
  end.

Definition varDecls (f : File) : list Decl := flat_map varDeclsDecl (Decls f).

(** The [var] declarations at the top level of a file. *)
Definition topLevelVarDecls (f : File) : list Decl :=
  List.filter (fun d => match d with GenDecl _ VAR _ => true | _ => false end) (Decls f).

Section SchemasOf.
Context `{strings.Unicode}.

(** The schemas of the initializers [values] of one spec, the first of
    them at index [i]. *)
Fixpoint schemasOfValues (Doc : option (list string)) (Names : list string)
    (i : nat) (values : list Expr) : list ValidationSchema :=
  match values with
  | [] => []
  | value :: rest =>
      match extractValidationSchema value with
      | Some schema => resolveTypeName Doc Names i schema :: schemasOfValues Doc Names (S i) rest
      | None => schemasOfValues Doc Names (S i) rest
      end
  end.

Definition schemasOfSpec (Doc : option (list string)) (spec : Spec) : list ValidationSchema :=
  match spec with
  | ValueSpec Names _ Values => schemasOfValues Doc Names 0 Values
  | _ => []
  end.

(** The schemas of one [var] declaration, in the order of its specs and
    of their initializers. *)
Definition schemasOfDecl (d : Decl) : list ValidationSchema :=
  match d with
  | GenDecl Doc VAR Specs => flat_map (schemasOfSpec Doc) Specs
  | _ => []
  end.

End SchemasOf.

(** The initializers of a [var] declaration. *)
Definition initializers (d : Decl) : list Expr :=
  match d with
  | GenDecl _ VAR Specs =>
      flat_map (fun spec => match spec with ValueSpec _ _ Values => Values | _ => [] end) Specs
  | _ => []
  end.

(** A file whose one function holds the declaration
    [var s = validate.Struct[User]()] in its body. *)
Definition nestedVarFile : File :=
  {| FileDoc := None;
     FileName := "models";
     Decls :=
       [FuncDecl None None "build" [] None
          (Some [DeclStmt (GenDecl None VAR [ValueSpec ["s"] None [structRoot "User" []]])])] |}.

(** ** Sample inputs *)

(** The declaration [var name = validate.Struct[T]().Field(...)...] with
    the doc comment [doc]. *)
Definition schemaDecl (doc : option (list string)) (name T : string)
    (decls : list FieldDecl) : Decl :=
  GenDecl doc VAR
    [ValueSpec [name] None
       [chainOn (structRoot T []) (map (fun d => fieldLink (fieldDeclArgs d)) decls)]].

Definition sourceFile (decls : list Decl) : File :=
  {| FileDoc := None; FileName := "models"; Decls := decls |}.

(** A world with the one source file [models/schema.go] and no fault. *)
Definition worldOf (f : File) : World :=
  {| parsed := {[ "models/schema.go" := f ]};
     files := ∅; dirs := ∅;
     mkdirErr := ∅; createErr := ∅; writeErr := ∅;
     stdout := [] |}.

Definition sampleConfig : Config :=
  {| InputFile := "models/schema.go"; OutputDir := "gen";
     Package := "models"; Verbose := false |}.

(** [validate.String().MinLen(3)] *)
Definition minLen3 : Expr :=
  chainOn (Ident "validate") [("String", []); ("MinLen", [BasicLit "3"])].

Definition nameField : FieldDecl :=
  {| fdParam := "u"; fdParamType := "User"; fdType := "string";
     fdName := "Name"; fdValidator := minLen3 |}.

(** A file of three schemas. *)
Definition threeSchemas : File :=
  sourceFile
    [schemaDecl None "UserSchema" "User" [nameField];
     schemaDecl None "OrderSchema" "Order" [];
     schemaDecl None "ItemSchema" "Item" []].

(** The same world, where the file [gen/order_validator.go] cannot be made. *)
Definition orderFails : World :=
  {| parsed := {[ "models/schema.go" := threeSchemas ]};
     files := ∅; dirs := ∅;
     mkdirErr := ∅;
     createErr := {[ "gen/order_validator.go" := "permission denied" ]};
     writeErr := ∅;
     stdout := [] |}.

(** A file with the one declaration [var limit = 10]. *)
Definition noSchemaFile : File :=
  sourceFile [GenDecl None VAR [ValueSpec ["limit"] None [BasicLit "10"]]].

(** A world where [gen/invoice_validator.go] is there already. *)
Definition invoiceWorld : World :=
  {| parsed := ∅;
     files := {[ "gen/invoice_validator.go" := "old text" ]};
     dirs := {[ "gen" ]};
     mkdirErr := ∅; createErr := ∅; writeErr := ∅;
     stdout := [] |}.

Definition invoiceSchema : ValidationSchema :=
  {| TypeName := "Invoice"; Fields := [] |}.

(** The world after the emission of the first of the three schemas. *)
Definition afterUser : World :=
  snd (@generateAll asciiTables sampleConfig
         [ {| TypeName := "User"; Fields := [fieldOfDecl nameField] |} ]
         (snd (announce sampleConfig threeSchemas orderFails))).

(** ** The emitted source as a syntax tree

    The tree the text of [render] is written from, for the texts that
    are Go source: [printFile] below is the concrete syntax of such a
    tree, and the text of [render] is shown to be the one [printFile]
    gives. The parser of Go is not part of this: that the parser reads
    the text back as this tree is seen on the text, where the names in
    it are identifiers. *)

(** A byte an identifier starts with: a letter, the underscore, or the
    first byte of a letter outside ASCII. *)
Definition startsIdent (tok : string) : bool :=
  match tok with
  | EmptyString => false
  | String c _ =>
      let n := strings.byte c in
      ((65 <=? n) && (n <=? 90) || (97 <=? n) && (n <=? 122) || (n =? 95) || (128 <=? n))%nat
  end.

(** The expression a recorded argument token is read as. *)
Definition argExpr (tok : string) : Expr :=
  if startsIdent tok then Ident tok else BasicLit tok.

(** The type [interface{}] is no identifier. *)
Definition typeExpr (ty : string) : Expr :=
  if String.eqb ty "interface{}" then OtherExpr [] else Ident ty.

(** [validate.{{ capitalizeFirst .Type }}(){{ range .Validators }}.{{ .Method }}(...){{ end }}] *)
Definition emittedValidator (ty : string) (vs : list ValidatorCall) : Expr :=
  chainOn (Ident "validate")
    ((capitalizeFirst ty, []) :: map (fun v => (Method v, map argExpr (Args v))) vs).

(** The arguments of an emitted [Field] call. *)
Definition emittedFieldArgs (T : string) (fld : ValidationField) : list Expr :=
  [projection "v" T (typeExpr (Type_ fld)) (Name fld);
   emittedValidator (Type_ fld) (Validators fld)].

Definition emittedChain (schema : ValidationSchema) : Expr :=
  chainOn (structRoot (TypeName schema) [])
    (map (fun fld => fieldLink (emittedFieldArgs (TypeName schema) fld)) (Fields schema)).

Definition emittedFile (package : string) (schema : ValidationSchema) : File :=
  let T := TypeName schema in
  {| FileDoc := Some ["// Code generated by tibeb. DO NOT EDIT."];
     FileName := package;
     Decls :=
       [GenDecl None IMPORT
          [ImportSpec (dquote ++ "github.com/bm-197/tibeb/pkg/validate" ++ dquote)];
        FuncDecl (Some ["// Validate" ++ T ++ " validates the " ++ T ++ " struct"])
          None ("Validate" ++ T)
          [MkField ["v"] (Ident T)]
          (Some [MkField [] (StarExpr (SelectorExpr (Ident "validate") "Errors"))])
          (Some [ReturnStmt
                   [CallExpr (SelectorExpr (Ident (T ++ "Schema")) "Validate") [Ident "v"]]]);
        GenDecl (Some ["// " ++ T ++ "Schema is the validation schema for " ++ T])
          VAR [ValueSpec [T ++ "Schema"] None [emittedChain schema]]] |}.

(** *** Concrete syntax

    The printer covers the part of Go the template writes; outside of it
    it gives [None]. *)

Definition printList {A : Type} (print : A -> option string) (sep : string)
    (l : list A) : option string :=
  texts ← mapM print l; Some (strings.Join texts sep).

Fixpoint printExpr (e : Expr) : option string :=
  match e with
  | Ident Name => Some Name
  | BasicLit Value => Some Value
  | SelectorExpr X Sel => x ← printExpr X; Some (x ++ "." ++ Sel)
  | CallExpr Fun Args =>
      f ← printExpr Fun; args ← printList printExpr ", " Args;
      Some (f ++ "(" ++ args ++ ")")
  | IndexExpr X Index =>
      x ← printExpr X; i ← printExpr Index; Some (x ++ "[" ++ i ++ "]")
  | StarExpr X => x ← printExpr X; Some ("*" ++ x)
  | FuncLit Params (Some [MkField [] result]) Body =>
      params ← printList printField ", " Params;
      r ← printExpr result;
      body ← printList printStmt "; " Body;
      Some ("func(" ++ params ++ ") " ++ r ++ " { " ++ body ++ " }")
  | _ => None
  end
with printField (fd : Field) : option string :=
  match fd with
  | MkField [] Typ => printExpr Typ
  | MkField Names Typ => t ← printExpr Typ; Some (strings.Join Names ", " ++ " " ++ t)
  end
with printStmt (s : Stmt) : option string :=
  match s with
  | ReturnStmt Results => r ← printList printExpr ", " Results; Some ("return " ++ r)
  | _ => None
  end.

(** An initializer, with every call of its chain on a line of its own. *)
Fixpoint printInit (e : Expr) : option string :=
  match e with
  | CallExpr (SelectorExpr (CallExpr _ _ as X) Sel) Args =>
      x ← printInit X; args ← printList printExpr ", " Args;
      Some (x ++ "." ++ nl ++ tab ++ Sel ++ "(" ++ args ++ ")")
  | _ => printExpr e
  end.

Definition printDoc (Doc : option (list string)) : string :=
  concatMap (fun text => text ++ nl) (default [] Doc).

Definition printSpec (s : Spec) : option string :=
  match s with
  | ImportSpec Path => Some Path
  | ValueSpec Names None Values =>
      values ← printList printInit ", " Values;
      Some (strings.Join Names ", " ++ " = " ++ values)
  | _ => None
  end.

Definition printDecl (d : Decl) : option string :=
  match d with
  | GenDecl Doc IMPORT Specs =>
      specs ← mapM printSpec Specs;
      Some (printDoc Doc ++ "import (" ++ nl ++
            concatMap (fun s => tab ++ s ++ nl) specs ++ ")" ++ nl)
  | GenDecl Doc VAR [spec] =>
      s ← printSpec spec; Some (printDoc Doc ++ "var " ++ s ++ nl)
  | FuncDecl Doc None Name Params (Some [MkField [] result]) (Some Body) =>
      params ← printList printField ", " Params;
      r ← printExpr result;
      body ← mapM printStmt Body;
      Some (printDoc Doc ++ "func " ++ Name ++ "(" ++ params ++ ") " ++ r ++ " {" ++ nl ++
            concatMap (fun s => tab ++ s ++ nl) body ++ "}" ++ nl)
  | _ => None
  end.

(** A file: the doc comment, the package clause and the declarations, a
    blank line before each. *)
Definition printFile (f : File) : option string :=
  decls ← mapM printDecl (Decls f);
  Some (printDoc (FileDoc f) ++ "package " ++ FileName f ++ nl ++
        concatMap (fun d => nl ++ d) decls).

(** The argument tokens of the validators of a field. *)
Definition argTokens (fld : ValidationField) : list string :=
  concat (map Args (Validators fld)).

(** The entry the emitted type constructor is read back as: none for
    [String] and [Int]. *)
Definition constructorEntry (ty : string) : list ValidatorCall :=
  if isTypeConstructor (capitalizeFirst ty) [] (Ident "validate") then []
  else [ {| Method := capitalizeFirst ty; Args := [] |} ].

(** The field an emitted [Field] call is read back as. *)
Definition readBack (fld : ValidationField) : ValidationField :=
  {| Name := Name fld; Type_ := Type_ fld;
     Validators := (constructorEntry (Type_ fld) ++ Validators fld)%list |}.

(** All the arguments of the calls of a validator chain, in the order of
    the source. *)
Fixpoint validatorArgs (e : Expr) : list Expr :=
  match e with
  | CallExpr (SelectorExpr X _) args => (validatorArgs X ++ args)%list
  | _ => []
  end.

(** The source
    [validate.Struct[Account]().
       Field(func(a Account) string { return a.Owner },
             validate.String().MinLen(3).OneOf(admin, 0x10)).
       Field(func(a Account) bool { return a.Active },
             validate.Bool().Required())]. *)
Definition accountDecls : list FieldDecl :=
  [ {| fdParam := "a"; fdParamType := "Account"; fdType := "string"; fdName := "Owner";
       fdValidator :=
         chainOn (Ident "validate")
           [("String", []); ("MinLen", [BasicLit "3"]);
            ("OneOf", [Ident "admin"; BasicLit "0x10"])] |};
    {| fdParam := "a"; fdParamType := "Account"; fdType := "bool"; fdName := "Active";
       fdValidator :=
         chainOn (Ident "validate") [("Bool", []); ("Required", [])] |} ].

Definition accountSource : File :=
  sourceFile [schemaDecl None "AccountSchema" "Account" accountDecls].

(** The schema of [accountSource]: the constructor [Bool] is recorded,
    the constructor [String] is not. *)
Definition accountSchema : ValidationSchema :=
  {| TypeName := "Account";
     Fields :=
       [ {| Name := "Owner"; Type_ := "string";
            Validators := [ {| Method := "MinLen"; Args := ["3"] |};
                            {| Method := "OneOf"; Args := ["admin"; "0x10"] |} ] |};
         {| Name := "Active"; Type_ := "bool";
            Validators := [ {| Method := "Bool"; Args := [] |};
                            {| Method := "Required"; Args := [] |} ] |} ] |}.

(** * Further code of the repository

    What follows covers code beside the places the properties C1 to C10
    are about: the emission of a whole run, the other revision of the
    extractor, the package validate, and the command. *)

(** ** The files of a run *)

Section Emission.
Context `{strings.Unicode}.

(** The files after the emission of [schemas], one after the other, into
    the files [fs]. *)
Definition emitInto (config : Config) (fs : gmap string string)
    (schemas : list ValidationSchema) : gmap string string :=
  List.fold_left
    (fun fs schema => <[ outFile config schema := render (Package config) schema ]> fs)
    schemas fs.

(** No fault of the environment is in the way of the emission of
    [schemas]: the output directory can be made, and each output file
    can be made and written. *)
Definition faultFree (config : Config) (schemas : list ValidationSchema) (w : World) : Prop :=
  OutputDir config <> EmptyString /\
  mkdirErr w !! OutputDir config = None /\
  Forall (fun schema =>
            createErr w !! outFile config schema = None /\
            writeErr w !! outFile config schema = None) schemas.

(** The text the last of [schemas] with the output path [p] writes
    there, if there is one. *)
Definition lastRender (config : Config) (p : string)
    (schemas : list ValidationSchema) : option string :=
  List.fold_left
    (fun acc schema =>
       if String.eqb (outFile config schema) p
       then Some (render (Package config) schema) else acc)
    schemas None.

End Emission.

(** What of the world no call of the generator changes: the sources and
    the faults. *)
Definition sameEnv (w w' : World) : Prop :=
  parsed w' = parsed w /\ mkdirErr w' = mkdirErr w /\
  createErr w' = createErr w /\ writeErr w' = writeErr w.

(** ** The revision of the extractor that records method names

    The other revision of generator.go in the repository records a
    validator by its method name only, and looks for the type argument
    one selector further out. What it shares with the revision above
    ([findRootCall], [inferFieldType]) is used as it is. *)

Module NamesOnly.

(** ValidationField represents a field in a validation schema *)
Record ValidationField := {
  Name : string;
  Type_ : string;
  Validators : list string
}.

(** ValidationSchema represents a validation schema *)
Record ValidationSchema := {
  TypeName : string;
  Fields : list ValidationField
}.

(** The loop of [extractValidators]: the name of each call on a selector
    is put in front of [validators]. *)
Fixpoint extractValidators_loop (current : Expr) (validators : list string) : list string :=
  match current with
  | CallExpr (SelectorExpr X sel) _ => extractValidators_loop X (sel :: validators)
  | _ => validators
  end.

(** extractValidators extracts validators from a validator chain *)
Definition extractValidators (expr : Expr) : list string :=
  extractValidators_loop expr [].

Definition fieldFromArgs (args : list Expr) : option ValidationField :=
  match args with
  | [arg0; arg1] =>
      match arg0 with
      | FuncLit _ results (ReturnStmt (SelectorExpr _ sel :: _) :: _) =>
          Some {| Name := sel;
                  Type_ := inferFieldType results;
                  Validators := extractValidators arg1 |}
      | _ => None
      end
  | _ => None
  end.

(** extractFieldValidation extracts field validation from a Field() call *)
Definition extractFieldValidation (call : Expr) : option ValidationField :=
  match call with
  | CallExpr _ args => fieldFromArgs args
  | _ => None
  end.

(** The type argument the root call is taken to hold: the root call is a
    call of a method on [validate.Struct[T]]. *)
Definition rootTypeName (rootCall : Expr) : option string :=
  match rootCall with
  | CallExpr (SelectorExpr (IndexExpr (SelectorExpr (Ident pkg) rootSel) (Ident typeIdent)) _) _ =>
      if String.eqb pkg "validate" && String.eqb rootSel "Struct"
      then Some typeIdent else None
  | _ => None
  end.

Fixpoint collectFields (current : Expr) (fields : list ValidationField)
  : list ValidationField :=
  match current with
  | CallExpr (SelectorExpr X sel) _ =>
      let fields :=
        if String.eqb sel "Field" then
          match extractFieldValidation current with
          | Some field => field :: fields
          | None => fields
          end
        else fields in
      match X with
      | CallExpr _ _ => collectFields X fields
      | _ => fields
      end
  | _ => fields
  end.

(** extractValidationSchema extracts validation schema from an AST expression *)
Definition extractValidationSchema (expr : Expr) : option ValidationSchema :=
  match expr with
  | CallExpr _ _ =>
      match rootTypeName (findRootCall expr) with
      | Some typeName => Some {| TypeName := typeName; Fields := collectFields expr [] |}
      | None => None
      end
  | _ => None
  end.

Definition fieldOfLink (l : Link) : option ValidationField :=
  if String.eqb (fst l) "Field" then fieldFromArgs (snd l) else None.

End NamesOnly.

(** The expression [validate.Struct[T]], with no call. *)
Definition structType (T : string) : Expr :=
  IndexExpr (SelectorExpr (Ident "validate") "Struct") (Ident T).

(** A file given by its declarations alone. *)
Definition fileOf (decls : list Decl) : File :=
  {| FileDoc := None; FileName := EmptyString; Decls := decls |}.

(** ** Package validate

    A Go [int] is an integer ([Z]): the validators compare and print
    integers and do no arithmetic on them. A [*Error] that is nil is
    [None]. The validators of integers, strings and times are given by
    the error they return, as a value; the errors get their places
    further down, for the code that writes into an error or hands on
    one it was given. A method that sets a rule changes the validator
    and returns it: it is given as the changed validator.
    What the package takes from outside the repository is an
    interface: the regular expressions of package regexp, the layout
    RFC3339 of package time, [strconv.Atoi]. A [time.Time] is the
    instant it stands for, counted from the zero time, so that
    [IsZero], [After] and [Before] are tests on an integer. A function
    a caller hands over ([Custom], a transform, a parse function) is one
    that returns. *)

From Stdlib Require Import DecimalString.

Module validate.

(** Error represents a validation error *)
Record Error := {
  Field : string;
  Code : string;
  Message : string
}.

Class Library := {
  (** [*regexp.Regexp] *)
  Regexp : Type;
  (** [regexp.MustCompile]: [None] where it panics *)
  MustCompile : string -> option Regexp;
  MatchString : Regexp -> string -> bool;
  (** [t.Format(time.RFC3339)] *)
  FormatRFC3339 : Z -> string;
  (** [strconv.Atoi]: the integer, or the text of the error *)
  Atoi : string -> string + Z
}.

(** The verb [%d] of [fmt.Sprintf]. *)
Definition Itoa (n : Z) : string := NilZero.string_of_int (Z.to_int n).

(** [len(s)] *)
Definition len (s : string) : Z := Z.of_nat (String.length s).

(** *** IntValidator *)

(** IntValidator provides validation rules for integer values *)
Record IntValidator := {
  min : option Z;
  max : option Z;
  positive : bool;
  negative : bool
}.

(** Int creates a new integer validator *)
Definition Int : IntValidator :=
  {| min := None; max := None; positive := false; negative := false |}.

(** Min adds a minimum value validation rule *)
Definition Min (value : Z) (v : IntValidator) : IntValidator :=
  {| min := Some value; max := max v; positive := positive v; negative := negative v |}.

(** Max adds a maximum value validation rule *)
Definition Max (value : Z) (v : IntValidator) : IntValidator :=
  {| min := min v; max := Some value; positive := positive v; negative := negative v |}.

(** Positive requires the value to be positive (> 0) *)
Definition Positive (v : IntValidator) : IntValidator :=
  {| min := min v; max := max v; positive := true; negative := negative v |}.

(** Negative requires the value to be negative (< 0) *)
Definition Negative (v : IntValidator) : IntValidator :=
  {| min := min v; max := max v; positive := positive v; negative := true |}.

(** [if cond { return &Error{...} }]: the error where the condition
    holds. *)
Definition check (cond : bool) (err : Error) : option Error :=
  if cond then Some err else None.

(** The error of the first statement that returns one. *)
Definition orElse (first rest : option Error) : option Error :=
  match first with
  | Some err => Some err
  | None => rest
  end.

(** Validate implements the Validator[int] interface *)
Definition IntValidate (v : IntValidator) (value : Z) : option Error :=
  orElse
    match min v with
    | Some m =>
        check (value <? m)%Z
          {| Field := EmptyString; Code := "too_small";
             Message := "value must be at least " ++ Itoa m |}
    | None => None
    end
  (orElse
    match max v with
    | Some m =>
        check (m <? value)%Z
          {| Field := EmptyString; Code := "too_large";
             Message := "value must be at most " ++ Itoa m |}
    | None => None
    end
  (orElse
    (check (positive v && (value <=? 0)%Z)
       {| Field := EmptyString; Code := "not_positive";
          Message := "value must be positive" |})
    (check (negative v && (0 <=? value)%Z)
       {| Field := EmptyString; Code := "not_negative";
          Message := "value must be negative" |}))).

(** *** StringValidator *)

Section Strings.
Context `{strings.Unicode} `{Library}.

(** StringValidator validates string values *)
Record StringValidator := {
  minLen : option Z;
  maxLen : option Z;
  pattern : option Regexp;
  email : bool;
  custom : option (string -> option Error);
  required : bool;
  defaultVal : option string;
  optional : bool
}.

(** String creates a new string validator *)
Definition String : StringValidator :=
  {| minLen := None; maxLen := None; pattern := None; email := false;
     custom := None; required := false; defaultVal := None; optional := false |}.

(** MinLen adds a minimum length validation rule *)
Definition MinLen (length : Z) (v : StringValidator) : StringValidator :=
  {| minLen := Some length; maxLen := maxLen v; pattern := pattern v; email := email v;
     custom := custom v; required := required v; defaultVal := defaultVal v;
     optional := optional v |}.

(** MaxLen adds a maximum length validation rule *)
Definition MaxLen (length : Z) (v : StringValidator) : StringValidator :=
  {| minLen := minLen v; maxLen := Some length; pattern := pattern v; email := email v;
     custom := custom v; required := required v; defaultVal := defaultVal v;
     optional := optional v |}.

(** Pattern adds a regular expression pattern validation rule; [None]
    where [regexp.MustCompile] panics. *)
Definition Pattern (pat : string) (v : StringValidator) : option StringValidator :=
  match MustCompile pat with
  | Some re =>
      Some {| minLen := minLen v; maxLen := maxLen v; pattern := Some re; email := email v;
              custom := custom v; required := required v; defaultVal := defaultVal v;
              optional := optional v |}
  | None => None
  end.

(** Matches adds a regular expression pattern validation rule (alias for Pattern) *)
Definition Matches (pat : string) (v : StringValidator) : option StringValidator :=
  Pattern pat v.

(** Default sets a default value to use if the string is empty *)
Definition Default (val : string) (v : StringValidator) : StringValidator :=
  {| minLen := minLen v; maxLen := maxLen v; pattern := pattern v; email := email v;
     custom := custom v; required := required v; defaultVal := Some val;
     optional := optional v |}.

(** Optional marks the field as optional (allows empty strings) *)
Definition Optional (v : StringValidator) : StringValidator :=
  {| minLen := minLen v; maxLen := maxLen v; pattern := pattern v; email := email v;
     custom := custom v; required := required v; defaultVal := defaultVal v;
     optional := true |}.

(** Catch sets a fallback value to use if validation fails: the value is
    not kept. *)
Definition Catch (val : string) (v : StringValidator) : StringValidator := v.

(** Email adds an email validation rule *)
Definition Email (v : StringValidator) : StringValidator :=
  {| minLen := minLen v; maxLen := maxLen v; pattern := pattern v; email := true;
     custom := custom v; required := required v; defaultVal := defaultVal v;
     optional := optional v |}.

(** Required adds a required field validation rule *)
Definition Required (v : StringValidator) : StringValidator :=
  {| minLen := minLen v; maxLen := maxLen v; pattern := pattern v; email := email v;
     custom := custom v; required := true; defaultVal := defaultVal v;
     optional := optional v |}.

(** Custom adds a custom validation rule *)
Definition Custom (fn : string -> option Error) (v : StringValidator) : StringValidator :=
  {| minLen := minLen v; maxLen := maxLen v; pattern := pattern v; email := email v;
     custom := Some fn; required := required v; defaultVal := defaultVal v;
     optional := optional v |}.

(** [len(strings.TrimSpace(value)) == 0] *)
Definition blank (value : string) : bool :=
  (len (strings.TrimSpace value) =? 0)%Z.

(** Validate implements the Validator interface *)
Definition StringValidate (v : StringValidator) (value : string) : option Error :=
  let value :=
    match defaultVal v with
    | Some d => if blank value then d else value
    | None => value
    end in
  if required v && blank value then
    Some {| Field := EmptyString; Code := "required"; Message := "field is required" |}
  else if optional v && blank value then None
  else
    orElse
      match minLen v with
      | Some n =>
          check (len value <? n)%Z
            {| Field := EmptyString; Code := "too_short";
               Message := "must be at least " ++ Itoa n ++ " characters" |}
      | None => None
      end
    (orElse
      match maxLen v with
      | Some n =>
          check (n <? len value)%Z
            {| Field := EmptyString; Code := "too_long";
               Message := "must be at most " ++ Itoa n ++ " characters" |}
      | None => None
      end
    (orElse
      match pattern v with
      | Some re =>
          check (negb (MatchString re value))
            {| Field := EmptyString; Code := "invalid_format"; Message := "invalid format" |}
      | None => None
      end
    (orElse
      (check (email v &&
              (negb (strings.Contains value "@") || negb (strings.Contains value ".")))
         {| Field := EmptyString; Code := "invalid_email";
            Message := "must be a valid email address" |})
      match custom v with
      | Some fn => fn value
      | None => None
      end))).

(** The string validator of the revision that has no default value and
    no optional mark. *)
Record StringValidator0 := {
  minLen0 : option Z;
  maxLen0 : option Z;
  pattern0 : option Regexp;
  email0 : bool;
  custom0 : option (string -> option Error);
  required0 : bool
}.

(** Validate implements the Validator interface *)
Definition StringValidate0 (v : StringValidator0) (value : string) : option Error :=
  if required0 v && blank value then
    Some {| Field := EmptyString; Code := "required"; Message := "field is required" |}
  else
    orElse
      match minLen0 v with
      | Some n =>
          check (len value <? n)%Z
            {| Field := EmptyString; Code := "too_short";
               Message := "must be at least " ++ Itoa n ++ " characters" |}
      | None => None
      end
    (orElse
      match maxLen0 v with
      | Some n =>
          check (n <? len value)%Z
            {| Field := EmptyString; Code := "too_long";
               Message := "must be at most " ++ Itoa n ++ " characters" |}
      | None => None
      end
    (orElse
      match pattern0 v with
      | Some re =>
          check (negb (MatchString re value))
            {| Field := EmptyString; Code := "invalid_format"; Message := "invalid format" |}
      | None => None
      end
    (orElse
      (check (email0 v &&
              (negb (strings.Contains value "@") || negb (strings.Contains value ".")))
         {| Field := EmptyString; Code := "invalid_email";
            Message := "must be a valid email address" |})
      match custom0 v with
      | Some fn => fn value
      | None => None
      end))).

(** The validator of the revision with default values that has the
    rules of one of the revision without. *)
Definition later (v : StringValidator0) : StringValidator :=
  {| minLen := minLen0 v; maxLen := maxLen0 v; pattern := pattern0 v; email := email0 v;
     custom := custom0 v; required := required0 v; defaultVal := None; optional := false |}.

End Strings.

(** *** TimeValidator *)

Section Times.
Context `{Library}.

(** TimeValidator validates time.Time values *)
Record TimeValidator := {
  after : option Z;
  before : option Z;
  between : option (Z * Z);
  timeCustom : option (Z -> option Error);
  timeRequired : bool
}.

(** Time creates a new time validator *)
Definition Time : TimeValidator :=
  {| after := None; before := None; between := None; timeCustom := None;
     timeRequired := false |}.

(** After adds validation that time must be after the given time *)
Definition After (t : Z) (v : TimeValidator) : TimeValidator :=
  {| after := Some t; before := before v; between := between v;
     timeCustom := timeCustom v; timeRequired := timeRequired v |}.

(** Before adds validation that time must be before the given time *)
Definition Before (t : Z) (v : TimeValidator) : TimeValidator :=
  {| after := after v; before := Some t; between := between v;
     timeCustom := timeCustom v; timeRequired := timeRequired v |}.

(** Between adds validation that time must be between two times *)
Definition Between (start end_ : Z) (v : TimeValidator) : TimeValidator :=
  {| after := after v; before := before v; between := Some (start, end_);
     timeCustom := timeCustom v; timeRequired := timeRequired v |}.

(** Custom adds a custom validation function *)
Definition TimeCustom (fn : Z -> option Error) (v : TimeValidator) : TimeValidator :=
  {| after := after v; before := before v; between := between v;
     timeCustom := Some fn; timeRequired := timeRequired v |}.

(** Required marks the field as required *)
Definition TimeRequired (v : TimeValidator) : TimeValidator :=
  {| after := after v; before := before v; between := between v;
     timeCustom := timeCustom v; timeRequired := true |}.

(** [Future] and [Past] with the reading [now] of the clock. *)
Definition Future (now : Z) (v : TimeValidator) : TimeValidator := After now v.

Definition Past (now : Z) (v : TimeValidator) : TimeValidator := Before now v.

(** [value.IsZero()] *)
Definition IsZero (t : Z) : bool := (t =? 0)%Z.

(** Validate validates a time value *)
Definition TimeValidate (v : TimeValidator) (value : Z) : option Error :=
  if timeRequired v && IsZero value then
    Some {| Field := EmptyString; Code := "required"; Message := "field is required" |}
  else if negb (timeRequired v) && IsZero value then None
  else
    orElse
      match after v with
      | Some t =>
          check (negb (t <? value)%Z)
            {| Field := EmptyString; Code := "too_early";
               Message := "time must be after " ++ FormatRFC3339 t |}
      | None => None
      end
    (orElse
      match before v with
      | Some t =>
          check (negb (value <? t)%Z)
            {| Field := EmptyString; Code := "too_late";
               Message := "time must be before " ++ FormatRFC3339 t |}
      | None => None
      end
    (orElse
      match between v with
      | Some (start, end_) =>
          check ((value <? start)%Z || (end_ <? value)%Z)
            {| Field := EmptyString; Code := "out_of_range";
               Message := "time must be between " ++ FormatRFC3339 start ++ " and " ++
                          FormatRFC3339 end_ |}
      | None => None
      end
      match timeCustom v with
      | Some fn => fn value
      | None => None
      end)).

End Times.

(** *** Errors behind pointers *)

(** The errors allocated so far; a [*Error] other than [nil] is the
    place of an error among them. *)
Definition Heap : Type := list Error.

(** [*Error]: [None] is [nil]. *)
Definition ErrorPtr : Type := option nat.

(** What a call comes to: its result, or a panic. *)
Inductive Outcome (A : Type) : Type :=
| Returned (a : A)
| Panicked (msg : string).

Arguments Returned {A} a.
Arguments Panicked {A} msg.

Definition M (A : Type) : Type := Heap -> Outcome (A * Heap).

Definition retM {A : Type} (a : A) : M A := fun h => Returned (a, h).

Definition bindM {A B : Type} (m : M A) (k : A -> M B) : M B :=
  fun h =>
    match m h with
    | Returned (a, h') => k a h'
    | Panicked msg => Panicked msg
    end.

#[export] Instance M_ret : MRet M := @retM.
#[export] Instance M_bind : MBind M := fun A B k m => bindM m k.


Definition nilDereference : string :=
  "runtime error: invalid memory address or nil pointer dereference".

(** [&Error{...}] *)
Definition new (err : Error) : M ErrorPtr :=
  fun h => Returned (Some (length h), (h ++ [err])%list).

(** [*p] *)
Definition load (p : ErrorPtr) : M Error :=
  fun h =>
    match p with
    | Some a =>
        match h !! a with
        | Some err => Returned (err, h)
        | None => Panicked nilDereference
        end
    | None => Panicked nilDereference
    end.

(** [*p = err], for a [p] that [load] has read. *)
Definition store (p : ErrorPtr) (err : Error) : M unit :=
  fun h => Returned (tt, <[ default 0%nat p := err ]> h).

(** [p.Field = field] *)
Definition setField (p : ErrorPtr) (field : string) : M unit :=
  err ← load p;
  store p {| Field := field; Code := Code err; Message := Message err |}.

(** Validator is the interface for all validators *)
Definition Validator (T : Type) : Type := T -> M ErrorPtr.

(** A validator that returns a new error each time it returns one:
    the validators of integers, strings and times are of this kind,
    their custom functions being so. *)
Definition alloc (result : option Error) : M ErrorPtr :=
  match result with
  | Some err => new err
  | None => mret None
  end.

Definition allocating {T : Type} (validate : T -> option Error) : Validator T :=
  fun value => alloc (validate value).

(** *** Errors *)

(** Errors represents a collection of validation errors *)
Definition Errors : Type := list ErrorPtr.

(** Add adds a validation error to the collection *)
Definition Add (err : ErrorPtr) (e : Errors) : Errors := (e ++ [err])%list.



(** *** Schema *)

(** FieldRule represents a validation rule for a struct field; [F] is
    the type of the values the selector gives. *)
Record FieldRule (T : Type) := {
  F : Type;
  selector : T -> F;
  rule : Validator F;
  field : string
}.

Arguments F {T} _.
Arguments selector {T} _ _.
Arguments rule {T} _ _.
Arguments field {T} _.

(** Schema represents a validation schema for a struct *)
Definition Schema (T : Type) : Type := list (FieldRule T).

Fixpoint validateRules {T : Type} (rules : list (FieldRule T)) (value : T)
    (errors : Errors) : M Errors :=
  match rules with
  | [] => mret errors
  | r :: rest =>
      err ← rule r (selector r value);
      match err with
      | Some _ =>
          setField err (field r);;
          validateRules rest value (Add err errors)
      | None => validateRules rest value errors
      end
  end.

(** Validate runs all validators in the schema and returns any errors *)
Definition SchemaValidate {T : Type} (s : Schema T) (value : T) : M Errors :=
  validateRules s value [].

(** Struct creates a new schema for validating structs of type T *)
Definition Struct {T : Type} : Schema T := [].

Section Reflect.
Context {Ty : Type} `{EqDecision Ty}.

(** The name of the first field whose type is the type of the result
    of the selector. *)
Fixpoint fieldNameOf (fields : list (string * Ty)) (selectorType : Ty) : string :=
  match fields with
  | [] => EmptyString
  | (name, type) :: rest =>
      if decide (type = selectorType) then name else fieldNameOf rest selectorType
  end.

(** Field adds a field validation rule to the schema, for a selector
    that is a function of [T] with results of the type [selectorType],
    and a validator of its results.  [t] has the fields of [T] where
    [T] is a struct type. *)
Definition SchemaField {T Result : Type} (t : option (list (string * Ty)))
    (selectorType : Ty) (selector : T -> Result) (validator : Validator Result)
    (s : Schema T) : Schema T :=
  let fieldName :=
    match t with
    | Some fields => fieldNameOf fields selectorType
    | None => EmptyString
    end in
  (s ++ [{| F := Result; selector := selector; rule := validator;
           field := fieldName |}])%list.

End Reflect.

(** *** NestedValidator *)


(** *** OneOf, AllOf, Not *)

Fixpoint oneOfLoop {T : Type} (validators : list (Validator T)) (value : T)
    (lastError : ErrorPtr) : M ErrorPtr :=
  match validators with
  | [] =>
      e ← load lastError;
      new {| Field := Field e; Code := "no_match";
             Message := "value did not match any of the requirements" |}
  | validator :: rest =>
      err ← validator value;
      match err with
      | None => mret None
      | Some _ => oneOfLoop rest value err
      end
  end.

(** Validate implements the Validator interface *)
Definition OneOf {T : Type} (validators : list (Validator T)) : Validator T :=
  fun value => oneOfLoop validators value None.

(** Validate implements the Validator interface *)
Fixpoint AllOf {T : Type} (validators : list (Validator T)) : Validator T :=
  fun value =>
    match validators with
    | [] => mret None
    | validator :: rest =>
        err ← validator value;
        match err with
        | Some _ => mret err
        | None => AllOf rest value
        end
    end.

(** Validate implements the Validator interface *)
Definition Not {T : Type} (validator : Validator T) : Validator T :=
  fun value =>
    err ← validator value;
    match err with
    | None =>
        new {| Field := EmptyString; Code := "invalid_match";
               Message := "value matched when it should not have" |}
    | Some _ => mret None
    end.

(** Custom creates a new custom validator *)
Definition CustomValidator {T : Type} (validate : T -> M ErrorPtr) : Validator T :=
  fun value => validate value.

(** *** TransformValidator *)

(** The zero value of a type. *)
Class ZeroValue (T : Type) := zeroValue : T.

#[export] Instance string_zero : ZeroValue string := EmptyString.
#[export] Instance int_zero : ZeroValue Z := 0%Z.

Definition isZeroValue {T : Type} `{EqDecision T} `{ZeroValue T} (value : T) : bool :=
  bool_decide (value = zeroValue).

(** TransformValidator wraps another validator with transformations *)
Record TransformValidator (T : Type) := {
  validator : Validator T;
  transforms : list (T -> T);
  transformDefault : option T;
  catchVal : option T
}.

Arguments validator {T} _.
Arguments transforms {T} _.
Arguments transformDefault {T} _.
Arguments catchVal {T} _.

(** Transform creates a new transform validator from an existing validator *)
Definition Transform {T : Type} (fn : T -> T) (v : Validator T) : TransformValidator T :=
  {| validator := v; transforms := [fn]; transformDefault := None; catchVal := None |}.

(** Pipe adds another transformation to the chain *)
Definition Pipe {T : Type} (fn : T -> T) (v : TransformValidator T) : TransformValidator T :=
  {| validator := validator v; transforms := (transforms v ++ [fn])%list;
     transformDefault := transformDefault v; catchVal := catchVal v |}.

(** Default sets a default value to use if the input is zero/empty *)
Definition TransformDefault {T : Type} (val : T) (v : TransformValidator T) :
    TransformValidator T :=
  {| validator := validator v; transforms := transforms v;
     transformDefault := Some val; catchVal := catchVal v |}.

(** Catch sets a fallback value to use if validation fails *)
Definition TransformCatch {T : Type} (val : T) (v : TransformValidator T) :
    TransformValidator T :=
  {| validator := validator v; transforms := transforms v;
     transformDefault := transformDefault v; catchVal := Some val |}.

(** Validate applies transformations then validates *)
Definition TransformValidate {T : Type} `{EqDecision T} `{ZeroValue T}
    (v : TransformValidator T) : Validator T :=
  fun value =>
    let value :=
      match transformDefault v with
      | Some d => if isZeroValue value then d else value
      | None => value
      end in
    let value := List.fold_left (fun value transform => transform value) (transforms v) value in
    err ← validator v value;
    match err with
    | Some _ =>
        match catchVal v with
        | Some c => validator v c
        | None => mret err
        end
    | None => mret None
    end.

(** *** ParseValidator *)

(** ParseValidator handles parsing from one type to another; the
    parsing function gives the value, or the text of its error. *)
Record ParseValidator (T U : Type) := {
  parseFunc : T -> string + U;
  parseValidator : Validator U
}.

Arguments parseFunc {T U} _.
Arguments parseValidator {T U} _.

(** Parse creates a new parse validator *)
Definition Parse {T U : Type} (parseFunc : T -> string + U) (validator : Validator U) :
    ParseValidator T U :=
  {| parseFunc := parseFunc; parseValidator := validator |}.

(** Validate for ParseValidator *)
Definition ParseValidate {T U : Type} (v : ParseValidator T U) : Validator T :=
  fun value =>
    match parseFunc v value with
    | inl msg =>
        new {| Field := EmptyString; Code := "parse_error";
               Message := "failed to parse value: " ++ msg |}
    | inr parsed => parseValidator v parsed
    end.

Section Methods.
Context `{strings.Unicode} `{Library}.

(** Common string transformations *)
Definition Trim (v : StringValidator) : TransformValidator string :=
  Transform strings.TrimSpace (allocating (StringValidate v)).

Definition Lowercase (v : StringValidator) : TransformValidator string :=
  Transform strings.ToLower (allocating (StringValidate v)).

(** Transform creates a new transform validator from an existing validator *)
Definition IntTransform (fn : Z -> Z) (v : IntValidator) : TransformValidator Z :=
  Transform fn (allocating (IntValidate v)).

(** Common parse functions for strings *)
Definition ParseInt (v : StringValidator) : ParseValidator string Z :=
  Parse Atoi (allocating (IntValidate Int)).

End Methods.

End validate.

(** The rules of the string validator that come after the tests of
    blank values, as conditions on the value. *)
Definition stringRules `{strings.Unicode} `{validate.Library}
    (v : validate.StringValidator) (value : string) : Prop :=
  (forall n, validate.minLen v = Some n -> (n <= validate.len value)%Z) /\
  (forall n, validate.maxLen v = Some n -> (validate.len value <= n)%Z) /\
  (forall re, validate.pattern v = Some re -> validate.MatchString re value = true) /\
  (validate.email v = true ->
   strings.Contains value "@" = true /\ strings.Contains value "." = true) /\
  (forall fn, validate.custom v = Some fn -> fn value = None).

(** The value the rules are applied to: the default value in place of
    a blank value, where there is a default value. *)
Definition effective `{strings.Unicode} `{validate.Library}
    (v : validate.StringValidator) (value : string) : string :=
  match validate.defaultVal v with
  | Some d => if validate.blank value then d else value
  | None => value
  end.

(** A rule of a schema whose validator returns a new error each time
    it returns one. *)
Record FreshRule (T : Type) := {
  freshF : Type;
  freshSelector : T -> freshF;
  freshCheck : freshF -> option validate.Error;
  freshField : string
}.

Arguments freshF {T} _.
Arguments freshSelector {T} _ _.
Arguments freshCheck {T} _ _.
Arguments freshField {T} _.

Definition ruleOf {T : Type} (r : FreshRule T) : validate.FieldRule T :=
  {| validate.F := freshF r; validate.selector := freshSelector r;
     validate.rule := validate.allocating (freshCheck r);
     validate.field := freshField r |}.

(** The error with the name of a field in it. *)
Definition withField (field : string) (err : validate.Error) : validate.Error :=
  {| validate.Field := field; validate.Code := validate.Code err;
     validate.Message := validate.Message err |}.

(** The error of a rule for a value, as the schema leaves it. *)
Definition ruleError {T : Type} (value : T) (r : FreshRule T) : option validate.Error :=
  withField (freshField r) <$> freshCheck r (freshSelector r value).

(** The pointers to [n] errors allocated one after the other on the
    heap [h]. *)
Definition allocated (h : validate.Heap) (n : nat) : list validate.ErrorPtr :=
  map Some (seq (length h) n).

(** A rule of a schema whose validator returns the one error behind
    [p] for every value it does not accept. *)
Record SharedRule (T : Type) := {
  sharedF : Type;
  sharedSelector : T -> sharedF;
  accepts : sharedF -> bool;
  sharedField : string
}.

Arguments sharedF {T} _.
Arguments sharedSelector {T} _ _.
Arguments accepts {T} _ _.
Arguments sharedField {T} _.

Definition sharedRuleOf {T : Type} (p : nat) (r : SharedRule T) : validate.FieldRule T :=
  {| validate.F := sharedF r; validate.selector := sharedSelector r;
     validate.rule := fun x =>
       if accepts r x then validate.retM None else validate.retM (Some p);
     validate.field := sharedField r |}.

Definition rejects {T : Type} (value : T) (r : SharedRule T) : bool :=
  negb (accepts r (sharedSelector r value)).

Definition noMatch (field : string) : validate.Error :=
  {| validate.Field := field; validate.Code := "no_match";
     validate.Message := "value did not match any of the requirements" |}.

Definition invalidMatch : validate.Error :=
  {| validate.Field := EmptyString; validate.Code := "invalid_match";
     validate.Message := "value matched when it should not have" |}.

Definition parseError (msg : string) : validate.Error :=
  {| validate.Field := EmptyString; validate.Code := "parse_error";
     validate.Message := "failed to parse value: " ++ msg |}.

(** The value a transform validator validates: the default value in
    place of the zero value, then the transformations in their order. *)
Definition transformed {T : Type} `{EqDecision T} `{validate.ZeroValue T}
    (tv : validate.TransformValidator T) (value : T) : T :=
  List.fold_left (fun value transform => transform value) (validate.transforms tv)
    match validate.transformDefault tv with
    | Some d => if validate.isZeroValue value then d else value
    | None => value
    end.

(** ** The command

    [filepath.Dir] and [filepath.Base] for paths with the separator [/]
    and no volume name, and [main] of cmd/tibeb. *)

Module pathnames.

(** The path up to its last separator, the separator with it, and what
    comes after it; a path with no separator is all after it. *)
Fixpoint splitLast (path : string) : string * string :=
  match path with
  | EmptyString => (EmptyString, EmptyString)
  | String c rest =>
      let (dir, file) := splitLast rest in
      if Ascii.eqb c "/" || negb (String.eqb dir EmptyString)
      then (String c dir, file)
      else (EmptyString, String c file)
  end.

(** The path without the separators at its end. *)
Fixpoint stripSeparators (path : string) : string :=
  match path with
  | EmptyString => EmptyString
  | String c rest =>
      let rest := stripSeparators rest in
      if Ascii.eqb c "/" && String.eqb rest EmptyString then EmptyString
      else String c rest
  end.

(** [filepath.Dir] *)
Definition Dir (path : string) : string :=
  filepath.Clean (fst (splitLast path)).

(** [filepath.Base] *)
Definition Base (path : string) : string :=
  if String.eqb path EmptyString then "."
  else
    let path := stripSeparators path in
    let path := snd (splitLast path) in
    if String.eqb path EmptyString then "/" else path.

End pathnames.

Module cmd.

(** The values of the flags [-file], [-out], [-pkg] and [-verbose]. *)
Record Flags := {
  inputFile : string;
  outputDir : string;
  pkgName : string;
  verbose : bool
}.

(** How the command ends: the exit status, 0 where [main] returns, and
    what it wrote to the standard error. *)
Record Exit := {
  status : Z;
  stderr : list string
}.

(** The flag set [gen] of the package flag: [Parse] gives the values of
    the flags, or ends the command itself (the flag set is made with
    [flag.ExitOnError]); [Usage] is the text [genCmd.Usage] writes. *)
Class FlagSet := {
  Parse : list string -> Exit + Flags;
  Usage : string
}.

Section Main.
Context `{strings.Unicode} `{FlagSet}.

Definition main (Args : list string) (w : World) : Exit * World :=
  match Args with
  | [] | [_] =>
      ({| status := 1; stderr := [] |},
       addStdout w [Printed ("expected 'gen' subcommand" ++ nl)])
  | _ :: subcommand :: rest =>
      if String.eqb subcommand "gen" then
        match Parse rest with
        | inl exit => (exit, w)
        | inr flags =>
            if String.eqb (inputFile flags) EmptyString then
              ({| status := 1;
                  stderr := ["Error: input file is required" ++ nl; Usage] |}, w)
            else
              let outputDir :=
                if String.eqb (outputDir flags) EmptyString
                then pathnames.Dir (inputFile flags) else outputDir flags in
              let pkgName :=
                if String.eqb (pkgName flags) EmptyString
                then pathnames.Base (pathnames.Dir (inputFile flags)) else pkgName flags in
              let config :=
                {| InputFile := inputFile flags; OutputDir := outputDir;
                   Package := pkgName; Verbose := verbose flags |} in
              match Generate config w with
              | (inl err, w') =>
                  ({| status := 1; stderr := ["Error: " ++ Error err ++ nl] |}, w')
              | (inr _, w') => ({| status := 0; stderr := [] |}, w')
              end
        end
      else
        ({| status := 1; stderr := [] |},
         addStdout w [Printed ("unknown subcommand: " ++ subcommand ++ nl)])
  end.

End Main.

End cmd.

(** How [main] ends after a run of the generator. *)
Definition exitOf (result : (error + unit) * World) : cmd.Exit * World :=
  match result with
  | (inl err, w') =>
      ({| cmd.status := 1; cmd.stderr := ["Error: " ++ Error err ++ nl] |}, w')
  | (inr _, w') => ({| cmd.status := 0; cmd.stderr := [] |}, w')
  end.

(** ** Sample inputs for the package validate *)

(** A library for sample runs: a pattern is a plain text and matches the
    strings that hold it, a time is written as its number, and the
    parser of integers reads decimal digits with a sign. *)
Definition plainLibrary : validate.Library :=
  {| validate.Regexp := string;
     validate.MustCompile := Some;
     validate.MatchString := fun re s => strings.Contains s re;
     validate.FormatRFC3339 := validate.Itoa;
     validate.Atoi := fun s =>
       match NilZero.int_of_string s with
       | Some n => inr (Z.of_int n)
       | None => inl "invalid syntax"
       end |}.

(** A struct of two fields of the type string, [Name] and [Email]. *)
Definition userFields : list (string * string) :=
  [("Name", "string"); ("Email", "string")].

(** An error that is not allocated by a validator: one value for every
    use, as a variable of a package holds it. *)
Definition sharedError : validate.Error :=
  {| validate.Field := EmptyString; validate.Code := "not_positive";
     validate.Message := "value must be positive" |}.

(** The rules of a pair of integers, [Width] and [Height], that both
    must be above zero. *)
Definition widthRule : SharedRule (Z * Z) :=
  {| sharedF := Z; sharedSelector := fst; accepts := fun x => (0 <? x)%Z;
     sharedField := "Width" |}.

Definition heightRule : SharedRule (Z * Z) :=
  {| sharedF := Z; sharedSelector := snd; accepts := fun x => (0 <? x)%Z;
     sharedField := "Height" |}.

Definition sizeRules : list (SharedRule (Z * Z)) := [widthRule; heightRule].

(** ** Sample inputs for the command *)

(** The values of the flags where [-file] alone is given. *)
Definition fileFlag (file : string) : cmd.Flags :=
  {| cmd.inputFile := file; cmd.outputDir := EmptyString; cmd.pkgName := EmptyString;
     cmd.verbose := false |}.

(** A flag set for sample runs, which reads the flag [-file] alone and
    ends the command with the status 2 for other arguments. *)
Definition fileFlagOnly : cmd.FlagSet :=
  {| cmd.Parse := fun arguments =>
       match arguments with
       | [flag; file] =>
           if String.eqb flag "-file" then inr (fileFlag file)
           else inl {| cmd.status := 2; cmd.stderr := [] |}
       | _ => inl {| cmd.status := 2; cmd.stderr := [] |}
       end;
     cmd.Usage := "Usage of gen:" |}.

(** ** Sample inputs: a root call with no type parameter *)

(** The root call [validate.Struct(...)], with no type parameter. *)
Definition untypedRoot (rootArgs : list Expr) : Expr :=
  CallExpr (SelectorExpr (Ident "validate") "Struct") rootArgs.

(** [func(o T) string { return o.ID }, validate.String().MinLen(3)] *)
Definition idField (T : string) : FieldDecl :=
  {| fdParam := "o"; fdParamType := T; fdType := "string";
     fdName := "ID"; fdValidator := minLen3 |}.

(** The file
    [// validation schema for Order]
    [var OrderRules = validate.Struct().Field(func(o Order) string { return o.ID }, validate.String().MinLen(3))] *)
Definition orderRulesFile : File :=
  sourceFile
    [GenDecl (Some ["// validation schema for Order"]) VAR
       [ValueSpec ["OrderRules"] None
          [chainOn (untypedRoot []) [fieldLink (fieldDeclArgs (idField "Order"))]]]].

(** The file
    [var AccountSchema = validate.Struct().Field(func(o Account) string { return o.ID }, validate.String().MinLen(3))] *)
Definition accountRulesFile : File :=
  sourceFile
    [GenDecl None VAR
       [ValueSpec ["AccountSchema"] None
          [chainOn (untypedRoot []) [fieldLink (fieldDeclArgs (idField "Account"))]]]].

(** ** Sample inputs: the emitted source of [accountSchema] *)

(** The text emitted for [accountSchema] and the package [models]. *)
Definition accountText : string :=
  "// Code generated by tibeb. DO NOT EDIT." ++ nl ++
  "package models" ++ nl ++
  nl ++
  "import (" ++ nl ++
  tab ++ dquote ++ "github.com/bm-197/tibeb/pkg/validate" ++ dquote ++ nl ++
  ")" ++ nl ++
  nl ++
  "// ValidateAccount validates the Account struct" ++ nl ++
  "func ValidateAccount(v Account) *validate.Errors {" ++ nl ++
  tab ++ "return AccountSchema.Validate(v)" ++ nl ++
  "}" ++ nl ++
  nl ++
  "// AccountSchema is the validation schema for Account" ++ nl ++
  "var AccountSchema = validate.Struct[Account]()." ++ nl ++
  tab ++ "Field(func(v Account) string { return v.Owner }, " ++
         "validate.String().MinLen(3).OneOf(admin, 0x10))." ++ nl ++
  tab ++ "Field(func(v Account) bool { return v.Active }, " ++
         "validate.Bool().Bool().Required())" ++ nl.

(** The declaration of [AccountSchema] in [accountText], as a syntax
    tree: the chain of the field [Active] is
    [validate.Bool().Bool().Required()]. *)
Definition accountTextDecl : Decl :=
  GenDecl (Some ["// AccountSchema is the validation schema for Account"]) VAR
    [ValueSpec ["AccountSchema"] None
       [chainOn (structRoot "Account" [])
          [("Field",
            [FuncLit [MkField ["v"] (Ident "Account")]
               (Some [MkField [] (Ident "string")])
               [ReturnStmt [SelectorExpr (Ident "v") "Owner"]];
             chainOn (Ident "validate")
               [("String", []); ("MinLen", [BasicLit "3"]);
                ("OneOf", [Ident "admin"; BasicLit "0x10"])]]);
           ("Field",
            [FuncLit [MkField ["v"] (Ident "Account")]
               (Some [MkField [] (Ident "bool")])
               [ReturnStmt [SelectorExpr (Ident "v") "Active"]];
             chainOn (Ident "validate")
               [("Bool", []); ("Bool", []); ("Required", [])]])]]].

(** The syntax tree of [accountText]. *)
Definition accountTextFile : File :=
  {| FileDoc := Some ["// Code generated by tibeb. DO NOT EDIT."];
     FileName := "models";
     Decls :=
       [GenDecl None IMPORT
          [ImportSpec (dquote ++ "github.com/bm-197/tibeb/pkg/validate" ++ dquote)];
        FuncDecl (Some ["// ValidateAccount validates the Account struct"]) None
          "ValidateAccount" [MkField ["v"] (Ident "Account")]
          (Some [MkField [] (StarExpr (SelectorExpr (Ident "validate") "Errors"))])
          (Some [ReturnStmt
                   [CallExpr (SelectorExpr (Ident "AccountSchema") "Validate")
                      [Ident "v"]]]);
        accountTextDecl] |}.

(** The schema read from [accountTextFile]. *)
Definition accountReread : ValidationSchema :=
  {| TypeName := "Account";
     Fields :=
       [ {| Name := "Owner"; Type_ := "string";
            Validators := [ {| Method := "MinLen"; Args := ["3"] |};
                            {| Method := "OneOf"; Args := ["admin"; "0x10"] |} ] |};
         {| Name := "Active"; Type_ := "bool";
            Validators := [ {| Method := "Bool"; Args := [] |};
                            {| Method := "Bool"; Args := [] |};
                            {| Method := "Required"; Args := [] |} ] |} ] |}.

(** ** A later run *)


(** * Properties *)

(** ** Chains *)

Lemma chainOn_snoc base links l :
  chainOn base (links ++ [l])%list = callOn (chainOn base links) l.
Proof. unfold chainOn. by rewrite fold_left_app. Qed.

Lemma chainOn_call_is_call f args links :
  exists f' args', chainOn (CallExpr f args) links = CallExpr f' args'.
Proof.
  induction links as [|l links _] using rev_ind; [by eauto|].
  rewrite chainOn_snoc. unfold callOn. eauto.
Qed.

Lemma chainOn_nonempty_is_call base l links :
  exists x m args, chainOn base (l :: links) = CallExpr (SelectorExpr x m) args.
Proof.
  revert l. induction links as [|l' links _] using rev_ind; intros l.
  - simpl. unfold callOn. eauto.
  - rewrite app_comm_cons, chainOn_snoc. unfold callOn. eauto.
Qed.

(** Every expression is a chain of calls on a base that is not a call on
    a selector: the chains the properties below speak of are all the
    expressions there are. *)
Lemma chain_decomposition :
  forall e, exists base links, e = chainOn base links /\ isCallOnSelector base = false.
Proof.
  fix IH 1. intros e.
  destruct e as [n|v|X sel|f args|X i|X|ps rs body|ch];
    try (by eexists _, []; split; [reflexivity|reflexivity]).
  destruct f as [n|v|X sel|f' args'|X i|X|ps rs body|ch];
    try (by eexists _, []; split; [reflexivity|reflexivity]).
  destruct (IH X) as (base & links & -> & Hbase).
  exists base, (links ++ [(sel, args)])%list. split; [|done].
  by rewrite chainOn_snoc.
Qed.

(** ** The validator argument extractor *)

Lemma extractArgs_omap args : extractArgs args = omap argToken args.
Proof.
  induction args as [|a args IH]; [done|].
  destruct a; simpl; by rewrite ?IH.
Qed.

Lemma extractValidators_loop_base base acc :
  isCallOnSelector base = false -> extractValidators_loop base acc = acc.
Proof.
  destruct base as [| | | f args | | | |]; try done.
  destruct f; done.
Qed.

Lemma recorded_snoc base l links l' :
  recorded base ((l :: links) ++ [l'])%list = (recorded base (l :: links) ++ [l'])%list.
Proof. simpl. by destruct (isTypeConstructor _ _ _). Qed.

Lemma isTypeConstructor_call m args f a :
  isTypeConstructor m args (CallExpr f a) = false.
Proof. unfold isTypeConstructor. by rewrite andb_false_r. Qed.

Lemma extractValidators_loop_chain base links acc :
  isCallOnSelector base = false ->
  extractValidators_loop (chainOn base links) acc
  = (map toCall (recorded base links) ++ acc)%list.
Proof.
  intros Hbase. revert acc.
  induction links as [|l links IH] using rev_ind; intros acc.
  - simpl. by apply extractValidators_loop_base.
  - rewrite chainOn_snoc. unfold callOn. simpl.
    destruct links as [|l0 links].
    + simpl. destruct (isTypeConstructor _ _ _); simpl.
      * by apply extractValidators_loop_base.
      * rewrite extractValidators_loop_base by done.
        unfold toCall. by rewrite extractArgs_omap.
    + destruct (chainOn_nonempty_is_call base l0 links) as (x & m & a & Hx).
      rewrite Hx, isTypeConstructor_call, <- Hx, IH, recorded_snoc.
      rewrite map_app, <- app_assoc. simpl.
      unfold toCall at 3. by rewrite extractArgs_omap.
Qed.

Lemma extractValidators_chain base links :
  isCallOnSelector base = false ->
  extractValidators (chainOn base links) = map toCall (recorded base links).
Proof.
  intros Hbase. unfold extractValidators.
  rewrite extractValidators_loop_chain by done. apply app_nil_r.
Qed.

(** C5. The validators of a chain [base.m1(args1)...mn(argsn)], where
    [base] is the first node from the outside that is not a call on a
    selector, are the entries of its links from left to right (a leading
    type constructor left out): the walk from the outermost call inwards
    restores the order of the source and stops at [base], whatever is
    below it. *)
Theorem C5_validators_in_source_order (base : Expr) (links : list Link) :
  isCallOnSelector base = false ->
  extractValidators (chainOn base links) = map toCall (recorded base links).
Proof. apply extractValidators_chain. Qed.

(** The chain [validate.String().MinLen(3).MaxLen(30)] gives
    [MinLen(3); MaxLen(30)]. *)
Lemma C5_witness :
  isCallOnSelector (Ident "validate") = false /\
  extractValidators
    (chainOn (Ident "validate")
       [("String", []); ("MinLen", [BasicLit "3"]); ("MaxLen", [BasicLit "30"])])
  = [ {| Method := "MinLen"; Args := ["3"] |}; {| Method := "MaxLen"; Args := ["30"] |} ].
Proof.
  split; [reflexivity|].
  rewrite (C5_validators_in_source_order (Ident "validate")); reflexivity.
Defined.

(** C10. Each recorded call of a validator chain keeps its method name
    and, of its arguments, exactly the basic literals (by their text) and
    the identifiers (by their name) in the order of the call; an argument
    of any other shape is left out, and the text emitted for the call
    lists the kept tokens only. No case of the extractor gives an error:
    it is a total function. *)
Theorem C10_args_literals_and_identifiers (base : Expr) (links : list Link) :
  isCallOnSelector base = false ->
  Forall2
    (fun (v : ValidatorCall) (l : Link) =>
       Method v = fst l /\
       Args v = omap argToken (snd l) /\
       renderValidator v
       = "." ++ fst l ++ "(" ++ strings.Join (omap argToken (snd l)) ", " ++ ")")
    (extractValidators (chainOn base links)) (recorded base links).
Proof.
  intros Hbase. rewrite extractValidators_chain by done.
  apply Forall2_fmap_l, Forall_Forall2_diag, Forall_forall.
  intros l _. unfold renderValidator, toCall. simpl. done.
Qed.

(** A call [validate.String().OneOf("a", other.Name, max, f(1))] keeps
    the literal and the identifier and leaves out the rest. *)
Lemma C10_witness :
  isCallOnSelector (Ident "validate") = false /\
  Forall2
    (fun (v : ValidatorCall) (l : Link) =>
       Method v = fst l /\
       Args v = omap argToken (snd l) /\
       renderValidator v
       = "." ++ fst l ++ "(" ++ strings.Join (omap argToken (snd l)) ", " ++ ")")
    (extractValidators
       (chainOn (Ident "validate")
          [("String", []);
           ("OneOf", [BasicLit "7"; SelectorExpr (Ident "other") "Name"; Ident "max";
                      CallExpr (Ident "f") [BasicLit "1"]])]))
    [("OneOf", [BasicLit "7"; SelectorExpr (Ident "other") "Name"; Ident "max";
                CallExpr (Ident "f") [BasicLit "1"]])].
Proof.
  split; [reflexivity|].
  exact (C10_args_literals_and_identifiers (Ident "validate")
           [("String", []);
            ("OneOf", [BasicLit "7"; SelectorExpr (Ident "other") "Name"; Ident "max";
                       CallExpr (Ident "f") [BasicLit "1"]])] eq_refl).
Defined.

(** ** The chain extractor *)

Lemma findRootCall_chain T rootArgs links :
  findRootCall (chainOn (structRoot T rootArgs) links) = structRoot T rootArgs.
Proof.
  induction links as [|l links IH] using rev_ind; [done|].
  rewrite chainOn_snoc. unfold callOn.
  destruct (chainOn_call_is_call
              (IndexExpr (SelectorExpr (Ident "validate") "Struct") (Ident T))
              rootArgs links) as (f & a & Hx).
  fold (structRoot T rootArgs) in Hx.
  simpl. rewrite Hx. by rewrite <- Hx.
Qed.

Lemma collectFields_chain T rootArgs links acc :
  collectFields (chainOn (structRoot T rootArgs) links) acc
  = (omap fieldOfLink links ++ acc)%list.
Proof.
  revert acc. induction links as [|l links IH] using rev_ind; intros acc; [done|].
  rewrite chainOn_snoc, omap_app, <- app_assoc. unfold callOn.
  destruct (chainOn_call_is_call
              (IndexExpr (SelectorExpr (Ident "validate") "Struct") (Ident T))
              rootArgs links) as (f & a & Hx).
  fold (structRoot T rootArgs) in Hx.
  simpl. rewrite Hx, <- Hx, IH. f_equal.
  unfold fieldOfLink, extractFieldValidation.
  destruct (String.eqb (fst l) "Field"); [|done].
  by destruct (fieldFromArgs (snd l)).
Qed.

Lemma rootTypeName_structRoot T rootArgs :
  rootTypeName (structRoot T rootArgs) = Some T.
Proof. done. Qed.

Lemma extractValidationSchema_chain T rootArgs links :
  extractValidationSchema (chainOn (structRoot T rootArgs) links)
  = Some {| TypeName := T; Fields := omap fieldOfLink links |}.
Proof.
  unfold extractValidationSchema.
  destruct (chainOn_call_is_call
              (IndexExpr (SelectorExpr (Ident "validate") "Struct") (Ident T))
              rootArgs links) as (f & a & Hx).
  fold (structRoot T rootArgs) in Hx.
  rewrite Hx, <- Hx, findRootCall_chain, rootTypeName_structRoot.
  by rewrite collectFields_chain, app_nil_r.
Qed.

Lemma omap_fieldLink calls :
  omap fieldOfLink (map fieldLink calls) = omap fieldFromArgs calls.
Proof.
  induction calls as [|c calls IH]; [done|].
  change (omap fieldOfLink (map fieldLink (c :: calls)))
    with (match fieldFromArgs c with
          | Some y => y :: omap fieldOfLink (map fieldLink calls)
          | None => omap fieldOfLink (map fieldLink calls)
          end).
  by rewrite IH.
Qed.

Lemma fieldFromArgs_decl d : fieldFromArgs (fieldDeclArgs d) = Some (fieldOfDecl d).
Proof. done. Qed.

Lemma extractValidationSchema_fieldDecls T rootArgs (decls : list FieldDecl) :
  extractValidationSchema
    (chainOn (structRoot T rootArgs) (map (fun d => fieldLink (fieldDeclArgs d)) decls))
  = Some {| TypeName := T; Fields := map fieldOfDecl decls |}.
Proof.
  rewrite extractValidationSchema_chain. do 2 f_equal.
  induction decls as [|d decls IH]; [done|].
  change (omap fieldOfLink (map (fun d => fieldLink (fieldDeclArgs d)) (d :: decls)))
    with (fieldOfDecl d :: omap fieldOfLink (map (fun d => fieldLink (fieldDeclArgs d)) decls)).
  by rewrite IH.
Qed.

(** C2. The schema of a chain
    [validate.Struct[T]().Field(a, ...).Field(b, ...).Field(c, ...)] of
    field declarations lists the fields in the order of the source,
    [a; b; c]. *)
Theorem C2_fields_in_source_order (T : string) (rootArgs : list Expr)
    (decls : list FieldDecl) :
  extractValidationSchema
    (chainOn (structRoot T rootArgs) (map (fun d => fieldLink (fieldDeclArgs d)) decls))
  = Some {| TypeName := T; Fields := map fieldOfDecl decls |}.
Proof. apply extractValidationSchema_fieldDecls. Qed.

Lemma fieldFromArgs_None args :
  fieldFromArgs args = None <->
  ~ (exists arg0 arg1, args = [arg0; arg1] /\ startsWithReturnOfSelector arg0 = true).
Proof.
  split.
  - intros Hnone (arg0 & arg1 & -> & Hsel).
    destruct arg0 as [| | | | | | ps rs body |]; try done.
    destruct body as [|[rets| |] body]; try done.
    destruct rets as [|[] rets]; done.
  - intros Hno.
    destruct args as [|arg0 [|arg1 [|]]]; try done.
    destruct arg0 as [| | | | | | ps rs body |]; try done.
    destruct body as [|[rets| |] body]; try done.
    destruct rets as [|[] rets]; try done.
    exfalso. apply Hno. by eexists _, _.
Qed.

(** C4, as the code has it. In a chain of [Field] calls on the root
    builder call, a call is dropped, with no error, exactly when it does
    not have two arguments or its first argument is not a function
    literal whose first statement is a return whose first result is a
    selector expression; every other [Field] call of the chain is
    extracted, in the order of the source. *)
Theorem C4_malformed_field_dropped (T : string) (rootArgs : list Expr)
    (calls : list (list Expr)) :
  extractValidationSchema (chainOn (structRoot T rootArgs) (map fieldLink calls))
  = Some {| TypeName := T; Fields := omap fieldFromArgs calls |}
  /\ (forall args,
        fieldFromArgs args = None <->
        ~ (exists arg0 arg1,
              args = [arg0; arg1] /\ startsWithReturnOfSelector arg0 = true)).
Proof.
  split; [|apply fieldFromArgs_None].
  rewrite extractValidationSchema_chain. do 2 f_equal.
  apply omap_fieldLink.
Qed.

(** A [Field] call with three arguments between two field declarations
    is left out; the two are extracted. *)
Example three_arguments_skipped :
  extractValidationSchema
    (chainOn (structRoot "User" [])
       [fieldLink (fieldDeclArgs nameField);
        fieldLink (fieldDeclArgs nameField ++ [Ident "extra"]);
        fieldLink (fieldDeclArgs nameField)])
  = Some {| TypeName := "User"; Fields := [fieldOfDecl nameField; fieldOfDecl nameField] |}.
Proof. reflexivity. Qed.

(** A [Field] call whose first argument is no single-return projection
    is extracted all the same. *)
Lemma C4_counterexample :
  isSingleReturnProjection notSingleReturn = false /\
  extractValidationSchema
    (chainOn (structRoot "User" [])
       [fieldLink [notSingleReturn; CallExpr (SelectorExpr (Ident "validate") "String") []]])
  = Some {| TypeName := "User";
            Fields := [ {| Name := "Name"; Type_ := "string"; Validators := [] |} ] |}.
Proof. split; reflexivity. Qed.

(** ** The scan: type names *)

Section TypeNames.
Context `{strings.Unicode}.

Lemma extractValidationSchema_TypeName value schema :
  extractValidationSchema value = Some schema ->
  rootTypeName (findRootCall value) = Some (TypeName schema).
Proof.
  unfold extractValidationSchema.
  destruct value; try done.
  destruct (rootTypeName _) as [T|]; [|done].
  by intros [= <-].
Qed.

Lemma typeNameFromDoc_empty Doc :
  typeNameFromDoc Doc EmptyString = default EmptyString (docTypeName Doc).
Proof.
  unfold typeNameFromDoc, docTypeName.
  destruct Doc as [[|text ?]|]; try done.
  destruct (strings.Contains text docMarker); [|done].
  destruct (strings.Split text docMarker) as [|? [|part1 ?]]; try done.
  unfold present. by destruct (String.eqb_spec (strings.TrimSpace part1) EmptyString).
Qed.

Lemma docTypeName_nonempty Doc n : docTypeName Doc = Some n -> n <> EmptyString.
Proof.
  unfold docTypeName.
  destruct Doc as [[|text ?]|]; try done.
  destruct (strings.Contains text docMarker); [|done].
  destruct (strings.Split text docMarker) as [|? [|part1 ?]]; try done.
  unfold present. destruct (String.eqb_spec (strings.TrimSpace part1) EmptyString); [done|].
  by intros [= <-].
Qed.

(** What the fallbacks of [findValidationSchemas] are written to do:
    the type parameter of the root builder call comes first; for a
    schema whose [TypeName] is empty, the name the doc comment gives
    after the words [validation schema for]; where that is absent too,
    the name of the declared variable with a trailing [Schema] taken
    off; and else the name of the variable as it is. *)
Lemma resolveTypeName_precedence (value : Expr) (schema : ValidationSchema)
    (Doc : option (list string)) (Names : list string) (i : nat) (varName : string) :
  extractValidationSchema value = Some schema ->
  Names !! i = Some varName ->
  rootTypeName (findRootCall value) = Some (TypeName schema) /\
  TypeName (resolveTypeName Doc Names i schema)
  = typeNameByPrecedence (present (TypeName schema)) (docTypeName Doc) varName.
Proof.
  intros Hx Hi. split; [by apply extractValidationSchema_TypeName|].
  unfold resolveTypeName, typeNameByPrecedence, present.
  destruct (String.eqb_spec (TypeName schema) EmptyString) as [->|Hne]; [|done].
  pose proof (lookup_lt_Some _ _ _ Hi) as Hlt.
  apply Nat.ltb_lt in Hlt. rewrite Hlt. simpl.
  rewrite typeNameFromDoc_empty.
  destruct (docTypeName Doc) as [n|] eqn:Hdoc; simpl.
  - apply docTypeName_nonempty in Hdoc.
    by destruct (String.eqb_spec n EmptyString).
  - unfold typeNameFromVar. by rewrite (nth_lookup_Some _ _ _ _ Hi).
Qed.

Lemma findRootCall_untyped rootArgs links :
  findRootCall (chainOn (untypedRoot rootArgs) links) = untypedRoot rootArgs.
Proof.
  induction links as [|l links IH] using rev_ind; [done|].
  rewrite chainOn_snoc. unfold callOn.
  destruct (chainOn_call_is_call (SelectorExpr (Ident "validate") "Struct")
              rootArgs links) as (f & a & Hx).
  fold (untypedRoot rootArgs) in Hx.
  simpl. rewrite Hx. by rewrite <- Hx.
Qed.

Lemma extractValidationSchema_untyped rootArgs links :
  extractValidationSchema (chainOn (untypedRoot rootArgs) links) = None.
Proof.
  unfold extractValidationSchema.
  destruct (chainOn_call_is_call (SelectorExpr (Ident "validate") "Struct")
              rootArgs links) as (f & a & Hx).
  fold (untypedRoot rootArgs) in Hx.
  by rewrite Hx, <- Hx, findRootCall_untyped.
Qed.

(** The fallbacks are never reached for a schema whose type parameter
    is a name that is not empty: the doc comment and the name of the
    variable are not looked at. *)
Lemma resolveTypeName_typed (Doc : option (list string)) (Names : list string) (i : nat)
    (schema : ValidationSchema) :
  TypeName schema <> EmptyString ->
  resolveTypeName Doc Names i schema = schema.
Proof.
  intros Hne. unfold resolveTypeName.
  by destruct (String.eqb_spec (TypeName schema) EmptyString).
Qed.

End TypeNames.

(** ** The scan: which declarations, in which order *)

Section ScanOrder.
Context `{strings.Unicode}.

Lemma scanValues_app Doc Names i values schemas :
  scanValues Doc Names i values schemas
  = (schemas ++ schemasOfValues Doc Names i values)%list.
Proof.
  revert i schemas. induction values as [|v values IH]; intros i schemas; simpl.
  - by rewrite app_nil_r.
  - rewrite IH. destruct (extractValidationSchema v); [|done].
    by rewrite <- app_assoc.
Qed.

Lemma scanSpecs_app Doc specs schemas :
  scanSpecs Doc specs schemas
  = (schemas ++ flat_map (schemasOfSpec Doc) specs)%list.
Proof.
  revert schemas. induction specs as [|spec specs IH]; intros schemas; simpl.
  - by rewrite app_nil_r.
  - destruct spec; rewrite IH; simpl; [done| |done].
    by rewrite scanValues_app, <- app_assoc.
Qed.

Lemma visit_decl d schemas :
  visit (NDecl d) schemas
  = (true, (schemas ++ flat_map schemasOfDecl (if match d with GenDecl _ VAR _ => true | _ => false end then [d] else []))%list).
Proof.
  destruct d as [Doc [] Specs|]; simpl; rewrite ?app_nil_r; try done.
  by rewrite scanSpecs_app.
Qed.

Lemma walkList_app {A : Set} (walk : A -> list ValidationSchema -> list ValidationSchema)
    (decls : A -> list Decl) (l : list A) :
  list_all A (fun a => forall st, walk a st = (st ++ flat_map schemasOfDecl (decls a))%list) l ->
  forall st,
    walkList walk l st = (st ++ flat_map schemasOfDecl (flat_map decls l))%list.
Proof.
  induction 1 as [|a Ha l _ IH]; intros st; simpl.
  - by rewrite app_nil_r.
  - unfold walkList in *. simpl. rewrite Ha, IH, flat_map_app. by rewrite <- app_assoc.
Qed.

Lemma walkOptList_app {A : Set} (walk : A -> list ValidationSchema -> list ValidationSchema)
    (decls : A -> list Decl) (o : option (list A)) :
  option_all (list A)
    (list_all A (fun a => forall st, walk a st = (st ++ flat_map schemasOfDecl (decls a))%list)) o ->
  forall st,
    walkOpt (walkList walk) o st
    = (st ++ flat_map schemasOfDecl (optList (flat_map decls) o))%list.
Proof.
  destruct 1 as [l Hl|]; intros st; simpl.
  - by apply walkList_app.
  - by rewrite app_nil_r.
Qed.

Lemma walkOpt_app {A : Set} (walk : A -> list ValidationSchema -> list ValidationSchema)
    (decls : A -> list Decl) (o : option A) :
  option_all A (fun a => forall st, walk a st = (st ++ flat_map schemasOfDecl (decls a))%list) o ->
  forall st,
    walkOpt walk o st = (st ++ flat_map schemasOfDecl (optList decls o))%list.
Proof.
  destruct 1 as [a Ha|]; intros st; simpl; [done|]. by rewrite app_nil_r.
Qed.

Ltac walk_step :=
  repeat match goal with
    | IH : list_all _ _ _ |- _ => rewrite (walkList_app _ _ _ IH)
    | IH : option_all _ _ _ |- _ =>
        first [rewrite (walkOptList_app _ _ _ IH) | rewrite (walkOpt_app _ _ _ IH)]
    | IH : forall st, _ = _ |- _ => rewrite IH
    end;
  rewrite ?flat_map_app, ?app_nil_r, <- ?app_assoc; try done.

Lemma Walk_visit :
  (forall e st, WalkExpr visit e st = (st ++ flat_map schemasOfDecl (varDeclsExpr e))%list) /\
  (forall fd st, WalkField visit fd st = (st ++ flat_map schemasOfDecl (varDeclsField fd))%list) /\
  (forall s st, WalkStmt visit s st = (st ++ flat_map schemasOfDecl (varDeclsStmt s))%list) /\
  (forall d st, WalkDecl visit d st = (st ++ flat_map schemasOfDecl (varDeclsDecl d))%list) /\
  (forall s st, WalkSpec visit s st = (st ++ flat_map schemasOfDecl (varDeclsSpec s))%list) /\
  (forall n st, WalkNode visit n st = (st ++ flat_map schemasOfDecl (varDeclsNode n))%list).
Proof.
  apply ast_mutind; intros;
    try (simpl; by walk_step).
  all: simpl; walk_step.
  destruct Tok; simpl; rewrite ?scanSpecs_app; by walk_step.
Qed.

(** The schemas of a file are those of its [var] declarations, whether
    at the top level or nested, in the order of the source. *)
Lemma findValidationSchemas_varDecls f :
  findValidationSchemas f = flat_map schemasOfDecl (varDecls f).
Proof.
  unfold findValidationSchemas, InspectFile, varDecls.
  destruct Walk_visit as (_ & _ & _ & Hd & _).
  rewrite (walkList_app (WalkDecl visit) varDeclsDecl); [done|].
  induction (Decls f); constructor; auto.
Qed.

Lemma topLevel_sublist f : sublist (topLevelVarDecls f) (varDecls f).
Proof.
  unfold topLevelVarDecls, varDecls.
  induction (Decls f) as [|d ds IH]; [done|].
  simpl. destruct d as [Doc [] Specs|]; simpl;
    try (by apply sublist_inserts_l).
  apply sublist_skip. by apply sublist_inserts_l.
Qed.

(** C9, as the code has it. The schemas of a file are those of all its
    [var] declarations with initializers that match the chain grammar,
    those at the top level and those nested at any depth (in a function
    body, in a function literal), in the order in which the walk meets
    the declarations, which is the order of the source; within a
    declaration in the order of its specs and initializers. The
    declarations of the top level are among them, in their order. *)
Theorem C9_scan_scope_and_order (f : File) :
  findValidationSchemas f = flat_map schemasOfDecl (varDecls f) /\
  sublist (topLevelVarDecls f) (varDecls f).
Proof. split; [apply findValidationSchemas_varDecls | apply topLevel_sublist]. Qed.
End ScanOrder.

(** A declaration in the body of a function is no declaration of the top
    level, and its schema is found. *)
Lemma C9_counterexample :
  topLevelVarDecls nestedVarFile = [] /\
  @findValidationSchemas asciiTables nestedVarFile
  = [ {| TypeName := "User"; Fields := [] |} ].
Proof. split; reflexivity. Qed.

(** ** Paths *)

Lemma string_append_assoc (a b c : string) : (a ++ b) ++ c = a ++ b ++ c.
Proof.
  induction a as [|x a IH]; [done|].
  change (String x ((a ++ b) ++ c) = String x (a ++ b ++ c)). by rewrite IH.
Qed.

Lemma string_append_nil_r (a : string) : a ++ EmptyString = a.
Proof.
  induction a as [|x a IH]; [done|].
  change (String x (a ++ EmptyString) = String x a). by rewrite IH.
Qed.

Lemma Split_from_noSlash e rest piece :
  filepath.noSlash e = true ->
  strings.Split_from "/" (e ++ rest) 0 piece = strings.Split_from "/" rest 0 (piece ++ e).
Proof.
  revert piece. induction e as [|c e IH]; intros piece Hns.
  - by rewrite string_append_nil_r.
  - simpl in Hns. apply andb_true_iff in Hns as [Hc Hns].
    change (String c e ++ rest) with (String c (e ++ rest)).
    cbn [strings.Split_from String.prefix].
    destruct (ascii_dec "/" c) as [<-|_]; [done|].
    rewrite (IH _ Hns), string_append_assoc. done.
Qed.

Lemma Split_from_slash rest piece :
  strings.Split_from "/" ("/" ++ rest) 0 piece
  = piece :: strings.Split_from "/" rest 0 EmptyString.
Proof.
  change ("/" ++ rest) with (String "/" rest).
  cbn [strings.Split_from String.prefix].
  destruct (ascii_dec "/" "/"); [|done]. by destruct rest.
Qed.

Lemma Split_from_Join e elems piece :
  filepath.noSlash e = true ->
  Forall (fun x => filepath.noSlash x = true) elems ->
  strings.Split_from "/" (strings.Join (e :: elems) "/") 0 piece = (piece ++ e) :: elems.
Proof.
  revert e piece. induction elems as [|e2 elems IH]; intros e piece He Hall.
  - cbn [strings.Join]. rewrite <- (string_append_nil_r e) at 1.
    by rewrite Split_from_noSlash.
  - apply Forall_cons in Hall as [He2 Hall].
    change (strings.Join (e :: e2 :: elems) "/")
      with (e ++ "/" ++ strings.Join (e2 :: elems) "/").
    rewrite (Split_from_noSlash _ _ _ He), Split_from_slash, (IH _ _ He2 Hall). done.
Qed.

Lemma Join_snoc e elems x sep :
  strings.Join ((e :: elems) ++ [x]) sep = strings.Join (e :: elems) sep ++ sep ++ x.
Proof.
  revert e. induction elems as [|e2 elems IH]; intros e; [done|].
  change (strings.Join ((e :: e2 :: elems) ++ [x]) sep)
    with (e ++ sep ++ strings.Join ((e2 :: elems) ++ [x]) sep).
  rewrite IH.
  change (strings.Join (e :: e2 :: elems) sep)
    with (e ++ sep ++ strings.Join (e2 :: elems) sep).
  by rewrite !string_append_assoc.
Qed.

Lemma plainElem_noSlash e : filepath.plainElem e = true -> filepath.noSlash e = true.
Proof. unfold filepath.plainElem. by intros (_ & ?)%andb_true_iff. Qed.

Lemma cleanStep_plain rooted out e :
  filepath.plainElem e = true -> filepath.cleanStep rooted out e = e :: out.
Proof.
  unfold filepath.plainElem, filepath.cleanStep.
  intros (((H1 & H2)%andb_true_iff & H3)%andb_true_iff & _)%andb_true_iff.
  apply negb_true_iff in H1, H2, H3. by rewrite H1, H2, H3.
Qed.

Lemma fold_cleanStep_plain rooted elems out :
  Forall (fun x => filepath.plainElem x = true) elems ->
  List.fold_left (filepath.cleanStep rooted) elems out = (List.rev elems ++ out)%list.
Proof.
  revert out. induction elems as [|e elems IH]; intros out Hall; [done|].
  apply Forall_cons in Hall as [He Hall].
  simpl. rewrite (cleanStep_plain _ _ _ He), (IH _ Hall). by rewrite <- app_assoc.
Qed.

Lemma plainElem_head e :
  filepath.plainElem e = true ->
  exists c e', e = String c e' /\ c <> "/"%char.
Proof.
  destruct e as [|c e']; [done|]. intros Hp%plainElem_noSlash.
  simpl in Hp. apply andb_true_iff in Hp as [Hc _].
  exists c, e'. split; [done|]. intros ->. done.
Qed.

Lemma prefix_slash s : String.prefix "/" (String "/" s) = true.
Proof. cbn [String.prefix]. destruct (ascii_dec "/" "/"); [|done]. by destruct s. Qed.

Lemma prefix_slash_other c s : c <> "/"%char -> String.prefix "/" (String c s) = false.
Proof.
  intros Hc. cbn [String.prefix]. destruct (ascii_dec "/" c) as [Heq|]; [|done].
  by destruct Hc.
Qed.

(** [Clean] leaves a path of plain elements as it is. *)
Lemma Clean_plain rooted e elems :
  Forall (fun x => filepath.plainElem x = true) (e :: elems) ->
  filepath.Clean (filepath.ofElems rooted (e :: elems)) = filepath.ofElems rooted (e :: elems).
Proof.
  intros Hall.
  assert (Hns : Forall (fun x => filepath.noSlash x = true) (e :: elems))
    by (eapply Forall_impl; [exact Hall|]; apply plainElem_noSlash).
  pose proof Hall as [He _]%Forall_cons. pose proof Hns as [Hens Hns']%Forall_cons.
  destruct (plainElem_head _ He) as (c & e' & -> & Hc).
  assert (Hj : exists r, strings.Join (String c e' :: elems) "/" = String c r).
  { destruct elems as [|e2 elems]; [by exists e'|].
    exists (e' ++ "/" ++ strings.Join (e2 :: elems) "/"). reflexivity. }
  destruct Hj as [r Hj].
  unfold filepath.Clean, filepath.ofElems, strings.Split.
  destruct rooted.
  - change ("/" ++ strings.Join (String c e' :: elems) "/")
      with (String "/" (strings.Join (String c e' :: elems) "/")).
    rewrite prefix_slash.
    change (String.eqb (String "/" (strings.Join (String c e' :: elems) "/")) EmptyString)
      with false.
    cbv iota.
    change (String "/" (strings.Join (String c e' :: elems) "/"))
      with ("/" ++ strings.Join (String c e' :: elems) "/").
    rewrite Split_from_slash, (Split_from_Join _ _ _ Hens Hns').
    change (EmptyString ++ String c e') with (String c e').
    change (List.fold_left (filepath.cleanStep true)
              (EmptyString :: String c e' :: elems) [])
      with (List.fold_left (filepath.cleanStep true) (String c e' :: elems) []).
    by rewrite (fold_cleanStep_plain _ _ _ Hall), app_nil_r, rev_involutive.
  - change (EmptyString ++ strings.Join (String c e' :: elems) "/")
      with (strings.Join (String c e' :: elems) "/").
    rewrite (Split_from_Join _ _ _ Hens Hns').
    change (EmptyString ++ String c e') with (String c e').
    rewrite (fold_cleanStep_plain _ _ _ Hall), app_nil_r, rev_involutive.
    rewrite Hj, (prefix_slash_other _ _ Hc). done.
Qed.

(** For a directory of plain elements and a plain file name,
    [filepath.Join] is the two with a separator between them. *)
Lemma Join_plain rooted elems name :
  elems <> [] ->
  Forall (fun x => filepath.plainElem x = true) (elems ++ [name]) ->
  filepath.Join (filepath.ofElems rooted elems) name
  = filepath.ofElems rooted elems ++ "/" ++ name.
Proof.
  intros Hne Hall. destruct elems as [|e elems]; [done|].
  assert (Heq : filepath.ofElems rooted (e :: elems) ++ "/" ++ name
                = filepath.ofElems rooted ((e :: elems) ++ [name])).
  { unfold filepath.ofElems. by rewrite Join_snoc, string_append_assoc. }
  pose proof Hall as [He _]%Forall_cons.
  destruct (plainElem_head _ He) as (c & e' & -> & Hc).
  unfold filepath.Join.
  assert (Hd : String.eqb (filepath.ofElems rooted (String c e' :: elems)) EmptyString = false).
  { unfold filepath.ofElems. destruct rooted; [done|]. by destruct elems. }
  rewrite Hd. cbn [negb]. rewrite Heq.
  change ((String c e' :: elems) ++ [name])%list with (String c e' :: (elems ++ [name]))%list.
  apply Clean_plain. exact Hall.
Qed.

(** ** Generation *)

Section Generation.
Context `{strings.Unicode}.

Lemma schemasOfValues_none Doc Names i values :
  (forall value, In value values -> extractValidationSchema value = None) ->
  schemasOfValues Doc Names i values = [].
Proof.
  revert i. induction values as [|v values IH]; intros i Hnone; [done|].
  simpl. rewrite (Hnone v) by (by left). apply IH. intros. apply Hnone. by right.
Qed.

Lemma schemasOfDecl_none d :
  (forall value, In value (initializers d) -> extractValidationSchema value = None) ->
  schemasOfDecl d = [].
Proof.
  destruct d as [Doc [] Specs|]; try done. simpl.
  induction Specs as [|spec Specs IH]; intros Hnone; [done|].
  simpl in *. rewrite IH by (intros; apply Hnone, in_or_app; by right).
  rewrite app_nil_r. destruct spec as [|Names Typ Values|]; try done.
  apply schemasOfValues_none. intros. apply Hnone, in_or_app. by left.
Qed.

Lemma findValidationSchemas_none f :
  (forall d value, In d (varDecls f) -> In value (initializers d) ->
                   extractValidationSchema value = None) ->
  findValidationSchemas f = [].
Proof.
  intros Hnone. rewrite findValidationSchemas_varDecls.
  induction (varDecls f) as [|d ds IH]; [done|].
  simpl. rewrite schemasOfDecl_none by (intros; apply (Hnone d); [by left|done]).
  apply IH. intros d' v ? ?. apply (Hnone d'); [by right|done].
Qed.

Lemma announce_files config f w :
  exists w', announce config f w = (inr tt, w') /\
             files w' = files w /\ dirs w' = dirs w /\
             mkdirErr w' = mkdirErr w /\ createErr w' = createErr w /\
             writeErr w' = writeErr w.
Proof.
  unfold announce. destruct (Verbose config); eexists; (split; [reflexivity|done]).
Qed.

Lemma Generate_parsed config w f :
  parsed w !! InputFile config = Some f ->
  Generate config w
  = (let w' := snd (announce config f w) in
     if (length (findValidationSchemas f) =? 0)%nat
     then (inl (errorString ("no validation schemas found in " ++ InputFile config)), w')
     else generateAll config (findValidationSchemas f) w').
Proof.
  intros Hf. unfold Generate, mbind, IO_bind, bind, wrap, parser.ParseFile.
  rewrite Hf. destruct (announce_files config f w) as (w' & -> & _). simpl.
  by destruct (length _ =? 0)%nat.
Qed.

(** C6. Where the input file parses and none of the initializers of its
    [var] declarations matches the chain grammar, [Generate] returns the
    error "no validation schemas found in ..." and leaves the files and
    the directories as they were. *)
Theorem C6_no_schema_is_error (config : Config) (w : World) (f : File) :
  parsed w !! InputFile config = Some f ->
  (forall d value, In d (varDecls f) -> In value (initializers d) ->
                   extractValidationSchema value = None) ->
  exists w',
    Generate config w
    = (inl (errorString ("no validation schemas found in " ++ InputFile config)), w') /\
    files w' = files w /\ dirs w' = dirs w.
Proof.
  intros Hf Hnone. rewrite (Generate_parsed _ _ _ Hf).
  rewrite findValidationSchemas_none by done. simpl.
  destruct (announce_files config f w) as (w' & -> & Hfiles & Hdirs & _).
  by exists w'.
Qed.

Lemma generateAll_app config pre rest w :
  generateAll config (pre ++ rest)%list w
  = match generateAll config pre w with
    | (inl e, w') => (inl e, w')
    | (inr _, w') => generateAll config rest w'
    end.
Proof.
  revert w. induction pre as [|s pre IH]; intros w; [done|].
  simpl. unfold mbind, IO_bind, bind, wrap.
  destruct (generateValidator config s w) as [[e|[]] w']; [done|]. apply IH.
Qed.

Lemma generateValidator_cases config schema w :
  let out := outFile config schema in
  let text := render (Package config) schema in
  (exists e, os.MkdirAll (OutputDir config) w = (inl e, w) /\
     generateValidator config schema w
     = (inl (Errorf_w "creating output directory: " e), w)) \/
  (exists w1, os.MkdirAll (OutputDir config) w = (inr tt, w1) /\ files w1 = files w /\
     ((exists e, os.Create out w1 = (inl e, w1) /\
         generateValidator config schema w
         = (inl (Errorf_w "creating output file: " e), w1)) \/
      (exists e w3 n, files w3 = <[ out := substring 0 n text ]> (files w) /\
         generateValidator config schema w
         = (inl (Errorf_w "executing template: " e), w3)) \/
      (exists w3, files w3 = <[ out := text ]> (files w) /\
         generateValidator config schema w = (inr tt, w3)))).
Proof.
  intros out text.
  unfold generateValidator, mbind, IO_bind, bind, wrap.
  fold out. fold text.
  unfold os.MkdirAll.
  destruct (String.eqb (OutputDir config) EmptyString).
  { left. eexists. split; reflexivity. }
  destruct (mkdirErr w !! OutputDir config).
  { left. eexists. split; reflexivity. }
  right. eexists. split; [reflexivity|]. split; [done|].
  unfold os.Create. simpl.
  destruct (createErr w !! out).
  { left. eexists. split; reflexivity. }
  right. unfold os.WriteAll. simpl.
  destruct (writeErr w !! out) as [[n msg]|].
  - left. eexists _, _, n. split; [|reflexivity]. simpl. by rewrite insert_insert_eq.
  - right. eexists. split; [|reflexivity]. simpl. by rewrite insert_insert_eq.
Qed.

Lemma generateValidator_frame config schema w r w' :
  generateValidator config schema w = (r, w') ->
  forall p, p <> outFile config schema -> files w' !! p = files w !! p.
Proof.
  intros Hgen p Hp.
  destruct (generateValidator_cases config schema w)
    as [(e & _ & Heq)|(w1 & _ & Hw1 & [(e & _ & Heq)|[(e & w3 & n & Hw3 & Heq)|(w3 & Hw3 & Heq)]])];
    rewrite Heq in Hgen; injection Hgen as <- <-; rewrite ?Hw1, ?Hw3; try done;
    by rewrite lookup_insert_ne.
Qed.

Lemma generateValidator_error_kinds config schema w err w' :
  generateValidator config schema w = (inl err, w') ->
  exists e,
    err = Errorf_w "creating output directory: " e \/
    err = Errorf_w "creating output file: " e \/
    err = Errorf_w "executing template: " e.
Proof.
  intros Hgen.
  destruct (generateValidator_cases config schema w)
    as [(e & _ & Heq)|(w1 & _ & Hw1 & [(e & _ & Heq)|[(e & w3 & n & Hw3 & Heq)|(w3 & Hw3 & Heq)]])];
    rewrite Heq in Hgen; try done; injection Hgen as <- <-; exists e; auto.
Qed.

(** C7. Where the emission of one schema of the run fails, in the making
    of the output directory, in the making of the output file or in the
    rendering, [Generate] returns that error, wrapped with the name of
    the schema, and the world is the one the failed emission left: no
    schema after it is emitted, and every file but the output file of
    the failed schema is as the emissions before it left it. *)
Theorem C7_fail_fast (config : Config) (w : World) (f : File)
    (pre post : list ValidationSchema) (schema : ValidationSchema)
    (w1 w2 : World) (err : error) :
  parsed w !! InputFile config = Some f ->
  findValidationSchemas f = (pre ++ schema :: post)%list ->
  generateAll config pre (snd (announce config f w)) = (inr tt, w1) ->
  generateValidator config schema w1 = (inl err, w2) ->
  Generate config w
  = (inl (Errorf_w ("generating validator for " ++ TypeName schema ++ ": ") err), w2) /\
  (forall p, p <> outFile config schema -> files w2 !! p = files w1 !! p) /\
  (exists e,
      err = Errorf_w "creating output directory: " e \/
      err = Errorf_w "creating output file: " e \/
      err = Errorf_w "executing template: " e).
Proof.
  intros Hf Hs Hpre Hfail. split; [|split].
  - rewrite (Generate_parsed _ _ _ Hf), Hs. simpl.
    replace (length (pre ++ schema :: post) =? 0)%nat with false
      by (symmetry; apply Nat.eqb_neq; rewrite length_app; simpl; lia).
    rewrite generateAll_app, Hpre. simpl.
    unfold mbind, IO_bind, bind, wrap. by rewrite Hfail.
  - by apply (generateValidator_frame _ _ _ _ _ Hfail).
  - by apply (generateValidator_error_kinds _ _ _ _ _ Hfail).
Qed.

(** C8. An emission that succeeds writes one file: the file at the path
    [filepath.Join(OutputDir, strings.ToLower(TypeName) + "_validator.go")]
    holds the rendered text, whatever was at that path before, and every
    other file is as it was. For an output directory of plain path
    elements that path is the directory, a separator and the file name,
    [<output-dir>/<lowercase(TypeName)>_validator.go]. *)
Theorem C8_output_file (config : Config) (schema : ValidationSchema) (w w' : World) :
  generateValidator config schema w = (inr tt, w') ->
  let name := strings.ToLower (TypeName schema) ++ "_validator.go" in
  files w'
  = <[ filepath.Join (OutputDir config) name := render (Package config) schema ]> (files w) /\
  (forall rooted elems,
      elems <> [] ->
      Forall (fun x => filepath.plainElem x = true) (elems ++ [name]) ->
      OutputDir config = filepath.ofElems rooted elems ->
      filepath.Join (OutputDir config) name = OutputDir config ++ "/" ++ name).
Proof.
  intros Hgen name. split.
  - destruct (generateValidator_cases config schema w)
      as [(e & _ & Heq)|(w1 & _ & Hw1 & [(e & _ & Heq)|[(e & w3 & n & Hw3 & Heq)|(w3 & Hw3 & Heq)]])];
      rewrite Heq in Hgen; try done.
    by injection Hgen as <-.
  - intros rooted elems Hne Hall ->. by apply Join_plain.
Qed.
End Generation.

(** ** The emitted source read back *)

Lemma varDeclsExpr_chainOn base links :
  varDeclsExpr (chainOn base links)
  = (varDeclsExpr base ++ flat_map (fun l => flat_map varDeclsExpr (snd l)) links)%list.
Proof.
  induction links as [|l links IH] using rev_ind.
  - simpl. by rewrite app_nil_r.
  - rewrite chainOn_snoc, flat_map_app. unfold callOn. simpl.
    by rewrite IH, app_nil_r, <- app_assoc.
Qed.

Lemma varDeclsExpr_argExpr toks : flat_map varDeclsExpr (map argExpr toks) = [].
Proof.
  induction toks as [|tok toks IH]; [done|].
  simpl. rewrite IH. unfold argExpr. by destruct (startsIdent tok).
Qed.

Lemma varDeclsExpr_emittedValidator ty vs : varDeclsExpr (emittedValidator ty vs) = [].
Proof.
  unfold emittedValidator. rewrite varDeclsExpr_chainOn. simpl.
  induction vs as [|v vs IH]; [done|].
  simpl. by rewrite varDeclsExpr_argExpr.
Qed.

Lemma varDeclsExpr_typeExpr ty : varDeclsExpr (typeExpr ty) = [].
Proof. unfold typeExpr. by destruct (String.eqb ty "interface{}"). Qed.

Lemma varDeclsExpr_emittedChain schema : varDeclsExpr (emittedChain schema) = [].
Proof.
  unfold emittedChain. rewrite varDeclsExpr_chainOn. simpl.
  induction (Fields schema) as [|fld flds IH]; [done|].
  simpl. by rewrite IH, varDeclsExpr_typeExpr, varDeclsExpr_emittedValidator.
Qed.

Lemma toCall_argExpr v : toCall (Method v, map argExpr (Args v)) = v.
Proof.
  destruct v as [m args]. unfold toCall. simpl. f_equal.
  induction args as [|tok args IH]; [done|].
  change (omap argToken (map argExpr (tok :: args)))
    with (match argToken (argExpr tok) with
          | Some y => y :: omap argToken (map argExpr args)
          | None => omap argToken (map argExpr args)
          end).
  rewrite IH. unfold argExpr. by destruct (startsIdent tok).
Qed.

Lemma extractValidators_emitted ty vs :
  extractValidators (emittedValidator ty vs) = (constructorEntry ty ++ vs)%list.
Proof.
  unfold emittedValidator. rewrite extractValidators_chain by done.
  assert (Hvs : map toCall (map (fun v => (Method v, map argExpr (Args v))) vs) = vs).
  { induction vs as [|v vs IH]; [done|]. simpl. by rewrite toCall_argExpr, IH. }
  unfold recorded, constructorEntry. simpl fst. simpl snd.
  destruct (isTypeConstructor (capitalizeFirst ty) [] (Ident "validate")).
  - exact Hvs.
  - change (toCall (capitalizeFirst ty, [])
            :: map toCall (map (fun v => (Method v, map argExpr (Args v))) vs)
            = {| Method := capitalizeFirst ty; Args := [] |} :: vs).
    by rewrite Hvs.
Qed.

Lemma inferFieldType_typeExpr ty :
  inferFieldType (Some [MkField [] (typeExpr ty)]) = ty.
Proof.
  unfold typeExpr. destruct (String.eqb_spec ty "interface{}") as [->|]; done.
Qed.

(** The field an emitted [Field] call is read back as: the field it was
    written from, with the entry of the type constructor in front of the
    validators where the constructor is neither [String] nor [Int]. *)
Lemma fieldFromArgs_emitted T fld :
  fieldFromArgs (emittedFieldArgs T fld)
  = Some {| Name := Name fld; Type_ := Type_ fld;
            Validators := (constructorEntry (Type_ fld) ++ Validators fld)%list |}.
Proof.
  unfold emittedFieldArgs, fieldFromArgs, projection.
  by rewrite inferFieldType_typeExpr, extractValidators_emitted.
Qed.

Lemma extractValidationSchema_emitted schema :
  extractValidationSchema (emittedChain schema)
  = Some {| TypeName := TypeName schema; Fields := map readBack (Fields schema) |}.
Proof.
  unfold emittedChain. rewrite extractValidationSchema_chain. do 2 f_equal.
  rewrite <- (map_map (emittedFieldArgs (TypeName schema)) fieldLink), omap_fieldLink.
  induction (Fields schema) as [|fld flds IH]; [done|].
  change (omap fieldFromArgs (map (emittedFieldArgs (TypeName schema)) (fld :: flds)))
    with (match fieldFromArgs (emittedFieldArgs (TypeName schema) fld) with
          | Some y => y :: omap fieldFromArgs (map (emittedFieldArgs (TypeName schema)) flds)
          | None => omap fieldFromArgs (map (emittedFieldArgs (TypeName schema)) flds)
          end).
  by rewrite fieldFromArgs_emitted, IH.
Qed.

Section ReadBack.
Context `{strings.Unicode}.

Lemma resolveTypeName_emitted T flds :
  resolveTypeName (Some ["// " ++ T ++ "Schema is the validation schema for " ++ T])
    [T ++ "Schema"] 0 {| TypeName := T; Fields := flds |}
  = {| TypeName := T; Fields := flds |}.
Proof.
  unfold resolveTypeName. simpl TypeName.
  destruct (String.eqb_spec T EmptyString) as [->|]; [|done].
  reflexivity.
Qed.

Lemma findValidationSchemas_emitted package schema :
  findValidationSchemas (emittedFile package schema)
  = [ {| TypeName := TypeName schema; Fields := map readBack (Fields schema) |} ].
Proof.
  rewrite findValidationSchemas_varDecls.
  unfold varDecls, emittedFile. simpl.
  rewrite varDeclsExpr_emittedChain. simpl.
  rewrite extractValidationSchema_emitted.
  by rewrite resolveTypeName_emitted.
Qed.
End ReadBack.

(** ** The emitted text is the concrete syntax of the emitted tree *)

Lemma concatMap_snoc {A : Type} (f : A -> string) l x :
  concatMap f (l ++ [x])%list = concatMap f l ++ f x.
Proof.
  induction l as [|y l IH].
  - unfold concatMap. cbn [List.fold_right List.app]. by rewrite string_append_nil_r.
  - change (f y ++ concatMap f (l ++ [x])%list = (f y ++ concatMap f l) ++ f x).
    by rewrite IH, string_append_assoc.
Qed.

Lemma mapM_printExpr_argExpr toks : mapM printExpr (map argExpr toks) = Some toks.
Proof.
  induction toks as [|tok toks IH]; [done|].
  cbn. cbn in IH. rewrite IH.
  unfold argExpr. by destruct (startsIdent tok).
Qed.

Lemma emittedValidator_snoc ty vs v :
  emittedValidator ty (vs ++ [v])%list
  = callOn (emittedValidator ty vs) (Method v, map argExpr (Args v)).
Proof.
  unfold emittedValidator, chainOn.
  rewrite map_app, app_comm_cons, fold_left_app. done.
Qed.

Lemma printExpr_emittedValidator ty vs :
  printExpr (emittedValidator ty vs)
  = Some ("validate." ++ capitalizeFirst ty ++ "()" ++ concatMap renderValidator vs).
Proof.
  induction vs as [|v vs IH] using rev_ind.
  - cbn. by rewrite !string_append_assoc.
  - rewrite emittedValidator_snoc, concatMap_snoc. unfold callOn.
    cbn [printExpr fst snd]. rewrite IH. cbn [mbind option_bind].
    unfold printList. rewrite mapM_printExpr_argExpr. cbn [mbind option_bind].
    unfold renderValidator. by rewrite !string_append_assoc.
Qed.

Lemma typeExpr_simple ty : ty <> "interface{}" -> typeExpr ty = Ident ty.
Proof. unfold typeExpr. by destruct (String.eqb_spec ty "interface{}"). Qed.

Lemma printList_emittedFieldArgs T fld :
  Type_ fld <> "interface{}" ->
  printList printExpr ", " (emittedFieldArgs T fld)
  = Some ("func(v " ++ T ++ ") " ++ Type_ fld ++ " { return v." ++ Name fld ++
          " }, validate." ++ capitalizeFirst (Type_ fld) ++ "()" ++
          concatMap renderValidator (Validators fld)).
Proof.
  intros Hty. unfold printList, emittedFieldArgs, projection.
  rewrite (typeExpr_simple _ Hty).
  cbn [mapM mbind option_bind mret option_ret].
  rewrite printExpr_emittedValidator.
  cbn. by rewrite !string_append_assoc.
Qed.

Lemma emittedChain_snoc T flds fld :
  chainOn (structRoot T [])
    (map (fun fld => fieldLink (emittedFieldArgs T fld)) (flds ++ [fld]))
  = callOn (chainOn (structRoot T [])
              (map (fun fld => fieldLink (emittedFieldArgs T fld)) flds))
      (fieldLink (emittedFieldArgs T fld)).
Proof. unfold chainOn. by rewrite map_app, fold_left_app. Qed.

Lemma printInit_emittedChain T flds :
  Forall (fun fld => Type_ fld <> "interface{}") flds ->
  printInit (chainOn (structRoot T [])
               (map (fun fld => fieldLink (emittedFieldArgs T fld)) flds))
  = Some ("validate.Struct[" ++ T ++ "]()" ++ concatMap (renderField T) flds).
Proof.
  induction flds as [|fld flds IH] using rev_ind; intros Hty.
  - cbn. by rewrite !string_append_assoc.
  - apply Forall_app in Hty as [Hflds Hfld]. apply Forall_inv in Hfld.
    rewrite emittedChain_snoc, concatMap_snoc. unfold callOn.
    destruct (chainOn_call_is_call
                (IndexExpr (SelectorExpr (Ident "validate") "Struct") (Ident T)) []
                (map (fun fld => fieldLink (emittedFieldArgs T fld)) flds))
      as (f & a & Hx).
    fold (structRoot T []) in Hx.
    cbn [printInit fst snd fieldLink]. rewrite Hx, <- Hx, (IH Hflds).
    cbn [mbind option_bind]. rewrite (printList_emittedFieldArgs _ _ Hfld).
    cbn [mbind option_bind]. unfold renderField.
    cbn. by rewrite !string_append_assoc.
Qed.

(** The text of [render] is the concrete syntax of [emittedFile]. *)
Lemma printFile_emitted package schema :
  Forall (fun fld => Type_ fld <> "interface{}") (Fields schema) ->
  printFile (emittedFile package schema) = Some (render package schema).
Proof.
  intros Hty. unfold printFile, emittedFile, render.
  cbn [Decls FileDoc FileName mapM mbind option_bind mret option_ret printDecl
       printSpec printList printField printStmt printExpr printDoc default].
  unfold emittedChain. rewrite (printInit_emittedChain _ _ Hty).
  cbn. by rewrite !string_append_assoc.
Qed.

Lemma argTokens_readBack fld : argTokens (readBack fld) = argTokens fld.
Proof.
  unfold argTokens, readBack, constructorEntry. simpl.
  by destruct (isTypeConstructor _ _ _).
Qed.

Section RoundTrip.
Context `{strings.Unicode}.

(** Let the fields of a schema have simple named types.
    The text emitted for the schema is the concrete syntax of the tree
    [emittedFile], and the schemas extracted from that tree are one
    schema, of the same type name, with the same number of fields in the
    same order, each with the field name, the field type and the
    validator argument tokens of the field it was emitted from: its
    validators are those of that field, after the entry of the emitted
    type constructor, which has no argument, where the type is neither
    [string] nor [int]. (The tokens of an extracted schema are the
    literals and identifiers of the source, which are all the arguments
    where the source has no other: [roundtrip_from_source].) *)
Lemma emitted_roundtrip (package : string) (schema : ValidationSchema) :
  Forall (fun fld => Type_ fld <> "interface{}") (Fields schema) ->
  printFile (emittedFile package schema) = Some (render package schema) /\
  exists schema',
    findValidationSchemas (emittedFile package schema) = [schema'] /\
    TypeName schema' = TypeName schema /\
    Forall2
      (fun f' f =>
         Name f' = Name f /\ Type_ f' = Type_ f /\ argTokens f' = argTokens f /\
         Validators f' = (constructorEntry (Type_ f) ++ Validators f)%list)
      (Fields schema') (Fields schema).
Proof.
  intros Hty. split; [by apply printFile_emitted|].
  eexists. split; [apply findValidationSchemas_emitted|]. split; [done|].
  simpl. apply Forall2_fmap_l, Forall_Forall2_diag, Forall_forall.
  intros fld _. split; [done|]. split; [done|]. split; [|done].
  apply argTokens_readBack.
Qed.
End RoundTrip.

(** ** The round trip from the source *)

Lemma validatorArgs_base base :
  isCallOnSelector base = false -> validatorArgs base = [].
Proof.
  destruct base as [| | | f args | | | |]; try done. by destruct f.
Qed.

Lemma validatorArgs_chainOn base links :
  isCallOnSelector base = false ->
  validatorArgs (chainOn base links) = concat (map snd links).
Proof.
  intros Hbase. induction links as [|l links IH] using rev_ind.
  - by apply validatorArgs_base.
  - rewrite chainOn_snoc, map_app, concat_app. unfold callOn. simpl.
    by rewrite IH, app_nil_r.
Qed.

Lemma concat_recorded base links :
  concat (map snd (recorded base links)) = concat (map snd links).
Proof.
  destruct links as [|l links]; [done|]. simpl.
  destruct (isTypeConstructor (fst l) (snd l) base) eqn:Hc; [|done].
  unfold isTypeConstructor in Hc.
  apply andb_true_iff in Hc as [[_ Hlen]%andb_true_iff _].
  apply Nat.eqb_eq in Hlen. by destruct (snd l).
Qed.

Lemma omap_concat_args (links : list Link) :
  concat (map Args (map toCall links)) = omap argToken (concat (map snd links)).
Proof.
  induction links as [|l links IH]; [done|].
  simpl. by rewrite omap_app, IH.
Qed.

(** The argument tokens recorded for a validator expression are the
    tokens of the literals and identifiers among all its arguments. *)
Lemma argTokens_extractValidators e :
  concat (map Args (extractValidators e)) = omap argToken (validatorArgs e).
Proof.
  destruct (chain_decomposition e) as (base & links & -> & Hbase).
  rewrite extractValidators_chain, validatorArgs_chainOn by done.
  by rewrite omap_concat_args, concat_recorded.
Qed.

Lemma omap_all_Some {A B : Type} (f : A -> option B) (l : list A) :
  Forall (fun a => is_Some (f a)) l -> map Some (omap f l) = map f l.
Proof.
  induction 1 as [|a l [b Hb] _ IH]; [done|].
  change (omap f (a :: l)) with (match f a with Some y => y :: omap f l | None => omap f l end).
  rewrite Hb. simpl. by rewrite IH, Hb.
Qed.

Section FromSource.
Context `{strings.Unicode}.

(** From the source to the schema read back: for a chain of field
    declarations whose validator arguments are all literals or
    identifiers, the schema extracted from the emitted tree has, field by
    field, the name, the declared type and all the validator arguments
    of the source. *)
Lemma roundtrip_from_source package T rootArgs (decls : list FieldDecl) :
  Forall (fun d => Forall (fun a => is_Some (argToken a)) (validatorArgs (fdValidator d)))
    decls ->
  exists schema schema',
    extractValidationSchema
      (chainOn (structRoot T rootArgs) (map (fun d => fieldLink (fieldDeclArgs d)) decls))
    = Some schema /\
    findValidationSchemas (emittedFile package schema) = [schema'] /\
    Forall2
      (fun f' d =>
         Name f' = fdName d /\ Type_ f' = fdType d /\
         map Some (argTokens f') = map argToken (validatorArgs (fdValidator d)))
      (Fields schema') decls.
Proof.
  intros Hargs. eexists _, _.
  split; [apply extractValidationSchema_fieldDecls|].
  split; [apply findValidationSchemas_emitted|].
  simpl. rewrite map_map. apply Forall2_fmap_l, Forall_Forall2_diag.
  eapply Forall_impl; [exact Hargs|].
  intros d Hd. split; [done|]. split; [done|].
  rewrite argTokens_readBack. unfold argTokens, fieldOfDecl. simpl.
  rewrite argTokens_extractValidators. by apply omap_all_Some.
Qed.
End FromSource.

(** The sample schema is the schema of the sample source. *)
Example accountSchema_extracted :
  @findValidationSchemas asciiTables accountSource = [accountSchema].
Proof. reflexivity. Qed.

(** * Further properties *)

(** ** The claims the code does not keep *)

Section NotKept.
Context `{strings.Unicode}.

(** C1. The round trip does not give the fields back for a field whose
    type is neither [string] nor [int]. The source [accountSource] holds
    the chain [validate.Bool().Required()] for the field [Active], and
    the schema extracted from it records [Bool] and [Required]; the text
    emitted for that schema holds [validate.Bool().Bool().Required()],
    since the template writes the constructor of the type in front of
    every recorded chain and the extractor leaves out the constructors
    [String] and [Int] only; the schema extracted from the emitted
    source records [Bool], [Bool] and [Required], and is not the schema
    that was emitted. Names, types and argument tokens are the same. *)
Theorem C1_constructor_emitted_twice :
  findValidationSchemas accountSource = [accountSchema] /\
  render "models" accountSchema = accountText /\
  findValidationSchemas accountTextFile = [accountReread] /\
  accountReread <> accountSchema /\
  map Validators (Fields accountSchema)
  = [[ {| Method := "MinLen"; Args := ["3"] |};
       {| Method := "OneOf"; Args := ["admin"; "0x10"] |} ];
     [ {| Method := "Bool"; Args := [] |};
       {| Method := "Required"; Args := [] |} ]] /\
  map Validators (Fields accountReread)
  = [[ {| Method := "MinLen"; Args := ["3"] |};
       {| Method := "OneOf"; Args := ["admin"; "0x10"] |} ];
     [ {| Method := "Bool"; Args := [] |};
       {| Method := "Bool"; Args := [] |};
       {| Method := "Required"; Args := [] |} ]] /\
  map Name (Fields accountReread) = map Name (Fields accountSchema) /\
  map Type_ (Fields accountReread) = map Type_ (Fields accountSchema) /\
  map argTokens (Fields accountReread) = map argTokens (Fields accountSchema).
Proof.
  split; [reflexivity|]. split; [vm_compute; reflexivity|].
  split; [reflexivity|]. split; [discriminate|].
  repeat split; reflexivity.
Qed.

(** C3. A declaration whose root builder call has no type parameter is
    not recognized at all: [extractValidationSchema] returns nothing
    for every chain on [validate.Struct(...)], so the doc comment and
    the name of the variable, which [findValidationSchemas] looks at for
    a schema with no type name, are never looked at. The file with the
    doc comment [validation schema for Order] gives no schema and no
    type name [Order], the file with the variable [AccountSchema] gives
    no schema and no type name [Account], and the run on either ends
    with the error that no schema was found. *)
Theorem C3_fallback_unreachable :
  (forall rootArgs links,
      extractValidationSchema (chainOn (untypedRoot rootArgs) links) = None) /\
  findValidationSchemas orderRulesFile = [] /\
  findValidationSchemas accountRulesFile = [] /\
  Generate sampleConfig (worldOf orderRulesFile)
  = (inl (errorString "no validation schemas found in models/schema.go"),
     worldOf orderRulesFile) /\
  Generate sampleConfig (worldOf accountRulesFile)
  = (inl (errorString "no validation schemas found in models/schema.go"),
     worldOf accountRulesFile).
Proof.
  split; [apply extractValidationSchema_untyped|].
  assert (Horder : findValidationSchemas orderRulesFile = []) by reflexivity.
  assert (Haccount : findValidationSchemas accountRulesFile = []) by reflexivity.
  split; [exact Horder|]. split; [exact Haccount|]. split.
  - rewrite (Generate_parsed sampleConfig (worldOf orderRulesFile) orderRulesFile eq_refl).
    by rewrite Horder.
  - rewrite (Generate_parsed sampleConfig (worldOf accountRulesFile) accountRulesFile eq_refl).
    by rewrite Haccount.
Qed.
End NotKept.

(** ** The emission of a whole run *)

Section Runs.
Context `{strings.Unicode}.

Lemma sameEnv_refl w : sameEnv w w.
Proof. by repeat split. Qed.

Lemma sameEnv_trans w1 w2 w3 : sameEnv w1 w2 -> sameEnv w2 w3 -> sameEnv w1 w3.
Proof.
  intros (?&?&?&?) (?&?&?&?). repeat split; congruence.
Qed.

Lemma generateValidator_ok config schema w :
  OutputDir config <> EmptyString ->
  mkdirErr w !! OutputDir config = None ->
  createErr w !! outFile config schema = None ->
  writeErr w !! outFile config schema = None ->
  exists w',
    generateValidator config schema w = (inr tt, w') /\
    files w' = <[ outFile config schema := render (Package config) schema ]> (files w) /\
    dirs w' = {[ OutputDir config ]} ∪ dirs w /\
    stdout w' = stdout w /\ sameEnv w w'.
Proof.
  intros Hdir Hmk Hcr Hwr.
  unfold generateValidator, mbind, IO_bind, bind, wrap, os.MkdirAll, os.Create, os.WriteAll.
  destruct (String.eqb_spec (OutputDir config) EmptyString) as [|_]; [done|].
  rewrite Hmk. simpl. rewrite Hcr. simpl. rewrite Hwr.
  eexists. split; [reflexivity|]. simpl.
  rewrite insert_insert_eq. by repeat split.
Qed.

Lemma generateValidator_ok_inv config schema w w' :
  generateValidator config schema w = (inr tt, w') ->
  OutputDir config <> EmptyString /\
  mkdirErr w !! OutputDir config = None /\
  createErr w !! outFile config schema = None /\
  writeErr w !! outFile config schema = None.
Proof.
  unfold generateValidator, mbind, IO_bind, bind, wrap, os.MkdirAll, os.Create, os.WriteAll.
  destruct (String.eqb_spec (OutputDir config) EmptyString) as [|Hdir]; [done|].
  destruct (mkdirErr w !! OutputDir config) eqn:Hmk; [done|]. simpl.
  destruct (createErr w !! outFile config schema) eqn:Hcr; [done|]. simpl.
  destruct (writeErr w !! outFile config schema) as [[n msg]|] eqn:Hwr; [done|].
  done.
Qed.

Lemma generateValidator_sameEnv config schema w r w' :
  generateValidator config schema w = (r, w') -> sameEnv w w' /\ stdout w' = stdout w.
Proof.
  unfold generateValidator, mbind, IO_bind, bind, wrap, os.MkdirAll, os.Create, os.WriteAll.
  destruct (String.eqb (OutputDir config) EmptyString); [by intros [= <- <-]|].
  destruct (mkdirErr w !! OutputDir config); [by intros [= <- <-]|]. simpl.
  destruct (createErr w !! outFile config schema); [by intros [= <- <-]|]. simpl.
  destruct (writeErr w !! outFile config schema) as [[n msg]|]; by intros [= <- <-].
Qed.

Lemma faultFree_sameEnv config schemas w w' :
  sameEnv w w' -> faultFree config schemas w -> faultFree config schemas w'.
Proof.
  intros (_ & Hmk & Hcr & Hwr) (Hdir & Hm & Hall).
  split; [done|]. split; [by rewrite Hmk|].
  eapply Forall_impl; [exact Hall|]. intros s [? ?]. by rewrite Hcr, Hwr.
Qed.

Lemma generateAll_ok config schemas w :
  faultFree config schemas w ->
  exists w',
    generateAll config schemas w = (inr tt, w') /\
    files w' = emitInto config (files w) schemas /\
    dirs w' = match schemas with
              | [] => dirs w
              | _ :: _ => {[ OutputDir config ]} ∪ dirs w
              end /\
    stdout w' = stdout w /\ sameEnv w w'.
Proof.
  revert w. induction schemas as [|s schemas IH]; intros w Hff.
  - exists w. repeat split; done.
  - destruct Hff as (Hdir & Hmk & Hall). apply Forall_cons in Hall as [[Hcr Hwr] Hall].
    destruct (generateValidator_ok config s w Hdir Hmk Hcr Hwr)
      as (w1 & Hgen & Hfiles & Hdirs & Hout & Henv).
    destruct (IH w1) as (w' & Hall' & Hfiles' & Hdirs' & Hout' & Henv').
    { apply (faultFree_sameEnv _ _ w); [done|]. by repeat split. }
    exists w'. simpl. unfold mbind, IO_bind, bind, wrap. rewrite Hgen.
    split; [exact Hall'|]. split; [by rewrite Hfiles', Hfiles|].
    split; [|split; [congruence|by eapply sameEnv_trans]].
    rewrite Hdirs', Hdirs. destruct schemas; [done|].
    by rewrite (assoc_L (∪)), (idemp_L (∪)).
Qed.

Lemma generateAll_ok_inv config schemas w w' :
  generateAll config schemas w = (inr tt, w') -> schemas <> [] ->
  faultFree config schemas w.
Proof.
  revert w. induction schemas as [|s schemas IH]; intros w Hgen Hne; [done|].
  simpl in Hgen. unfold mbind, IO_bind, bind, wrap in Hgen.
  destruct (generateValidator config s w) as [[e|[]] w1] eqn:Hs; [done|].
  destruct (generateValidator_ok_inv _ _ _ _ Hs) as (Hdir & Hmk & Hcr & Hwr).
  split; [done|]. split; [done|]. constructor; [done|].
  destruct schemas as [|s2 schemas]; [constructor|].
  destruct (generateValidator_sameEnv _ _ _ _ _ Hs) as [(Hp & Hm & Hc & Hw) _].
  destruct (IH w1 Hgen) as (_ & _ & Hall); [done|].
  eapply Forall_impl; [exact Hall|]. intros x [? ?]. by rewrite <- Hc, <- Hw.
Qed.

Lemma emitInto_snoc config fs schemas schema :
  emitInto config fs (schemas ++ [schema])
  = <[ outFile config schema := render (Package config) schema ]> (emitInto config fs schemas).
Proof. unfold emitInto. by rewrite fold_left_app. Qed.

Lemma lastRender_snoc config p schemas schema :
  lastRender config p (schemas ++ [schema])
  = if String.eqb (outFile config schema) p
    then Some (render (Package config) schema) else lastRender config p schemas.
Proof. unfold lastRender. by rewrite fold_left_app. Qed.

Lemma emitInto_lookup config fs schemas p :
  emitInto config fs schemas !! p
  = match lastRender config p schemas with
    | Some text => Some text
    | None => fs !! p
    end.
Proof.
  induction schemas as [|s schemas IH] using rev_ind; [done|].
  rewrite emitInto_snoc, lastRender_snoc.
  destruct (String.eqb_spec (outFile config s) p) as [->|Hne].
  - by rewrite lookup_insert_eq.
  - by rewrite lookup_insert_ne.
Qed.

Lemma lastRender_none config p schemas :
  Forall (fun schema => outFile config schema <> p) schemas ->
  lastRender config p schemas = None.
Proof.
  induction schemas as [|s schemas IH] using rev_ind; [done|].
  intros [Hall Hs%Forall_inv]%Forall_app. rewrite lastRender_snoc.
  destruct (String.eqb_spec (outFile config s) p); [done|]. by apply IH.
Qed.

Lemma lastRender_last config pre schema post :
  Forall (fun later => outFile config later <> outFile config schema) post ->
  lastRender config (outFile config schema) (pre ++ schema :: post)
  = Some (render (Package config) schema).
Proof.
  induction post as [|s post IH] using rev_ind; intros Hall.
  - rewrite lastRender_snoc. by rewrite String.eqb_refl.
  - apply Forall_app in Hall as [Hall Hs%Forall_inv].
    rewrite app_comm_cons, app_assoc, lastRender_snoc.
    destruct (String.eqb_spec (outFile config s) (outFile config schema)); [done|].
    by apply IH.
Qed.


Lemma announce_sameEnv config f w :
  exists w', announce config f w = (inr tt, w') /\
             files w' = files w /\ dirs w' = dirs w /\ sameEnv w w'.
Proof.
  unfold announce. destruct (Verbose config); eexists; (split; [reflexivity|]);
    by repeat split.
Qed.

Lemma Generate_unparsed config w :
  parsed w !! InputFile config = None ->
  Generate config w
  = (inl (Errorf_w "parsing input file: " (errorString ("parse " ++ InputFile config))), w).
Proof.
  intros Hf. unfold Generate, mbind, IO_bind, bind, wrap, parser.ParseFile. by rewrite Hf.
Qed.

(** What a run that returns no error has done. *)
Lemma Generate_ok_inv config w w1 :
  Generate config w = (inr tt, w1) ->
  exists f w0,
    parsed w !! InputFile config = Some f /\
    announce config f w = (inr tt, w0) /\
    findValidationSchemas f <> [] /\
    generateAll config (findValidationSchemas f) w0 = (inr tt, w1).
Proof.
  intros Hgen.
  destruct (parsed w !! InputFile config) as [f|] eqn:Hf;
    [|by rewrite (Generate_unparsed _ _ Hf) in Hgen].
  rewrite (Generate_parsed _ _ _ Hf) in Hgen.
  destruct (announce_sameEnv config f w) as (w0 & Hann & _).
  rewrite Hann in Hgen. simpl in Hgen.
  exists f, w0. split; [done|]. split; [done|].
  destruct (findValidationSchemas f) as [|s l]; [done|]. done.
Qed.

Lemma sameEnv_sym w w' : sameEnv w w' -> sameEnv w' w.
Proof. intros (?&?&?&?). by repeat split. Qed.

(** X1. A run returns no error exactly when the input file parses, holds a
    schema, and no fault of the environment is in the way: the output
    directory can be made and the output file of each schema can be made
    and written. *)
Theorem Generate_succeeds_iff (config : Config) (w : World) :
  (exists w', Generate config w = (inr tt, w')) <->
  (exists f,
      parsed w !! InputFile config = Some f /\
      findValidationSchemas f <> [] /\
      faultFree config (findValidationSchemas f) w).
Proof.
  split.
  - intros [w1 Hgen].
    destruct (Generate_ok_inv _ _ _ Hgen) as (f & w0 & Hf & Hann & Hne & Hall).
    exists f. split; [done|]. split; [done|].
    destruct (announce_sameEnv config f w) as (w0' & Hann' & _ & _ & Henv).
    rewrite Hann in Hann'. injection Hann' as <-.
    apply (faultFree_sameEnv _ _ w0); [by apply sameEnv_sym|].
    by apply (generateAll_ok_inv _ _ _ _ Hall).
  - intros (f & Hf & Hne & Hff).
    destruct (announce_sameEnv config f w) as (w0 & Hann & _ & _ & Henv).
    destruct (generateAll_ok config (findValidationSchemas f) w0) as (w1 & Hall & _).
    { by apply (faultFree_sameEnv _ _ w). }
    exists w1. rewrite (Generate_parsed _ _ _ Hf), Hann. simpl.
    by destruct (findValidationSchemas f).
Qed.

(** X2. After a run that returned no error the files are those of before
    with the text of each schema put at its output path, schema after
    schema: a path that is no output path holds what it held, and the
    output path of a schema holds the text of that schema unless a later
    schema of the run has the same output path. The output directory is
    among the directories. *)
Theorem Generate_files (config : Config) (w w' : World) (f : File) :
  parsed w !! InputFile config = Some f ->
  Generate config w = (inr tt, w') ->
  files w' = emitInto config (files w) (findValidationSchemas f) /\
  dirs w' = {[ OutputDir config ]} ∪ dirs w /\
  (forall p,
      Forall (fun schema => outFile config schema <> p) (findValidationSchemas f) ->
      files w' !! p = files w !! p) /\
  (forall pre schema post,
      findValidationSchemas f = (pre ++ schema :: post)%list ->
      Forall (fun later => outFile config later <> outFile config schema) post ->
      files w' !! outFile config schema = Some (render (Package config) schema)).
Proof.
  intros Hf Hgen.
  destruct (Generate_ok_inv _ _ _ Hgen) as (f' & w0 & Hf' & Hann & Hne & Hall).
  rewrite Hf in Hf'. injection Hf' as <-.
  destruct (announce_sameEnv config f w) as (w0' & Hann' & Hfiles0 & Hdirs0 & Henv).
  rewrite Hann in Hann'. injection Hann' as <-.
  destruct (generateAll_ok config (findValidationSchemas f) w0) as (w1 & Hall' & Hfiles & Hdirs & _).
  { by apply (generateAll_ok_inv _ _ _ _ Hall). }
  rewrite Hall in Hall'. injection Hall' as <-.
  rewrite Hfiles0 in Hfiles. rewrite Hdirs0 in Hdirs.
  split; [done|]. split; [by destruct (findValidationSchemas f)|].
  split.
  - intros p Hp. by rewrite Hfiles, emitInto_lookup, lastRender_none.
  - intros pre schema post Heq Hpost.
    by rewrite Hfiles, emitInto_lookup, Heq, lastRender_last.
Qed.



End Runs.

(** ** What the extractor recognizes *)

Lemma call_chain_decomposition :
  forall e, (exists f args, e = CallExpr f args) ->
    exists root links, e = chainOn root links /\ findRootCall e = root.
Proof.
  fix IH 1. intros e.
  destruct e as [n|v|X sel|f args|X i|X|ps rs body|ch];
    try (by intros (? & ? & ?)).
  intros _.
  destruct f as [n|v|X sel|f' args'|X i|X|ps rs body|ch];
    try (by eexists _, []; split; reflexivity).
  pose proof (IH X) as IHX.
  destruct X as [n|v|X' sel'|f' args'|X' i|X'|ps rs body|ch];
    try (by eexists _, []; split; reflexivity).
  destruct IHX as (root & links & Hx & Hroot); [by eexists _, _|].
  exists root, (links ++ [(sel, args)])%list.
  rewrite chainOn_snoc, <- Hx. split; [done|]. exact Hroot.
Qed.

Lemma rootTypeName_inv root T :
  rootTypeName root = Some T -> exists rootArgs, root = structRoot T rootArgs.
Proof.
  destruct root as [| | |f args| | | |]; try done.
  destruct f as [| | | |X i| | |]; try done.
  destruct X as [| |X sel| | | | |]; try done.
  destruct X as [pkg| | | | | | |]; try done.
  destruct i as [typeIdent| | | | | | |]; try done.
  simpl. destruct (String.eqb_spec pkg "validate") as [->|]; [|done].
  destruct (String.eqb_spec sel "Struct") as [->|]; [|done].
  intros [= ->]. by exists args.
Qed.

(** X4. An expression is recognized as a schema exactly when it is a chain
    of calls on a root call [validate.Struct[T](...)], [T] an
    identifier; its fields are then those of the links named [Field]
    that the field extractor takes, in the order of the source, and a
    link of another name is passed over without ending the walk. *)
Theorem extractValidationSchema_iff (e : Expr) (schema : ValidationSchema) :
  extractValidationSchema e = Some schema <->
  exists T rootArgs links,
    e = chainOn (structRoot T rootArgs) links /\
    schema = {| TypeName := T; Fields := omap fieldOfLink links |}.
Proof.
  split.
  - intros Hx. pose proof Hx as Hx'. unfold extractValidationSchema in Hx'.
    destruct e as [| | |f args| | | |]; try done.
    destruct (call_chain_decomposition (CallExpr f args))
      as (root & links & Heq & Hroot); [by eexists _, _|].
    rewrite Hroot in Hx'.
    destruct (rootTypeName root) as [T|] eqn:HT; [|done].
    destruct (rootTypeName_inv _ _ HT) as [rootArgs ->].
    exists T, rootArgs, links. split; [done|].
    rewrite Heq, extractValidationSchema_chain in Hx. by injection Hx as <-.
  - intros (T & rootArgs & links & -> & ->). apply extractValidationSchema_chain.
Qed.

Section ScanCompose.
Context `{strings.Unicode}.

(** X5. The schemas of a file are those of its declarations, one declaration
    after the other: the schemas of two lists of declarations put
    together are the schemas of the first followed by those of the
    second, and the doc comment and the package name of the file have
    no part in them. *)
Theorem findValidationSchemas_app (f : File) (decls1 decls2 : list Decl) :
  Decls f = (decls1 ++ decls2)%list ->
  findValidationSchemas f
  = (findValidationSchemas (fileOf decls1) ++ findValidationSchemas (fileOf decls2))%list.
Proof.
  intros Hd. rewrite !findValidationSchemas_varDecls. unfold varDecls, fileOf. simpl.
  by rewrite Hd, !flat_map_app.
Qed.
End ScanCompose.

(** ** The revision of the extractor that records method names *)

Lemma NamesOnly_loop_chain base links acc :
  isCallOnSelector base = false ->
  NamesOnly.extractValidators_loop (chainOn base links) acc = (map fst links ++ acc)%list.
Proof.
  intros Hbase. revert acc.
  induction links as [|l links IH] using rev_ind; intros acc.
  - simpl. destruct base as [| | |f args| | | |]; try done. by destruct f.
  - rewrite chainOn_snoc, map_app, <- app_assoc. unfold callOn. simpl. by rewrite IH.
Qed.

(** X6. The revision that records method names lists those of a validator chain
    from left to right, the type constructor among them, and no
    argument. *)
Theorem NamesOnly_extractValidators_chain (base : Expr) (links : list Link) :
  isCallOnSelector base = false ->
  NamesOnly.extractValidators (chainOn base links) = map fst links.
Proof.
  intros Hbase. unfold NamesOnly.extractValidators.
  rewrite NamesOnly_loop_chain by done. apply app_nil_r.
Qed.

(** X7. The revision that records method names never recognizes a chain on the call
    [validate.Struct[T](...)], the chain the library is used with: the
    root call it finds is that call, whose function is no selector. *)
Theorem NamesOnly_rejects_builder_chain (T : string) (rootArgs : list Expr)
    (links : list Link) :
  NamesOnly.extractValidationSchema (chainOn (structRoot T rootArgs) links) = None.
Proof.
  unfold NamesOnly.extractValidationSchema.
  destruct (chainOn_call_is_call
              (IndexExpr (SelectorExpr (Ident "validate") "Struct") (Ident T))
              rootArgs links) as (f & a & Hx).
  fold (structRoot T rootArgs) in Hx.
  by rewrite Hx, <- Hx, findRootCall_chain.
Qed.

Lemma findRootCall_structType T l links :
  findRootCall (chainOn (structType T) (l :: links)) = callOn (structType T) l.
Proof.
  induction links as [|l' links IH] using rev_ind; [done|].
  rewrite app_comm_cons, chainOn_snoc.
  destruct (chainOn_nonempty_is_call (structType T) l links) as (x & m & a & Hx).
  rewrite Hx in IH |- *. exact IH.
Qed.

Lemma NamesOnly_collectFields T links acc :
  NamesOnly.collectFields (chainOn (structType T) links) acc
  = (omap NamesOnly.fieldOfLink links ++ acc)%list.
Proof.
  revert acc. induction links as [|l links IH] using rev_ind; intros acc; [done|].
  rewrite chainOn_snoc, omap_app, <- app_assoc. unfold callOn.
  assert (Hstep : (omap NamesOnly.fieldOfLink [l] ++ acc)%list
                  = if String.eqb (fst l) "Field"
                    then match NamesOnly.extractFieldValidation
                                 (CallExpr (SelectorExpr (chainOn (structType T) links) (fst l)) (snd l)) with
                         | Some field => field :: acc
                         | None => acc
                         end
                    else acc).
  { unfold NamesOnly.fieldOfLink, NamesOnly.extractFieldValidation. simpl.
    destruct (String.eqb (fst l) "Field"); [|done].
    by destruct (NamesOnly.fieldFromArgs (snd l)). }
  destruct links as [|l0 links].
  - simpl. simpl in Hstep. by rewrite Hstep.
  - destruct (chainOn_nonempty_is_call (structType T) l0 links) as (x & m & a & Hx).
    cbn [NamesOnly.collectFields]. rewrite Hx, <- Hx, IH. by rewrite Hstep.
Qed.

(** X8. What that revision does recognize is a chain of calls on the
    expression [validate.Struct[T]] itself, with no call of it: the
    first link is its root call, and the links named [Field], the first
    among them, give the fields in the order of the source. *)
Theorem NamesOnly_recognizes_uncalled (T : string) (l : Link) (links : list Link) :
  NamesOnly.extractValidationSchema (chainOn (structType T) (l :: links))
  = Some {| NamesOnly.TypeName := T;
            NamesOnly.Fields := omap NamesOnly.fieldOfLink (l :: links) |}.
Proof.
  unfold NamesOnly.extractValidationSchema.
  destruct (chainOn_nonempty_is_call (structType T) l links) as (x & m & a & Hx).
  rewrite Hx, <- Hx, findRootCall_structType. simpl NamesOnly.rootTypeName.
  by rewrite NamesOnly_collectFields, app_nil_r.
Qed.

(** ** Package validate: the validators of integers, strings and times *)

Lemma orElse_None (a b : option validate.Error) :
  validate.orElse a b = None <-> a = None /\ b = None.
Proof. destruct a; simpl; intuition congruence. Qed.

Lemma check_None cond err : validate.check cond err = None <-> cond = false.
Proof. destruct cond; simpl; naive_solver. Qed.

Lemma IntValidate_None (v : validate.IntValidator) (value : Z) :
  validate.IntValidate v value = None <->
  (forall m, validate.min v = Some m -> (m <= value)%Z) /\
  (forall m, validate.max v = Some m -> (value <= m)%Z) /\
  (validate.positive v = true -> (0 < value)%Z) /\
  (validate.negative v = true -> (value < 0)%Z).
Proof.
  unfold validate.IntValidate. rewrite !orElse_None, !check_None.
  destruct (validate.min v) as [a|], (validate.max v) as [b|],
    (validate.positive v), (validate.negative v);
    rewrite ?check_None; simpl; split.
  all: try (intros (H1 & H2 & H3 & H4); repeat split; intros; simplify_eq; lia).
  all: intros (H1 & H2 & H3 & H4); repeat split; try done;
    try (apply Z.ltb_ge; auto); try (apply Z.leb_gt; auto).
Qed.

(** X9. The integer validator accepts a value exactly when the value is
    not below the minimum, not above the maximum, greater than zero
    where [Positive] is set and less than zero where [Negative] is set;
    a rule that is not set asks for nothing. *)
Theorem IntValidate_accepts_iff (v : validate.IntValidator) (value : Z) :
  validate.IntValidate v value = None <->
  (forall m, validate.min v = Some m -> (m <= value)%Z) /\
  (forall m, validate.max v = Some m -> (value <= m)%Z) /\
  (validate.positive v = true -> (0 < value)%Z) /\
  (validate.negative v = true -> (value < 0)%Z).
Proof. apply IntValidate_None. Qed.

(** X10. A validator with both [Positive] and [Negative] set, or with a
    minimum above its maximum, accepts no value at all. *)
Theorem IntValidate_unsatisfiable (v : validate.IntValidator) (value : Z) :
  (validate.positive v = true /\ validate.negative v = true) \/
  (exists a b, validate.min v = Some a /\ validate.max v = Some b /\ (b < a)%Z) ->
  validate.IntValidate v value <> None.
Proof.
  intros Hcfg Hnone. apply IntValidate_None in Hnone as (H1 & H2 & H3 & H4).
  destruct Hcfg as [[Hp Hn]|(a & b & Ha & Hb & Hlt)].
  - specialize (H3 Hp). specialize (H4 Hn). lia.
  - specialize (H1 _ Ha). specialize (H2 _ Hb). lia.
Qed.

(** The error of the integer validator is the one of the first rule,
    in the order minimum, maximum, positive, negative, that the value
    breaks. *)
Lemma IntValidate_Some (v : validate.IntValidator) (value : Z) (err : validate.Error) :
  validate.IntValidate v value = Some err ->
  validate.Field err = EmptyString /\
  ((validate.Code err = "too_small" /\
    exists m, validate.min v = Some m /\ (value < m)%Z) \/
   (validate.Code err = "too_large" /\
    (forall m, validate.min v = Some m -> (m <= value)%Z) /\
    exists m, validate.max v = Some m /\ (m < value)%Z) \/
   (validate.Code err = "not_positive" /\
    (forall m, validate.min v = Some m -> (m <= value)%Z) /\
    (forall m, validate.max v = Some m -> (value <= m)%Z) /\
    validate.positive v = true /\ (value <= 0)%Z) \/
   (validate.Code err = "not_negative" /\
    (forall m, validate.min v = Some m -> (m <= value)%Z) /\
    (forall m, validate.max v = Some m -> (value <= m)%Z) /\
    (validate.positive v = true -> (0 < value)%Z) /\
    validate.negative v = true /\ (0 <= value)%Z)).
Proof.
  unfold validate.IntValidate, validate.check, validate.orElse.
  destruct (validate.min v) as [a|]; [destruct (Z.ltb_spec value a)|];
  (try (intros [= <-]; split; [done|]; left; split; [done|]; eauto; fail));
  (destruct (validate.max v) as [b|]; [destruct (Z.ltb_spec b value)|]);
  (try (intros [= <-]; split; [done|]; right; left; split; [done|];
        split; [intros; simplify_eq; lia|eauto]; fail));
  (destruct (validate.positive v); [destruct (Z.leb_spec value 0)|]; cbn [andb]);
  (try (intros [= <-]; split; [done|]; right; right; left; split; [done|];
        repeat split; intros; simplify_eq; lia; fail));
  (destruct (validate.negative v); [destruct (Z.leb_spec 0 value)|]; cbn [andb]);
  (try (intros [= <-]; split; [done|]; right; right; right; split; [done|];
        repeat split; intros; simplify_eq; lia; fail));
  try discriminate.
Qed.

Section StringRules.
Context `{strings.Unicode} `{validate.Library}.

Lemma stringRules_None (v : validate.StringValidator) (value : string) :
  validate.orElse
    match validate.minLen v with
    | Some n =>
        validate.check (validate.len value <? n)%Z
          {| validate.Field := EmptyString; validate.Code := "too_short";
             validate.Message := "must be at least " ++ validate.Itoa n ++ " characters" |}
    | None => None
    end
  (validate.orElse
    match validate.maxLen v with
    | Some n =>
        validate.check (n <? validate.len value)%Z
          {| validate.Field := EmptyString; validate.Code := "too_long";
             validate.Message := "must be at most " ++ validate.Itoa n ++ " characters" |}
    | None => None
    end
  (validate.orElse
    match validate.pattern v with
    | Some re =>
        validate.check (negb (validate.MatchString re value))
          {| validate.Field := EmptyString; validate.Code := "invalid_format";
             validate.Message := "invalid format" |}
    | None => None
    end
  (validate.orElse
    (validate.check (validate.email v &&
            (negb (strings.Contains value "@") || negb (strings.Contains value ".")))
       {| validate.Field := EmptyString; validate.Code := "invalid_email";
          validate.Message := "must be a valid email address" |})
    match validate.custom v with
    | Some fn => fn value
    | None => None
    end))) = None <-> stringRules v value.
Proof.
  unfold stringRules. rewrite !orElse_None. split.
  - intros (H1 & H2 & H3 & H4 & H5). repeat split.
    + intros n Hn. rewrite Hn in H1. apply check_None, Z.ltb_ge in H1. lia.
    + intros n Hn. rewrite Hn in H2. apply check_None, Z.ltb_ge in H2. lia.
    + intros re Hre. rewrite Hre in H3. apply check_None in H3.
      by apply negb_false_iff.
    + apply check_None in H4. rewrite H6 in H4. cbn [andb] in H4.
      apply orb_false_iff in H4 as [H4 _]. by apply negb_false_iff.
    + apply check_None in H4. rewrite H6 in H4. cbn [andb] in H4.
      apply orb_false_iff in H4 as [_ H4]. by apply negb_false_iff.
    + intros fn Hfn. by rewrite Hfn in H5.
  - intros (H1 & H2 & H3 & H4 & H5). repeat split.
    + destruct (validate.minLen v) as [n|]; [|done].
      apply check_None, Z.ltb_ge. specialize (H1 n eq_refl). lia.
    + destruct (validate.maxLen v) as [n|]; [|done].
      apply check_None, Z.ltb_ge. specialize (H2 n eq_refl). lia.
    + destruct (validate.pattern v) as [re|]; [|done].
      apply check_None. by rewrite (H3 re eq_refl).
    + apply check_None. destruct (validate.email v); [|done].
      destruct (H4 eq_refl) as [-> ->]. done.
    + destruct (validate.custom v) as [fn|]; [|done]. by apply H5.
Qed.

Lemma StringValidate_None (v : validate.StringValidator) (value : string) :
  validate.StringValidate v value = None <->
  (validate.required v = true -> validate.blank (effective v value) = false) /\
  ((validate.optional v = true /\ validate.blank (effective v value) = true) \/
   stringRules v (effective v value)).
Proof.
  unfold validate.StringValidate. fold (effective v value).
  generalize (effective v value). intros s.
  destruct (validate.required v), (validate.blank s) eqn:Hb; cbn [andb].
  - split; [done|]. intros [Hr _]. by specialize (Hr eq_refl).
  - rewrite andb_false_r, stringRules_None. intuition congruence.
  - destruct (validate.optional v); cbn [andb].
    + intuition.
    + rewrite stringRules_None. intuition congruence.
  - rewrite andb_false_r, stringRules_None. intuition congruence.
Qed.

(** X11. The string validator accepts a value exactly when the value
    the rules are applied to (the default value in place of a blank
    value, where a default value is set) is not blank where [Required]
    is set, and either is blank under [Optional] or keeps every rule
    that is set: the lengths in bytes, the pattern, the two characters
    of an email address, the custom function. *)
Theorem StringValidate_accepts_iff (v : validate.StringValidator) (value : string) :
  validate.StringValidate v value = None <->
  (validate.required v = true -> validate.blank (effective v value) = false) /\
  ((validate.optional v = true /\ validate.blank (effective v value) = true) \/
   stringRules v (effective v value)).
Proof. apply StringValidate_None. Qed.

(** X12. A blank value is validated as the default value: the result
    for it is the result for the default value itself. *)
Theorem StringValidate_default (v : validate.StringValidator) (d value : string) :
  validate.defaultVal v = Some d ->
  validate.blank value = true ->
  validate.StringValidate v value = validate.StringValidate v d.
Proof.
  intros Hd Hb. unfold validate.StringValidate. rewrite Hd, Hb.
  by replace (if validate.blank d then d else d) with d by (by destruct (validate.blank d)).
Qed.

(** X13. With a default value that is not blank, [Required] has no
    effect: the required error cannot arise, and the validator gives
    every value the result it gives without [Required]. *)
Theorem StringValidate_required_with_default 
    (v : validate.StringValidator) (d value : string) :
  validate.blank d = false ->
  validate.StringValidate (validate.Default d (validate.Required v)) value
  = validate.StringValidate (validate.Default d v) value.
Proof.
  intros Hd. unfold validate.StringValidate, validate.Default, validate.Required.
  cbn [validate.minLen validate.maxLen validate.pattern validate.email validate.custom
       validate.required validate.defaultVal validate.optional].
  destruct (validate.blank value) eqn:Hb.
  - rewrite Hd. cbn [andb]. by rewrite !andb_false_r.
  - rewrite Hb. cbn [andb]. by rewrite !andb_false_r.
Qed.

(** X14. The two revisions of the string validator agree: a validator
    of the one with default values, with no default value and no
    optional mark set, gives every value the result of the validator
    of the other revision with the same rules. *)
Theorem StringValidate_revisions_agree (v : validate.StringValidator0) (value : string) :
  validate.StringValidate (validate.later v) value = validate.StringValidate0 v value.
Proof.
  unfold validate.StringValidate, validate.StringValidate0, validate.later. cbn.
  by destruct (validate.required0 v && validate.blank value).
Qed.

End StringRules.

Section TimeRules.
Context `{validate.Library}.

(** X15. The zero time is tested for [Required] only: every validator
    that is not required accepts it, whatever its bounds and custom
    function are, and every required one gives the required error. *)
Theorem TimeValidate_zero (v : validate.TimeValidator) :
  validate.TimeValidate v 0 =
  if validate.timeRequired v
  then Some {| validate.Field := EmptyString; validate.Code := "required";
               validate.Message := "field is required" |}
  else None.
Proof.
  unfold validate.TimeValidate. by destruct (validate.timeRequired v).
Qed.

(** X16. A time other than the zero time is accepted exactly when it is
    strictly after the [After] bound, strictly before the [Before]
    bound, within the [Between] bounds with both ends allowed, and
    accepted by the custom function; [Required] plays no part. *)
Theorem TimeValidate_accepts_iff (v : validate.TimeValidator) (value : Z) :
  value <> 0%Z ->
  validate.TimeValidate v value = None <->
  (forall t, validate.after v = Some t -> (t < value)%Z) /\
  (forall t, validate.before v = Some t -> (value < t)%Z) /\
  (forall start end_, validate.between v = Some (start, end_) ->
     (start <= value <= end_)%Z) /\
  (forall fn, validate.timeCustom v = Some fn -> fn value = None).
Proof.
  intros Hnz. unfold validate.TimeValidate, validate.IsZero.
  apply Z.eqb_neq in Hnz. rewrite Hnz, !andb_false_r, !orElse_None. split.
  - intros (H1 & H2 & H3 & H4). repeat split.
    + intros t Ht. rewrite Ht in H1. apply check_None, negb_false_iff, Z.ltb_lt in H1. lia.
    + intros t Ht. rewrite Ht in H2. apply check_None, negb_false_iff, Z.ltb_lt in H2. lia.
    + rewrite H0 in H3. apply check_None, orb_false_iff in H3 as [H3 _].
      apply Z.ltb_ge in H3. lia.
    + rewrite H0 in H3. apply check_None, orb_false_iff in H3 as [_ H3].
      apply Z.ltb_ge in H3. lia.
    + intros fn Hfn. by rewrite Hfn in H4.
  - intros (H1 & H2 & H3 & H4). repeat split.
    + destruct (validate.after v) as [t|]; [|done].
      apply check_None, negb_false_iff, Z.ltb_lt. by apply H1.
    + destruct (validate.before v) as [t|]; [|done].
      apply check_None, negb_false_iff, Z.ltb_lt. by apply H2.
    + destruct (validate.between v) as [[start end_]|]; [|done].
      specialize (H3 _ _ eq_refl).
      apply check_None, orb_false_iff. split; apply Z.ltb_ge; lia.
    + destruct (validate.timeCustom v) as [fn|]; [|done]. by apply H4.
Qed.

End TimeRules.

(** ** Package validate: schemas and the validators made of others *)

Ltac munfold :=
  unfold mbind, validate.M_bind, validate.bindM, mret, validate.M_ret, validate.retM in *.

Section Pointers.
Open Scope list_scope.

Lemma omap_step {A B : Type} (f : A -> option B) (x : A) (l : list A) :
  omap f (x :: l) = match f x with Some y => y :: omap f l | None => omap f l end.
Proof. done. Qed.

Lemma setField_new (h : validate.Heap) (err : validate.Error) (field : string) :
  validate.setField (Some (length h)) field (h ++ [err])
  = validate.Returned (tt, h ++ [withField field err]).
Proof.
  unfold validate.setField. munfold. unfold validate.load, validate.store. cbn beta.
  unfold validate.Heap in *. rewrite lookup_app_r, Nat.sub_diag by lia. cbn [lookup list_lookup default].
  unfold id. by rewrite insert_app_r_alt, Nat.sub_diag by lia.
Qed.

Lemma validateRules_cons_fresh {T : Type} (r : FreshRule T) (rules : list (validate.FieldRule T))
    (value : T) (acc : validate.Errors) (h : validate.Heap) :
  validate.validateRules (ruleOf r :: rules) value acc h
  = match freshCheck r (freshSelector r value) with
    | Some err =>
        validate.validateRules rules value (acc ++ [Some (length h)])
          (h ++ [withField (freshField r) err])
    | None => validate.validateRules rules value acc h
    end.
Proof.
  cbn [validate.validateRules]. munfold.
  cbn [ruleOf validate.rule validate.selector validate.field validate.F].
  unfold validate.allocating, validate.alloc, validate.new. munfold.
  destruct (freshCheck r (freshSelector r value)) as [err|]; [|done].
  by rewrite setField_new.
Qed.

Lemma validateRules_fresh {T : Type} (rs : list (FreshRule T)) (value : T)
    (acc : validate.Errors) (h : validate.Heap) :
  validate.validateRules (map ruleOf rs) value acc h
  = validate.Returned
      (acc ++ allocated h (length (omap (ruleError value) rs)),
       h ++ omap (ruleError value) rs).
Proof.
  revert acc h. induction rs as [|r rs IH]; intros acc h.
  - cbn. unfold allocated. cbn. by rewrite !app_nil_r.
  - cbn [map]. rewrite validateRules_cons_fresh, omap_step.
    replace (ruleError value r)
      with (withField (freshField r) <$> freshCheck r (freshSelector r value)) by done.
    destruct (freshCheck r (freshSelector r value)) as [err|]; cbn [fmap option_fmap option_map].
    + rewrite IH. unfold allocated. cbn [length seq map].
      rewrite <- !app_assoc. cbn [app]. rewrite length_app. cbn [length].
      by rewrite Nat.add_1_r.
    + apply IH.
Qed.

(** X17. A schema whose validators return a new error each time runs
    every rule in order, stops at none, and returns one error for each
    rule that fails, in the order of the rules, each with the code and
    message of its validator and the field name of its rule; the
    errors are new ones and those that were there are left as they
    were. *)
Theorem SchemaValidate_fresh {T : Type} (rs : list (FreshRule T)) (value : T)
    (h : validate.Heap) :
  validate.SchemaValidate (map ruleOf rs) value h
  = validate.Returned
      (allocated h (length (omap (ruleError value) rs)),
       h ++ omap (ruleError value) rs).
Proof. unfold validate.SchemaValidate. by rewrite validateRules_fresh. Qed.


Lemma withField_withField (a b : string) (e : validate.Error) :
  withField a (withField b e) = withField a e.
Proof. done. Qed.

Lemma validateRules_cons_shared {T : Type} (p : nat) (r : SharedRule T)
    (rules : list (validate.FieldRule T)) (value : T) (acc : validate.Errors)
    (h : validate.Heap) (e : validate.Error) :
  h !! p = Some e ->
  validate.validateRules (sharedRuleOf p r :: rules) value acc h
  = if rejects value r
    then validate.validateRules rules value (acc ++ [Some p])
           (<[ p := withField (sharedField r) e ]> h)
    else validate.validateRules rules value acc h.
Proof.
  intros Hp. cbn [validate.validateRules]. munfold.
  cbn [sharedRuleOf validate.rule validate.selector validate.field validate.F].
  unfold rejects. destruct (accepts r (sharedSelector r value)); cbn [negb]; [done|].
  unfold validate.setField. munfold. unfold validate.load, validate.store.
  cbn beta. unfold validate.Heap in *. by rewrite Hp.
Qed.

Lemma last_cons_cons {A : Type} (x y : A) (l : list A) : last (x :: y :: l) = last (y :: l).
Proof. done. Qed.

Lemma validateRules_shared {T : Type} (p : nat) (rs : list (SharedRule T)) (value : T) :
  forall (acc : validate.Errors) (h : validate.Heap) (e : validate.Error),
  h !! p = Some e ->
  validate.validateRules (map (sharedRuleOf p) rs) value acc h
  = validate.Returned
      (acc ++ replicate (length (List.filter (rejects value) rs)) (Some p),
       match last (List.filter (rejects value) rs) with
       | Some l => <[ p := withField (sharedField l) e ]> h
       | None => h
       end).
Proof.
  induction rs as [|r rs IH]; intros acc h e Hp.
  - cbn. by rewrite app_nil_r.
  - cbn [map List.filter]. rewrite (validateRules_cons_shared _ _ _ _ _ _ e Hp).
    destruct (rejects value r); [|by apply IH].
    assert (Hlt : p < length h) by (by eapply lookup_lt_Some).
    rewrite (IH _ _ (withField (sharedField r) e))
      by (unfold validate.Heap in *; by rewrite list_lookup_insert_eq).
    cbn [length replicate]. rewrite <- app_assoc. cbn [app].
    destruct (List.filter (rejects value) rs) as [|r' fs]; [done|].
    rewrite last_cons_cons. destruct (last (r' :: fs)) eqn:Hl.
    + unfold validate.Heap in *. by rewrite list_insert_insert_eq, withField_withField.
    + by apply last_None in Hl.
Qed.

(** X18. A schema changes the error its validator returns: where the
    validators of several rules return the same error, every entry of
    the result is that one error, and it reads the field name of the
    last rule that failed, also for the rules before it. *)
Theorem SchemaValidate_shared_error {T : Type} (p : nat) (rs : list (SharedRule T))
    (value : T) (h : validate.Heap) (e : validate.Error)
    (failing : list (SharedRule T)) (lastRule : SharedRule T) :
  h !! p = Some e ->
  List.filter (rejects value) rs = failing ++ [lastRule] ->
  validate.SchemaValidate (map (sharedRuleOf p) rs) value h
  = validate.Returned
      (replicate (S (length failing)) (Some p),
       <[ p := withField (sharedField lastRule) e ]> h).
Proof.
  intros Hp Hf. unfold validate.SchemaValidate.
  rewrite (validateRules_shared _ _ _ _ _ e Hp), Hf, last_snoc, length_app.
  cbn [length app]. by rewrite Nat.add_1_r.
Qed.

Lemma fieldNameOf_first {Ty : Type} `{EqDecision Ty}
    (pre post : list (string * Ty)) (name : string) (ty : Ty) :
  Forall (fun fld => snd fld <> ty) pre ->
  validate.fieldNameOf (pre ++ (name, ty) :: post) ty = name.
Proof.
  induction 1 as [|[n t] pre Hne _ IH]; cbn.
  - by rewrite decide_True.
  - by rewrite decide_False.
Qed.

(** X19. The field name of a rule is found by the type of what the
    selector returns, not by the field the selector reads: the rule
    gets the name of the first field of the struct that has that type,
    and the errors of the rule carry that name.  The selector of the
    second of two fields of one type gets the name of the first. *)
Theorem SchemaField_name_by_type {Ty : Type} `{EqDecision Ty} {T Result : Type}
    (pre post : list (string * Ty)) (name : string) (ty : Ty)
    (selector : T -> Result) (check : Result -> option validate.Error)
    (value : T) (e : validate.Error) (h : validate.Heap) :
  Forall (fun fld => snd fld <> ty) pre ->
  check (selector value) = Some e ->
  validate.SchemaValidate
    (validate.SchemaField (Some (pre ++ (name, ty) :: post)) ty selector
       (validate.allocating check) validate.Struct) value h
  = validate.Returned ([Some (length h)], h ++ [withField name e]).
Proof.
  intros Hpre He. unfold validate.SchemaField, validate.Struct, validate.SchemaValidate.
  rewrite fieldNameOf_first by done. cbn [app].
  change ({| validate.F := Result; validate.selector := selector;
             validate.rule := validate.allocating check; validate.field := name |})
    with (ruleOf {| freshF := Result; freshSelector := selector; freshCheck := check;
                    freshField := name |}).
  rewrite validateRules_cons_fresh. cbn [freshCheck freshSelector freshField].
  by rewrite He.
Qed.


(** X21. [OneOf] of no validators panics on every value: the field of
    the last error is read where there is no last error. *)
Theorem OneOf_empty_panics {T : Type} (value : T) (h : validate.Heap) :
  validate.OneOf [] value h = validate.Panicked validate.nilDereference.
Proof. done. Qed.

Lemma oneOfLoop_accepting {T : Type} (fs : list (T -> option validate.Error)) (value : T) :
  Exists (fun f => f value = None) fs ->
  forall (lastError : validate.ErrorPtr) (h : validate.Heap),
  exists h', validate.oneOfLoop (map validate.allocating fs) value lastError h
             = validate.Returned (None, h').
Proof.
  induction fs as [|f fs IH]; intros Hex lastError h.
  - by apply Exists_nil in Hex.
  - cbn [map validate.oneOfLoop]. munfold. unfold validate.allocating at 1, validate.alloc.
    destruct (f value) as [e|] eqn:Hf.
    + unfold validate.new. apply IH.
      apply Exists_cons in Hex as [Hex|Hex]; [congruence|done].
    + munfold. by eexists.
Qed.

Lemma oneOfLoop_failing {T : Type} (fs : list (T -> option validate.Error)) (value : T)
    (errs : list validate.Error) :
  Forall2 (fun f e => f value = Some e) fs errs ->
  forall (lastError : validate.ErrorPtr) (h : validate.Heap),
  validate.oneOfLoop (map validate.allocating fs) value lastError h
  = validate.oneOfLoop [] value
      (match errs with [] => lastError | _ :: _ => Some (length h + length errs - 1) end)
      (h ++ errs).
Proof.
  intros Hall. remember (validate.oneOfLoop (@nil (validate.Validator T))) as final eqn:Hfinal.
  induction Hall as [|f e fs errs Hf _ IH]; intros lastError h.
  - rewrite app_nil_r. by subst final.
  - cbn [map validate.oneOfLoop]. munfold. unfold validate.allocating at 1, validate.alloc.
    rewrite Hf. unfold validate.new. rewrite IH, <- app_assoc. cbn [app].
    f_equal. destruct errs; cbn [length]; rewrite ?length_app; cbn [length]; f_equal; lia.
Qed.

Lemma oneOfLoop_None_inv {T : Type} (fs : list (T -> option validate.Error)) (value : T) :
  forall (lastError : validate.ErrorPtr) (h h' : validate.Heap),
  validate.oneOfLoop (map validate.allocating fs) value lastError h
  = validate.Returned (None, h') ->
  Exists (fun f => f value = None) fs.
Proof.
  induction fs as [|f fs IH]; intros lastError h h'.
  - cbn [map validate.oneOfLoop]. munfold. unfold validate.new.
    by destruct (validate.load lastError h) as [[e h0]|msg].
  - cbn [map validate.oneOfLoop]. munfold. unfold validate.allocating at 1, validate.alloc.
    destruct (f value) as [e|] eqn:Hf.
    + unfold validate.new. intros Hloop. apply Exists_cons_tl. by eapply IH.
    + intros _. by apply Exists_cons_hd.
Qed.

(** X22. [OneOf] accepts a value exactly when one of its validators
    accepts it: the validators are run in order up to the first that
    accepts, and the errors of those before it are dropped. *)
Theorem OneOf_accepts_iff {T : Type} (fs : list (T -> option validate.Error))
    (value : T) (h : validate.Heap) :
  (exists h', validate.OneOf (map validate.allocating fs) value h
              = validate.Returned (None, h')) <->
  Exists (fun f => f value = None) fs.
Proof.
  split.
  - intros [h' Hone]. by eapply oneOfLoop_None_inv.
  - intros Hex. by apply oneOfLoop_accepting.
Qed.

(** X23. Where every validator of a [OneOf] fails, the error is a new
    one with the code [no_match], allocated after the errors of the
    validators; of these it keeps the field of the last one only, and
    no code and no message. *)
Theorem OneOf_no_match {T : Type} (fs : list (T -> option validate.Error))
    (value : T) (h : validate.Heap) (errs : list validate.Error) (e : validate.Error) :
  Forall2 (fun f e => f value = Some e) fs errs ->
  last errs = Some e ->
  validate.OneOf (map validate.allocating fs) value h
  = validate.Returned
      (Some (length h + length errs),
       h ++ errs ++ [noMatch (validate.Field e)]).
Proof.
  intros Hall Hlast. unfold validate.OneOf.
  rewrite (oneOfLoop_failing _ _ _ Hall).
  destruct errs as [|e0 errs]; [done|].
  cbn [validate.oneOfLoop]. munfold. unfold validate.load, validate.new.
  rewrite last_lookup in Hlast. unfold validate.Heap in *.
  rewrite lookup_app_r by (cbn [length]; lia).
  replace (length h + length (e0 :: errs) - 1 - length h)
    with (pred (length (e0 :: errs))) by (cbn [length]; lia).
  rewrite Hlast, length_app. by rewrite <- app_assoc.
Qed.

Lemma AllOf_app {T : Type} (a b : list (validate.Validator T)) (value : T)
    (h : validate.Heap) :
  validate.AllOf (a ++ b) value h
  = match validate.AllOf a value h with
    | validate.Returned (Some p, h') => validate.Returned (Some p, h')
    | validate.Returned (None, h') => validate.AllOf b value h'
    | validate.Panicked msg => validate.Panicked msg
    end.
Proof.
  revert h. induction a as [|v a IH]; intros h; [done|].
  cbn [app validate.AllOf]. munfold.
  destruct (v value h) as [[[p|] h']|msg]; [done| |done]. apply IH.
Qed.

(** X24. [AllOf] returns the error of the first validator that fails
    and runs none after it, so that an [AllOf] among the validators of
    another can be replaced by its own validators: the result and the
    errors allocated are the same. *)
Theorem AllOf_flatten {T : Type} (a b c : list (validate.Validator T)) (value : T)
    (h : validate.Heap) :
  validate.AllOf (a ++ validate.AllOf b :: c) value h
  = validate.AllOf (a ++ b ++ c) value h.
Proof.
  rewrite !AllOf_app. destruct (validate.AllOf a value h) as [[[p|] h']|msg]; [done| |done].
  cbn [validate.AllOf]. munfold. rewrite AllOf_app.
  by destruct (validate.AllOf b value h') as [[[p|] h'']|msg].
Qed.

(** X25. [Not] of [Not] of a validator accepts the values the
    validator accepts, but does not give its errors back: a value it
    rejects gets the error [invalid_match] with no field. *)
Theorem Not_Not {T : Type} (check : T -> option validate.Error) (value : T)
    (h : validate.Heap) :
  validate.Not (validate.Not (validate.allocating check)) value h
  = match check value with
    | Some e => validate.Returned (Some (S (length h)), h ++ [e; invalidMatch])
    | None => validate.Returned (None, h ++ [invalidMatch])
    end.
Proof.
  unfold validate.Not, validate.allocating, validate.alloc. munfold.
  destruct (check value) as [e|]; unfold validate.new; munfold; [|done].
  rewrite length_app, <- app_assoc. cbn [length app]. by rewrite Nat.add_1_r.
Qed.

(** X26. With a catch value, the error of a value that fails is not
    the one returned: the catch value is validated in its place, with
    no transformation applied to it, and the result is the result for
    the catch value.  A catch value the validator accepts makes every
    value pass. *)
Theorem TransformValidate_catch {T : Type} `{EqDecision T} `{validate.ZeroValue T}
    (tv : validate.TransformValidator T) (check : T -> option validate.Error)
    (c value : T) (h : validate.Heap) :
  validate.validator tv = validate.allocating check ->
  validate.TransformValidate (validate.TransformCatch c tv) value h
  = match check (transformed tv value) with
    | Some e => validate.alloc (check c) (h ++ [e])
    | None => validate.Returned (None, h)
    end.
Proof.
  intros Hv. unfold validate.TransformValidate, validate.TransformCatch.
  cbn [validate.validator validate.transforms validate.transformDefault validate.catchVal].
  fold (transformed tv value). rewrite Hv. munfold.
  unfold validate.allocating at 1, validate.alloc at 1.
  destruct (check (transformed tv value)) as [e|]; [|done].
  unfold validate.new. done.
Qed.

(** X27. The transformations are applied in the order they were added,
    the one of [Pipe] last, after the default value has taken the
    place of a zero value: the validator sees the last result only. *)
Theorem TransformValidate_Pipe {T : Type} `{EqDecision T} `{validate.ZeroValue T}
    (tv : validate.TransformValidator T) (fn : T -> T) (value : T) (h : validate.Heap) :
  validate.catchVal tv = None ->
  validate.TransformValidate (validate.Pipe fn tv) value h
  = validate.validator tv (fn (transformed tv value)) h.
Proof.
  intros Hc. unfold validate.TransformValidate, validate.Pipe.
  cbn [validate.validator validate.transforms validate.transformDefault validate.catchVal].
  rewrite Hc, fold_left_app. cbn [List.fold_left]. fold (transformed tv value). munfold.
  by destruct (validate.validator tv (fn (transformed tv value)) h) as [[[p|] h']|msg].
Qed.

End Pointers.

Section ParseRules.
Context `{strings.Unicode} `{validate.Library}.

(** X28. [ParseInt] does not use the string validator it is called on:
    whatever its rules, the result accepts exactly the strings that
    [strconv.Atoi] parses, and gives the others the error
    [parse_error] with the text of the error of the parser. *)
Theorem ParseInt_ignores_rules (v : validate.StringValidator) (value : string)
    (h : validate.Heap) :
  validate.ParseValidate (validate.ParseInt v) value h
  = match validate.Atoi value with
    | inl msg => validate.Returned (Some (length h), (h ++ [parseError msg])%list)
    | inr _ => validate.Returned (None, h)
    end.
Proof.
  unfold validate.ParseValidate, validate.ParseInt, validate.Parse.
  cbn [validate.parseFunc validate.parseValidator].
  by destruct (validate.Atoi value).
Qed.

End ParseRules.

(** ** The command *)

Lemma ofElems_snoc rooted e elems x :
  filepath.ofElems rooted ((e :: elems) ++ [x])
  = filepath.ofElems rooted (e :: elems) ++ "/" ++ x.
Proof. unfold filepath.ofElems. by rewrite Join_snoc, string_append_assoc. Qed.

(** [Clean] takes the separator at the end of a path of plain elements
    away. *)
Lemma Clean_plain_separator rooted e elems :
  Forall (fun x => filepath.plainElem x = true) (e :: elems) ->
  filepath.Clean (filepath.ofElems rooted (e :: elems) ++ "/")
  = filepath.ofElems rooted (e :: elems).
Proof.
  intros Hall.
  assert (Hns : Forall (fun x => filepath.noSlash x = true) (e :: (elems ++ [EmptyString]))).
  { apply Forall_cons. pose proof Hall as [He Hel]%Forall_cons.
    split; [by apply plainElem_noSlash|]. apply Forall_app. split.
    - eapply Forall_impl; [exact Hel|]. apply plainElem_noSlash.
    - by repeat constructor. }
  pose proof Hall as [He _]%Forall_cons. pose proof Hns as [Hens Hns']%Forall_cons.
  replace (filepath.ofElems rooted (e :: elems) ++ "/")
    with (filepath.ofElems rooted ((e :: elems) ++ [EmptyString]))
    by (by rewrite ofElems_snoc).
  change ((e :: elems) ++ [EmptyString])%list with (e :: (elems ++ [EmptyString]))%list.
  destruct (plainElem_head _ He) as (c & e' & -> & Hc).
  assert (Hj : exists r, strings.Join (String c e' :: elems) "/" = String c r).
  { destruct elems as [|e2 elems]; [by exists e'|].
    exists (e' ++ "/" ++ strings.Join (e2 :: elems) "/"). reflexivity. }
  destruct Hj as [r Hj].
  assert (Hj' : exists r, strings.Join (String c e' :: (elems ++ [EmptyString])) "/" = String c r).
  { destruct elems as [|e2 elems]; [by exists (e' ++ "/")|].
    exists (e' ++ "/" ++ strings.Join ((e2 :: elems) ++ [EmptyString]) "/"). reflexivity. }
  destruct Hj' as [r' Hj'].
  assert (Hfold : forall b,
    List.fold_left (filepath.cleanStep b) (String c e' :: (elems ++ [EmptyString])) []
    = List.rev (String c e' :: elems)).
  { intros b.
    change (String c e' :: (elems ++ [EmptyString]))%list
      with ((String c e' :: elems) ++ [EmptyString])%list.
    rewrite fold_left_app, (fold_cleanStep_plain _ _ _ Hall), app_nil_r. done. }
  unfold filepath.Clean, filepath.ofElems, strings.Split.
  destruct rooted.
  - change ("/" ++ strings.Join (String c e' :: (elems ++ [EmptyString])) "/")
      with (String "/" (strings.Join (String c e' :: (elems ++ [EmptyString])) "/")).
    rewrite prefix_slash.
    change (String.eqb (String "/" (strings.Join (String c e' :: (elems ++ [EmptyString])) "/"))
              EmptyString)
      with false.
    cbv iota.
    change (String "/" (strings.Join (String c e' :: (elems ++ [EmptyString])) "/"))
      with ("/" ++ strings.Join (String c e' :: (elems ++ [EmptyString])) "/").
    rewrite Split_from_slash, (Split_from_Join _ _ _ Hens Hns').
    change (EmptyString ++ String c e') with (String c e').
    change (List.fold_left (filepath.cleanStep true)
              (EmptyString :: String c e' :: (elems ++ [EmptyString])) [])
      with (List.fold_left (filepath.cleanStep true)
              (String c e' :: (elems ++ [EmptyString])) []).
    by rewrite Hfold, rev_involutive.
  - change (EmptyString ++ strings.Join (String c e' :: (elems ++ [EmptyString])) "/")
      with (strings.Join (String c e' :: (elems ++ [EmptyString])) "/").
    rewrite (Split_from_Join _ _ _ Hens Hns').
    change (EmptyString ++ String c e') with (String c e').
    rewrite Hfold, rev_involutive.
    rewrite Hj', (prefix_slash_other _ _ Hc), Hj. done.
Qed.

Lemma splitLast_noSlash name :
  filepath.noSlash name = true -> pathnames.splitLast name = (EmptyString, name).
Proof.
  induction name as [|c name IH]; [done|]. cbn [filepath.noSlash pathnames.splitLast].
  intros [Hc Hn]%andb_true_iff. rewrite (IH Hn).
  apply negb_true_iff in Hc. by rewrite Hc.
Qed.

Lemma splitLast_separator prefix name :
  filepath.noSlash name = true ->
  pathnames.splitLast (prefix ++ "/" ++ name) = (prefix ++ "/", name).
Proof.
  intros Hn. induction prefix as [|c prefix IH].
  - change (EmptyString ++ "/" ++ name) with (String "/" name).
    cbn [pathnames.splitLast]. by rewrite (splitLast_noSlash _ Hn).
  - change (String c prefix ++ "/" ++ name) with (String c (prefix ++ "/" ++ name)).
    cbn [pathnames.splitLast]. rewrite IH.
    replace (String.eqb (prefix ++ "/") EmptyString) with false by (by destruct prefix).
    cbn [negb]. by rewrite orb_true_r.
Qed.

Lemma stripSeparators_file prefix name :
  filepath.noSlash name = true -> name <> EmptyString ->
  pathnames.stripSeparators (prefix ++ name) = prefix ++ name.
Proof.
  intros Hn Hne.
  assert (Hname : pathnames.stripSeparators name = name /\ True).
  { split; [|done]. clear Hne. induction name as [|c name IH]; [done|].
    cbn [filepath.noSlash] in Hn. apply andb_true_iff in Hn as [Hc Hn].
    cbn [pathnames.stripSeparators]. rewrite (IH Hn).
    apply negb_true_iff in Hc. by rewrite Hc. }
  destruct Hname as [Hname _].
  induction prefix as [|c prefix IH]; [done|].
  change (String c prefix ++ name) with (String c (prefix ++ name)).
  cbn [pathnames.stripSeparators]. rewrite IH.
  replace (String.eqb (prefix ++ name) EmptyString) with false.
  - by rewrite andb_false_r.
  - destruct prefix; [|done]. by destruct name.
Qed.

Lemma Dir_plain rooted e elems name :
  Forall (fun x => filepath.plainElem x = true) (e :: elems) ->
  filepath.noSlash name = true ->
  pathnames.Dir (filepath.ofElems rooted (e :: elems) ++ "/" ++ name)
  = filepath.ofElems rooted (e :: elems).
Proof.
  intros Hall Hn. unfold pathnames.Dir.
  rewrite (splitLast_separator _ _ Hn). cbn [fst]. by apply Clean_plain_separator.
Qed.

Lemma Base_plain rooted elems d :
  filepath.plainElem d = true ->
  Forall (fun x => filepath.plainElem x = true) elems ->
  pathnames.Base (filepath.ofElems rooted (elems ++ [d])) = d.
Proof.
  intros Hd Hall. pose proof (plainElem_noSlash _ Hd) as Hn.
  destruct (plainElem_head _ Hd) as (c & d' & Heq & Hc).
  assert (Hne : d <> EmptyString) by (by rewrite Heq).
  assert (Hpath : exists prefix,
             filepath.ofElems rooted (elems ++ [d]) = prefix ++ d /\
             (prefix = EmptyString \/ exists p, prefix = p ++ "/")).
  { destruct elems as [|e elems].
    - unfold filepath.ofElems. cbn [app strings.Join]. destruct rooted.
      + exists "/". split; [done|]. right. by exists EmptyString.
      + exists EmptyString. split; [done|]. by left.
    - rewrite ofElems_snoc. exists (filepath.ofElems rooted (e :: elems) ++ "/").
      split; [by rewrite string_append_assoc|]. right. by eexists. }
  destruct Hpath as (prefix & -> & Hprefix).
  unfold pathnames.Base.
  replace (String.eqb (prefix ++ d) EmptyString) with false
    by (rewrite Heq; by destruct prefix).
  rewrite (stripSeparators_file _ _ Hn Hne).
  destruct Hprefix as [->|[p ->]].
  - change (EmptyString ++ d) with d. rewrite (splitLast_noSlash _ Hn). cbn [snd].
    by rewrite Heq.
  - rewrite string_append_assoc, (splitLast_separator _ _ Hn). cbn [snd]. by rewrite Heq.
Qed.

Lemma ofElems_nonempty rooted e elems :
  filepath.plainElem e = true ->
  exists c r, filepath.ofElems rooted (e :: elems) = String c r.
Proof.
  intros He. destruct (plainElem_head _ He) as (c & e' & -> & _).
  unfold filepath.ofElems. destruct rooted.
  - by exists "/"%char, (strings.Join (String c e' :: elems) "/").
  - destruct elems as [|e2 elems]; [by exists c, e'|].
    by exists c, (e' ++ "/" ++ strings.Join (e2 :: elems) "/").
Qed.

Section MainRuns.
Context `{strings.Unicode} `{cmd.FlagSet}.

(** X29. With the flag [-file] alone, the generator runs with the
    directory of the input file as the output directory and the last
    element of that directory as the package name; the command ends
    with the status 0 where the run returns no error, and with the
    status 1 and the error on the standard error otherwise. *)
Theorem main_defaults_from_directory (prog : string) (rest : list string)
    (flags : cmd.Flags) (rooted : bool) (elems : list string) (d name : string)
    (w : World) :
  cmd.Parse rest = inr flags ->
  cmd.outputDir flags = EmptyString ->
  cmd.pkgName flags = EmptyString ->
  cmd.inputFile flags = filepath.ofElems rooted (elems ++ [d]) ++ "/" ++ name ->
  Forall (fun x => filepath.plainElem x = true) (elems ++ [d]) ->
  filepath.noSlash name = true ->
  cmd.main (prog :: "gen" :: rest) w
  = exitOf (Generate {| InputFile := cmd.inputFile flags;
                        OutputDir := filepath.ofElems rooted (elems ++ [d]);
                        Package := d;
                        Verbose := cmd.verbose flags |} w).
Proof.
  intros Hparse Hout Hpkg Hfile Hall Hname.
  apply Forall_app in Hall as Hall'. destruct Hall' as [Helems Hd].
  apply Forall_inv in Hd.
  assert (Hdir : pathnames.Dir (cmd.inputFile flags) = filepath.ofElems rooted (elems ++ [d])).
  { rewrite Hfile. destruct elems as [|e elems]; by apply Dir_plain. }
  unfold cmd.main. cbn [String.eqb Ascii.eqb Bool.eqb]. rewrite Hparse, Hout, Hpkg.
  replace (String.eqb (cmd.inputFile flags) EmptyString) with false.
  - cbn [String.eqb]. rewrite Hdir, (Base_plain _ _ _ Hd Helems). done.
  - rewrite Hfile.
    assert (Hne : exists c r, filepath.ofElems rooted (elems ++ [d]) = String c r).
    { destruct elems as [|e elems]; [by apply ofElems_nonempty|].
      apply Forall_cons in Helems as [He _]. by apply ofElems_nonempty. }
    destruct Hne as (c & r & ->). done.
Qed.

(** X30. For an input file with no directory part and the flag [-file]
    alone, the output directory is [.] and so is the package name: the
    generator runs for the package [.]. *)
Theorem main_defaults_bare_file (prog : string) (rest : list string)
    (flags : cmd.Flags) (w : World) :
  cmd.Parse rest = inr flags ->
  cmd.outputDir flags = EmptyString ->
  cmd.pkgName flags = EmptyString ->
  cmd.inputFile flags <> EmptyString ->
  filepath.noSlash (cmd.inputFile flags) = true ->
  cmd.main (prog :: "gen" :: rest) w
  = exitOf (Generate {| InputFile := cmd.inputFile flags;
                        OutputDir := ".";
                        Package := ".";
                        Verbose := cmd.verbose flags |} w).
Proof.
  intros Hparse Hout Hpkg Hne Hname.
  unfold cmd.main. cbn [String.eqb Ascii.eqb Bool.eqb]. rewrite Hparse, Hout, Hpkg.
  replace (String.eqb (cmd.inputFile flags) EmptyString) with false
    by (by destruct (cmd.inputFile flags)).
  cbn [String.eqb]. unfold pathnames.Dir. rewrite (splitLast_noSlash _ Hname). done.
Qed.

End MainRuns.

(** ** The properties at sample inputs *)

Section Samples.
#[local] Existing Instance asciiTables.

Lemma C6_witness :
  parsed (worldOf noSchemaFile) !! InputFile sampleConfig = Some noSchemaFile /\
  (forall d value, In d (varDecls noSchemaFile) -> In value (initializers d) ->
                   extractValidationSchema value = None) /\
  exists w',
    Generate sampleConfig (worldOf noSchemaFile)
    = (inl (errorString ("no validation schemas found in " ++ InputFile sampleConfig)), w') /\
    files w' = files (worldOf noSchemaFile) /\ dirs w' = dirs (worldOf noSchemaFile).
Proof.
  assert (Hnone : forall d value, In d (varDecls noSchemaFile) -> In value (initializers d) ->
                   extractValidationSchema value = None).
  { intros d value [<-|[]] [<-|[]]. reflexivity. }
  split; [reflexivity|]. split; [exact Hnone|].
  exact (C6_no_schema_is_error sampleConfig (worldOf noSchemaFile) noSchemaFile eq_refl Hnone).
Defined.

Lemma C7_witness :
  parsed orderFails !! InputFile sampleConfig = Some threeSchemas /\
  findValidationSchemas threeSchemas
  = ([ {| TypeName := "User"; Fields := [fieldOfDecl nameField] |} ] ++
     {| TypeName := "Order"; Fields := [] |} ::
     [ {| TypeName := "Item"; Fields := [] |} ])%list /\
  generateAll sampleConfig [ {| TypeName := "User"; Fields := [fieldOfDecl nameField] |} ]
    (snd (announce sampleConfig threeSchemas orderFails)) = (inr tt, afterUser) /\
  generateValidator sampleConfig {| TypeName := "Order"; Fields := [] |} afterUser
  = (inl (Errorf_w "creating output file: "
            (errorString "open gen/order_validator.go: permission denied")),
     setDirs afterUser {[ "gen" ]}) /\
  Generate sampleConfig orderFails
  = (inl (Errorf_w "generating validator for Order: "
            (Errorf_w "creating output file: "
               (errorString "open gen/order_validator.go: permission denied"))),
     setDirs afterUser {[ "gen" ]}).
Proof.
  assert (H1 : parsed orderFails !! InputFile sampleConfig = Some threeSchemas)
    by reflexivity.
  assert (H2 : findValidationSchemas threeSchemas
               = ([ {| TypeName := "User"; Fields := [fieldOfDecl nameField] |} ] ++
                  {| TypeName := "Order"; Fields := [] |} ::
                  [ {| TypeName := "Item"; Fields := [] |} ])%list)
    by reflexivity.
  assert (H3 : generateAll sampleConfig
                 [ {| TypeName := "User"; Fields := [fieldOfDecl nameField] |} ]
                 (snd (announce sampleConfig threeSchemas orderFails)) = (inr tt, afterUser))
    by reflexivity.
  assert (H4 : generateValidator sampleConfig {| TypeName := "Order"; Fields := [] |} afterUser
               = (inl (Errorf_w "creating output file: "
                         (errorString "open gen/order_validator.go: permission denied")),
                  setDirs afterUser {[ "gen" ]}))
    by (vm_compute; reflexivity).
  repeat (split; [assumption|]).
  exact (proj1 (C7_fail_fast sampleConfig orderFails threeSchemas _ _ _ _ _ _ H1 H2 H3 H4)).
Defined.

(** For the type [Invoice] and the output directory [gen] the one file
    is [gen/invoice_validator.go]; what was there is overwritten. *)
Lemma C8_witness :
  generateValidator sampleConfig invoiceSchema invoiceWorld
  = (inr tt,
     setFiles invoiceWorld
       {[ "gen/invoice_validator.go" := render "models" invoiceSchema ]}) /\
  files (setFiles invoiceWorld {[ "gen/invoice_validator.go" := render "models" invoiceSchema ]})
  = <[ "gen/invoice_validator.go" := render "models" invoiceSchema ]> (files invoiceWorld) /\
  filepath.Join "gen" "invoice_validator.go" = "gen/invoice_validator.go".
Proof.
  assert (H1 : generateValidator sampleConfig invoiceSchema invoiceWorld
               = (inr tt,
                  setFiles invoiceWorld
                    {[ "gen/invoice_validator.go" := render "models" invoiceSchema ]}))
    by (vm_compute; reflexivity).
  split; [exact H1|].
  pose proof (C8_output_file sampleConfig invoiceSchema invoiceWorld _ H1) as [Hfiles Hpath].
  split; [exact Hfiles|].
  refine (Hpath false ["gen"] _ _ eq_refl); [discriminate|].
  repeat constructor.
Defined.

(** The run on the file of three schemas writes three files into the
    directory [gen]. *)
Lemma Generate_files_witness :
  parsed (worldOf threeSchemas) !! InputFile sampleConfig = Some threeSchemas /\
  Generate sampleConfig (worldOf threeSchemas)
  = (inr tt, snd (Generate sampleConfig (worldOf threeSchemas))) /\
  files (snd (Generate sampleConfig (worldOf threeSchemas)))
  = emitInto sampleConfig (files (worldOf threeSchemas)) (findValidationSchemas threeSchemas) /\
  dirs (snd (Generate sampleConfig (worldOf threeSchemas)))
  = {[ OutputDir sampleConfig ]} ∪ dirs (worldOf threeSchemas).
Proof.
  assert (H1 : parsed (worldOf threeSchemas) !! InputFile sampleConfig = Some threeSchemas)
    by reflexivity.
  assert (H2 : Generate sampleConfig (worldOf threeSchemas)
               = (inr tt, snd (Generate sampleConfig (worldOf threeSchemas))))
    by (vm_compute; reflexivity).
  split; [exact H1|]. split; [exact H2|].
  pose proof (Generate_files sampleConfig (worldOf threeSchemas) _ threeSchemas H1 H2)
    as (Hfiles & Hdirs & _).
  split; [exact Hfiles|exact Hdirs].
Defined.


Lemma findValidationSchemas_app_witness :
  Decls threeSchemas
  = ([schemaDecl None "UserSchema" "User" [nameField]] ++
     [schemaDecl None "OrderSchema" "Order" [];
      schemaDecl None "ItemSchema" "Item" []])%list /\
  findValidationSchemas threeSchemas
  = (findValidationSchemas (fileOf [schemaDecl None "UserSchema" "User" [nameField]]) ++
     findValidationSchemas (fileOf [schemaDecl None "OrderSchema" "Order" [];
                                    schemaDecl None "ItemSchema" "Item" []]))%list.
Proof.
  split; [reflexivity|].
  exact (findValidationSchemas_app threeSchemas
           [schemaDecl None "UserSchema" "User" [nameField]]
           [schemaDecl None "OrderSchema" "Order" [];
            schemaDecl None "ItemSchema" "Item" []] eq_refl).
Defined.

(** [validate.String().MinLen(3)] gives [String] and [MinLen]. *)
Lemma NamesOnly_extractValidators_chain_witness :
  isCallOnSelector (Ident "validate") = false /\
  NamesOnly.extractValidators minLen3 = ["String"; "MinLen"].
Proof.
  split; [reflexivity|].
  exact (NamesOnly_extractValidators_chain (Ident "validate")
           [("String", []); ("MinLen", [BasicLit "3"])] eq_refl).
Defined.

(** [Int().Positive().Negative()] rejects 5. *)
Lemma IntValidate_unsatisfiable_witness :
  validate.IntValidate (validate.Negative (validate.Positive validate.Int)) 5 <> None.
Proof.
  apply IntValidate_unsatisfiable. left. split; reflexivity.
Defined.

#[local] Existing Instance plainLibrary.
#[local] Existing Instance validate.int_zero.

(** [String().MinLen(3).Default("anonymous")] on a value of two spaces. *)
Lemma StringValidate_default_witness :
  validate.defaultVal (validate.Default "anonymous" (validate.MinLen 3 validate.String))
  = Some "anonymous" /\
  validate.blank "  " = true /\
  validate.StringValidate (validate.Default "anonymous" (validate.MinLen 3 validate.String)) "  "
  = validate.StringValidate (validate.Default "anonymous" (validate.MinLen 3 validate.String))
      "anonymous".
Proof.
  assert (H1 : validate.blank "  " = true) by (vm_compute; reflexivity).
  split; [reflexivity|]. split; [exact H1|].
  exact (StringValidate_default
           (validate.Default "anonymous" (validate.MinLen 3 validate.String))
           "anonymous" "  " eq_refl H1).
Defined.

Lemma StringValidate_required_with_default_witness :
  validate.blank "n/a" = false /\
  validate.StringValidate
    (validate.Default "n/a" (validate.Required (validate.MinLen 2 validate.String)))
    EmptyString
  = validate.StringValidate (validate.Default "n/a" (validate.MinLen 2 validate.String))
      EmptyString.
Proof.
  assert (H1 : validate.blank "n/a" = false) by (vm_compute; reflexivity).
  split; [exact H1|].
  exact (StringValidate_required_with_default (validate.MinLen 2 validate.String)
           "n/a" EmptyString H1).
Defined.

(** [Time().After(10).Before(100)] accepts the time 50. *)
Lemma TimeValidate_accepts_iff_witness :
  50%Z <> 0%Z /\
  validate.TimeValidate (validate.Before 100 (validate.After 10 validate.Time)) 50 = None.
Proof.
  assert (H1 : 50%Z <> 0%Z) by lia.
  split; [exact H1|].
  apply (TimeValidate_accepts_iff (validate.Before 100 (validate.After 10 validate.Time)) 50 H1).
  split; [intros t [= <-]; lia|].
  split; [intros t [= <-]; lia|].
  split; [intros start end_ [=]|intros fn [=]].
Defined.

(** The two rules of a size return the one error [sharedError]: for the
    size 0 by 0 both entries of the result are that error, and both
    read [Height]. *)
Lemma SchemaValidate_shared_error_witness :
  [sharedError] !! 0%nat = Some sharedError /\
  List.filter (rejects (0%Z, 0%Z)) sizeRules = ([widthRule] ++ [heightRule])%list /\
  validate.SchemaValidate (map (sharedRuleOf 0) sizeRules) (0%Z, 0%Z) [sharedError]
  = validate.Returned ([Some 0%nat; Some 0%nat], [withField "Height" sharedError]).
Proof.
  split; [reflexivity|]. split; [reflexivity|].
  exact (SchemaValidate_shared_error 0 sizeRules (0%Z, 0%Z) [sharedError] sharedError
           [widthRule] heightRule eq_refl eq_refl).
Defined.

(** The rule of the field [Email] of a struct whose fields [Name] and
    [Email] are both strings: its error carries the name [Name]. *)
Lemma SchemaField_name_by_type_witness :
  Forall (fun fld : string * string => snd fld <> "string") [] /\
  validate.StringValidate (validate.Email validate.String) (snd ("Ann", "nowhere"))
  = Some {| validate.Field := EmptyString; validate.Code := "invalid_email";
            validate.Message := "must be a valid email address" |} /\
  validate.SchemaValidate
    (validate.SchemaField (Some userFields) "string" (snd : string * string -> string)
       (validate.allocating (validate.StringValidate (validate.Email validate.String)))
       validate.Struct) ("Ann", "nowhere") []
  = validate.Returned
      ([Some 0%nat],
       [{| validate.Field := "Name"; validate.Code := "invalid_email";
           validate.Message := "must be a valid email address" |}]).
Proof.
  assert (H1 : Forall (fun fld : string * string => snd fld <> "string") []) by constructor.
  assert (H2 : validate.StringValidate (validate.Email validate.String)
                 (snd ("Ann", "nowhere"))
               = Some {| validate.Field := EmptyString; validate.Code := "invalid_email";
                         validate.Message := "must be a valid email address" |})
    by (vm_compute; reflexivity).
  split; [exact H1|]. split; [exact H2|].
  exact (SchemaField_name_by_type [] [("Email", "string")] "Name" "string"
           (snd : string * string -> string)
           (validate.StringValidate (validate.Email validate.String))
           ("Ann", "nowhere") _ [] H1 H2).
Defined.

(** [OneOf(Int().Min(10), Int().Negative())] on 5. *)
Lemma OneOf_no_match_witness :
  Forall2 (fun f e => f 5%Z = Some e)
    [validate.IntValidate (validate.Min 10 validate.Int);
     validate.IntValidate (validate.Negative validate.Int)]
    [{| validate.Field := EmptyString; validate.Code := "too_small";
        validate.Message := "value must be at least 10" |};
     {| validate.Field := EmptyString; validate.Code := "not_negative";
        validate.Message := "value must be negative" |}] /\
  validate.OneOf
    (map validate.allocating
       [validate.IntValidate (validate.Min 10 validate.Int);
        validate.IntValidate (validate.Negative validate.Int)]) 5%Z []
  = validate.Returned
      (Some 2%nat,
       [{| validate.Field := EmptyString; validate.Code := "too_small";
           validate.Message := "value must be at least 10" |};
        {| validate.Field := EmptyString; validate.Code := "not_negative";
           validate.Message := "value must be negative" |};
        noMatch EmptyString]).
Proof.
  assert (H1 : Forall2 (fun f e => f 5%Z = Some e)
                 [validate.IntValidate (validate.Min 10 validate.Int);
                  validate.IntValidate (validate.Negative validate.Int)]
                 [{| validate.Field := EmptyString; validate.Code := "too_small";
                     validate.Message := "value must be at least 10" |};
                  {| validate.Field := EmptyString; validate.Code := "not_negative";
                     validate.Message := "value must be negative" |}])
    by (repeat constructor).
  split; [exact H1|].
  exact (OneOf_no_match _ 5%Z [] _ _ H1 eq_refl).
Defined.

(** [Int().Min(10).Transform(x + 1).Catch(3)] on 1: the result is the
    error of 3. *)
Lemma TransformValidate_catch_witness :
  validate.validator (validate.IntTransform (fun x => (x + 1)%Z) (validate.Min 10 validate.Int))
  = validate.allocating (validate.IntValidate (validate.Min 10 validate.Int)) /\
  validate.TransformValidate
    (validate.TransformCatch 3%Z
       (validate.IntTransform (fun x => (x + 1)%Z) (validate.Min 10 validate.Int))) 1%Z []
  = validate.Returned
      (Some 1%nat,
       [{| validate.Field := EmptyString; validate.Code := "too_small";
           validate.Message := "value must be at least 10" |};
        {| validate.Field := EmptyString; validate.Code := "too_small";
           validate.Message := "value must be at least 10" |}]).
Proof.
  split; [reflexivity|].
  exact (TransformValidate_catch
           (validate.IntTransform (fun x => (x + 1)%Z) (validate.Min 10 validate.Int))
           (validate.IntValidate (validate.Min 10 validate.Int)) 3%Z 1%Z [] eq_refl).
Defined.

(** [Int().Positive().Transform(abs).Pipe(succ)] on -4 validates 5. *)
Lemma TransformValidate_Pipe_witness :
  validate.catchVal (validate.IntTransform Z.abs (validate.Positive validate.Int)) = None /\
  validate.TransformValidate
    (validate.Pipe Z.succ (validate.IntTransform Z.abs (validate.Positive validate.Int)))
    (-4)%Z []
  = validate.allocating (validate.IntValidate (validate.Positive validate.Int)) 5%Z [].
Proof.
  split; [reflexivity|].
  exact (TransformValidate_Pipe
           (validate.IntTransform Z.abs (validate.Positive validate.Int)) Z.succ (-4)%Z []
           eq_refl).
Defined.

#[local] Existing Instance fileFlagOnly.

(** [tibeb gen -file models/schema.go]: the output directory is [models]
    and so is the package. *)
Lemma main_defaults_from_directory_witness :
  cmd.Parse ["-file"; "models/schema.go"] = inr (fileFlag "models/schema.go") /\
  cmd.inputFile (fileFlag "models/schema.go")
  = filepath.ofElems false ([] ++ ["models"]) ++ "/" ++ "schema.go" /\
  Forall (fun x => filepath.plainElem x = true) ([] ++ ["models"]) /\
  cmd.main ["tibeb"; "gen"; "-file"; "models/schema.go"] (worldOf threeSchemas)
  = exitOf (Generate {| InputFile := "models/schema.go"; OutputDir := "models";
                        Package := "models"; Verbose := false |} (worldOf threeSchemas)).
Proof.
  assert (H1 : Forall (fun x => filepath.plainElem x = true) ([] ++ ["models"]))
    by (repeat constructor).
  split; [reflexivity|]. split; [reflexivity|]. split; [exact H1|].
  exact (main_defaults_from_directory "tibeb" ["-file"; "models/schema.go"]
           (fileFlag "models/schema.go") false [] "models" "schema.go"
           (worldOf threeSchemas) eq_refl eq_refl eq_refl eq_refl H1 eq_refl).
Defined.

(** [tibeb gen -file schema.go]: the package is [.]. *)
Lemma main_defaults_bare_file_witness :
  cmd.Parse ["-file"; "schema.go"] = inr (fileFlag "schema.go") /\
  filepath.noSlash "schema.go" = true /\
  cmd.main ["tibeb"; "gen"; "-file"; "schema.go"] (worldOf threeSchemas)
  = exitOf (Generate {| InputFile := "schema.go"; OutputDir := "."; Package := ".";
                        Verbose := false |} (worldOf threeSchemas)).
Proof.
  split; [reflexivity|]. split; [reflexivity|].
  refine (main_defaults_bare_file "tibeb" ["-file"; "schema.go"] (fileFlag "schema.go")
            (worldOf threeSchemas) eq_refl eq_refl eq_refl _ eq_refl).
  discriminate.
Defined.

End Samples.
